(** * Device control core: network analyzer and switch matrix

    A shallow embedding of [src/device0/imaging.py] (classes [VNA],
    [Switches] and [SwitchInvalidPortException]).

    - The VISA session ([visa.Resource], an external collaborator) is a
      record holding the traffic the instrument has seen, whether the
      session is open, a plan of transport faults and the instrument's
      answers.
    - Python methods are computations in a state-and-exception monad in
      which the state outlives a raised exception, as a mutated Python
      object does.
    - [input_dict] (from [gui.parameter], outside the device core) is an
      insertion-ordered dictionary over a value type given by the
      interface [PyValue]; the arithmetic of [freq_list] is the interface
      [PyArith], with an exact instance ([Q]), a binary64 instance
      (primitive floats, for evaluating runs) and the instance of Python's
      numbers ([int] and [float]) over a reference model of binary64
      rounding, for statements about all runs. *)

From Stdlib Require Import ZArith QArith List String Ascii Bool Lia.
From Stdlib Require Import Permutation Qfield Lqa.
From Stdlib Require Import DecimalString PrimFloat FloatOps SpecFloat.
From Stdlib Require Import DecimalZ DecimalPos.
From Stdlib Require Import Qround Qabs Qpower.
Import ListNotations.

Local Open Scope Z_scope.
Local Open Scope string_scope.
Local Open Scope list_scope.

Infix "+++" := String.append (right associativity, at level 60).

(** ** Python exceptions *)

Inductive Exn : Type :=
| VisaIOError (error_code : Z)          (* visa.errors.VisaIOError *)
| InvalidSession                        (* visa.errors.InvalidSession *)
| SwitchInvalidPortException (attempted_port : Z)
| KeyError (key : string)
| ZeroDivisionError
| ValueError
| OverflowError
| AttributeError                        (* method call on [None] *)
| OtherError (what : string).           (* any other failure *)

(** The two failures the destructors catch. *)
Definition is_transport_fault (e : Exn) : bool :=
  match e with
  | VisaIOError _ | InvalidSession => true
  | _ => false
  end.

(** ** State and exception monad *)

Module Py.

Definition M (S A : Type) : Type := S -> (Exn + A) * S.

Definition ret {S A} (a : A) : M S A := fun s => (inr a, s).

Definition raise {S A} (e : Exn) : M S A := fun s => (inl e, s).

Definition bind {S A B} (c : M S A) (k : A -> M S B) : M S B :=
  fun s =>
    match c s with
    | (inr a, s') => k a s'
    | (inl e, s') => (inl e, s')
    end.

Definition modify {S} (f : S -> S) : M S unit := fun s => (inr tt, f s).

Definition gets {S A} (f : S -> A) : M S A := fun s => (inr (f s), s).

(** [try: body / except <caught>: pass]. *)
Definition try_except_pass {S} (body : M S unit) (caught : Exn -> bool)
  : M S unit :=
  fun s =>
    match body s with
    | (inl e, s') => if caught e then (inr tt, s') else (inl e, s')
    | ok => ok
    end.

(** What the interpreter does when it finalises an object: it calls
    [__del__], and an exception that leaves [__del__] is handed to
    [sys.unraisablehook] (a report on [sys.stderr]) and discarded, so the
    code that dropped the object sees a normal return. *)
Definition finalize {S} (del : M S unit) : M S unit :=
  fun s => (inr tt, snd (del s)).

(** The exception [finalize] reports as unraisable, if any. *)
Definition unraisable {S} (del : M S unit) (s : S) : option Exn :=
  match fst (del s) with
  | inl e => Some e
  | inr _ => None
  end.

(** A pure computation that may raise, run without touching the state. *)
Definition lift {S A} (r : Exn + A) : M S A := fun s => (r, s).

(** [for x in xs: acc = body x acc]. *)
Fixpoint for_each {S X B} (xs : list X) (body : X -> B -> M S B) (acc : B)
  : M S B :=
  match xs with
  | [] => ret acc
  | x :: rest => bind (body x acc) (fun acc' => for_each rest body acc')
  end.

End Py.

Notation "x <- c ;; k" := (Py.bind c (fun x => k))
  (at level 61, c at next level, right associativity).
Notation "c ;; k" := (Py.bind c (fun _ => k))
  (at level 61, right associativity).

(** ** The instrument session *)

Inductive Event : Type :=
| Sent (cmd : string)      (* [resource.write(cmd)] reached the instrument *)
| Asked (cmd : string)     (* [resource.query(cmd)] was written and answered *)
| Closed.                  (* the session was closed *)

Record Resource : Type := mkResource {
  traffic : list Event;                    (* oldest first *)
  session_open : bool;
  read_termination : string;
  write_termination : string;
  timeout : Z;                             (* milliseconds *)
  faults : list (option Exn);              (* one slot per transport call *)
  instrument : list Event -> string -> string  (* answer to a query *)
}.

Definition set_read_termination (t : string) (r : Resource) : Resource :=
  mkResource (traffic r) (session_open r) t (write_termination r)
             (timeout r) (faults r) (instrument r).

Definition set_write_termination (t : string) (r : Resource) : Resource :=
  mkResource (traffic r) (session_open r) (read_termination r) t
             (timeout r) (faults r) (instrument r).

Definition set_timeout (ms : Z) (r : Resource) : Resource :=
  mkResource (traffic r) (session_open r) (read_termination r)
             (write_termination r) ms (faults r) (instrument r).

(** The next slot of the fault plan is used up. *)
Definition step_plan (r : Resource) : Resource :=
  mkResource (traffic r) (session_open r) (read_termination r)
             (write_termination r) (timeout r) (tl (faults r)) (instrument r).

(** The instrument sees [ev]; the plan advances. *)
Definition deliver (ev : Event) (r : Resource) : Resource :=
  mkResource (traffic r ++ [ev]) (session_open r) (read_termination r)
             (write_termination r) (timeout r) (tl (faults r)) (instrument r).

(** The session is closed; the plan advances. *)
Definition shut (r : Resource) : Resource :=
  mkResource (traffic r ++ [Closed]) false (read_termination r)
             (write_termination r) (timeout r) (tl (faults r)) (instrument r).

Definition next_fault (r : Resource) : option Exn :=
  match faults r with
  | Some e :: _ => Some e
  | _ => None
  end.

Module Session.

(** A transport call on a closed session raises [InvalidSession]; on an
    open one it raises the planned fault, if any, and otherwise reaches
    the instrument. *)
Definition transport {A} (ev : Event) (answer : Resource -> A)
  : Py.M Resource A :=
  fun r =>
    if session_open r then
      match next_fault r with
      | Some e => (inl e, step_plan r)
      | None => (inr (answer r), deliver ev r)
      end
    else (inl InvalidSession, r).

Definition write (cmd : string) : Py.M Resource unit :=
  transport (Sent cmd) (fun _ => tt).

Definition query (cmd : string) : Py.M Resource string :=
  transport (Asked cmd) (fun r => instrument r (traffic r) cmd).

(** Closing an already closed session is silently accepted. *)
Definition close : Py.M Resource unit :=
  fun r =>
    if session_open r then
      match next_fault r with
      | Some e => (inl e, step_plan r)
      | None => (inr tt, shut r)
      end
    else (inr tt, r).

End Session.

(** No fault is planned and the session is open. *)
Definition fault_free (r : Resource) : bool :=
  session_open r
  && forallb (fun f => match f with None => true | Some _ => false end)
             (faults r).

(** ** Controllers share the [resource] attribute *)

Class Controller (S : Type) : Type := {
  get_resource : S -> option Resource;
  put_resource : Resource -> S -> S
}.

(** [self.resource.<call>]: on [None] the attribute access fails. *)
Definition on_resource {S A} `{Controller S} (call : Py.M Resource A)
  : Py.M S A :=
  fun self =>
    match get_resource self with
    | None => (inl AttributeError, self)
    | Some r => let (res, r') := call r in (res, put_resource r' self)
    end.

(** ** Python builtins on integers *)

(** [str(z)] for an [int]. *)
Definition py_str_int (z : Z) : string := NilZero.string_of_int (Z.to_int z).

(** [int(s)] for a string of decimal digits; [None] is [ValueError]. *)
Definition py_int_of_str (s : string) : option Z :=
  option_map Z.of_int (NilZero.int_of_string s).

(** ** class Switches *)

Record Switches : Type := mkSwitches {
  sw_resource : option Resource;
  slept : list Q       (* ghost: the [time.sleep] calls made, in seconds *)
}.

#[export] Instance Switches_Controller : Controller Switches := {
  get_resource := sw_resource;
  put_resource r sw := mkSwitches (Some r) (slept sw)
}.

Module SwitchesImpl.

Definition PORT_MIN : Z := 1.
Definition PORT_MAX : Z := 24.

Definition debounce_time : Q := 3 # 100.   (* 0.03 seconds *)

Definition __init__ (resource : option Resource) : Switches :=
  mkSwitches resource [].

Definition write (cmd : string) : Py.M Switches unit :=
  on_resource (Session.write cmd).

Definition sleep (seconds : Q) : Py.M Switches unit :=
  Py.modify (fun sw => mkSwitches (sw_resource sw) (slept sw ++ [seconds])).

Definition __del__ : Py.M Switches unit :=
  fun sw =>
    match sw_resource sw with
    | None => (inr tt, sw)
    | Some _ =>
        Py.try_except_pass (on_resource Session.close) is_transport_fault sw
    end.

Definition close : Py.M Switches unit := on_resource Session.close.

Definition initialize : Py.M Switches unit := write "*rst".

Definition pad_port_number (port : Z) : string :=
  if (port <=? 9)%Z then "0" +++ py_str_int port else py_str_int port.

Definition set_tran (port : Z) : Py.M Switches unit :=
  if ((port <? PORT_MIN) || (port >? PORT_MAX))%Z
  then Py.raise (SwitchInvalidPortException port)
  else write ("tran_" +++ pad_port_number port +++ ";") ;;
       sleep debounce_time.

Definition set_refl (port : Z) : Py.M Switches unit :=
  if ((port <? PORT_MIN) || (port >? PORT_MAX))%Z
  then Py.raise (SwitchInvalidPortException port)
  else write ("refl_" +++ pad_port_number port) ;;
       sleep debounce_time.

End SwitchesImpl.

(** ** Python dictionaries (insertion ordered) *)

Module PyDict.

Definition dict (V : Type) : Type := list (string * V).

Fixpoint get {V} (k : string) (d : dict V) : option V :=
  match d with
  | [] => None
  | (k', v) :: rest => if String.eqb k k' then Some v else get k rest
  end.

(** [k in d]. *)
Definition contains {V} (k : string) (d : dict V) : bool :=
  match get k d with
  | Some _ => true
  | None => false
  end.

(** [d[k]]. *)
Definition lookup {V} (k : string) (d : dict V) : Exn + V :=
  match get k d with
  | Some v => inr v
  | None => inl (KeyError k)
  end.

(** [d[k] = v]: an existing key keeps its place, a new one goes last. *)
Fixpoint set {V} (k : string) (v : V) (d : dict V) : dict V :=
  match d with
  | [] => [(k, v)]
  | (k', v') :: rest =>
      if String.eqb k k' then (k, v) :: rest else (k', v') :: set k v rest
  end.

Definition keys {V} (d : dict V) : list string := map fst d.

End PyDict.

Import PyDict.

(** ** The values held by [input_dict] *)

(** What [VNA.initialize] asks of a stored value. *)
Class PyValue (V : Type) : Type := {
  py_str : V -> string;       (* [str(v)] *)
  py_int : V -> Exn + Z;      (* [int(v)] *)
  py_eq_one : V -> bool;      (* [v == 1] *)
  py_truthy : V -> bool       (* [bool(v)] *)
}.

(** What [VNA.freq_list] asks of a stored value. *)
Class PyArith (V : Type) : Type := {
  py_of_int : Z -> V;                 (* an [int] operand, coerced *)
  py_add : V -> V -> V;
  py_sub : V -> V -> V;
  py_mul : V -> V -> V;
  py_truediv : V -> V -> Exn + V;     (* [/] *)
  py_to_int : V -> Exn + Z            (* [int(v)] *)
}.

(** Python [int] values. *)
#[export] Instance PyValue_int : PyValue Z := {
  py_str := py_str_int;
  py_int z := inr z;
  py_eq_one z := (z =? 1)%Z;
  py_truthy z := negb (z =? 0)%Z
}.

(** Exact arithmetic: numbers as rationals, no rounding. *)
#[export] Instance PyArith_exact : PyArith Q := {
  py_of_int := inject_Z;
  py_add := Qplus;
  py_sub := Qminus;
  py_mul := Qmult;
  py_truediv a b :=
    if Qeq_bool b (inject_Z 0) then inl ZeroDivisionError else inr (Qdiv a b);
  py_to_int q := inr (Z.quot (Qnum q) (Zpos (Qden q)))
}.

Module Binary64.

(** [float(z)], rounded to nearest even. *)
Definition of_int (z : Z) : float :=
  SF2Prim (binary_normalize prec emax z 0 false).

(** [int(f)]: truncation towards zero. *)
Definition to_int (f : float) : Exn + Z :=
  match Prim2SF f with
  | S754_zero _ => inr 0%Z
  | S754_finite s m e =>
      let mag := if (0 <=? e)%Z then (Zpos m * 2 ^ e)%Z
                 else Z.shiftr (Zpos m) (- e) in
      inr (if s then (- mag)%Z else mag)
  | S754_infinity _ => inl OverflowError
  | S754_nan => inl ValueError
  end.

Definition truediv (a b : float) : Exn + float :=
  if PrimFloat.eqb b PrimFloat.zero then inl ZeroDivisionError
  else inr (PrimFloat.div a b).

End Binary64.

(** Python [float] values (IEEE 754 binary64). *)
#[export] Instance PyArith_float : PyArith float := {
  py_of_int := Binary64.of_int;
  py_add := PrimFloat.add;
  py_sub := PrimFloat.sub;
  py_mul := PrimFloat.mul;
  py_truediv := Binary64.truediv;
  py_to_int := Binary64.to_int
}.

(** ** Binary64 rounding, as a reference model

    Primitive floats evaluate a run of [freq_list]; statements about all
    runs need the rounding itself.  This model takes the finite binary64
    values as rationals and rounds the exact result of each operation to
    the nearest value with 53 significant bits, ties to even, with the
    subnormal range and the overflow to infinity of IEEE 754. *)

Module Rounding.

Local Open Scope Q_scope.

(** [2 ^ e], for an exponent of either sign. *)
Definition pow2 (e : Z) : Q := 2 ^ e.

(** The exponent of the binade of a positive [q]:
    [2 ^ ilog2 q <= q < 2 ^ (ilog2 q + 1)]. *)
Definition ilog2 (q : Q) : Z :=
  let e := (Z.log2 (Qnum q) - Z.log2 (Zpos (Qden q)))%Z in
  if Qle_bool (pow2 e) q then e else (e - 1)%Z.

(** The exponent of the unit in the last place of the binary64 values next
    to [q]: 53 significant bits, and no exponent below that of the
    subnormal values. *)
Definition ulp_exp (q : Q) : Z :=
  if Qeq_bool q 0 then (-1074)%Z
  else Z.max (ilog2 (Qabs q) - 52) (-1074).

(** The integer nearest to [m]; of two equally near, the even one. *)
Definition nearest_even (m : Q) : Z :=
  let f := Qfloor m in
  match Qcompare (m - inject_Z f) (1 # 2) with
  | Lt => f
  | Gt => (f + 1)%Z
  | Eq => if Z.even f then f else (f + 1)%Z
  end.

(** [q] rounded to the nearest binary64 value, exponent range not yet
    bounded above. *)
Definition round (q : Q) : Q :=
  inject_Z (nearest_even (q / pow2 (ulp_exp q))) * pow2 (ulp_exp q).

End Rounding.

Import Rounding.

Module IEEE.

Local Open Scope Q_scope.

(** A binary64 value.  The two zeros are not told apart: nothing in
    [freq_list] depends on the sign of a zero. *)
Inductive b64 : Type :=
| Num (q : Q)
| Inf (negative : bool)
| NaN.

(** The rounded result lies beyond the largest finite value. *)
Definition overflows (q : Q) : bool := Qle_bool (pow2 1024) (Qabs q).

(** The sign bit of [q]. *)
Definition negative (q : Q) : bool := negb (Qle_bool 0 q).

(** The binary64 result of an operation whose exact result is [q]. *)
Definition fin (q : Q) : b64 :=
  if overflows (round q) then Inf (negative q) else Num (round q).

Definition b64_opp (x : b64) : b64 :=
  match x with
  | Num q => Num (- q)
  | Inf s => Inf (negb s)
  | NaN => NaN
  end.

Definition b64_add (x y : b64) : b64 :=
  match x, y with
  | Num a, Num b => fin (a + b)
  | Num _, Inf s | Inf s, Num _ => Inf s
  | Inf s, Inf t => if Bool.eqb s t then Inf s else NaN
  | _, _ => NaN
  end.

Definition b64_sub (x y : b64) : b64 := b64_add x (b64_opp y).

Definition b64_mul (x y : b64) : b64 :=
  match x, y with
  | Num a, Num b => fin (a * b)
  | Num a, Inf s | Inf s, Num a =>
      if Qeq_bool a 0 then NaN else Inf (xorb s (negative a))
  | Inf s, Inf t => Inf (xorb s t)
  | _, _ => NaN
  end.

(** Division by a divisor that is not zero. *)
Definition b64_div (x y : b64) : b64 :=
  match x, y with
  | Num a, Num b => fin (a / b)
  | Num _, Inf _ => Num 0
  | Inf s, Num b => Inf (xorb s (negative b))
  | _, _ => NaN
  end.

Definition b64_is_zero (x : b64) : bool :=
  match x with
  | Num q => Qeq_bool q 0
  | _ => false
  end.

(** [int(x)]: truncation towards zero. *)
Definition b64_trunc (x : b64) : Exn + Z :=
  match x with
  | Num q => inr (Z.quot (Qnum q) (Zpos (Qden q)))
  | Inf _ => inl OverflowError
  | NaN => inl ValueError
  end.

(** The same value as a primitive float, and back. *)
Definition to_prim (x : b64) : float :=
  match x with
  | Num q =>
      let r := Qred q in
      Z.ldexp (Binary64.of_int (Qnum r)) (- Z.log2 (Zpos (Qden r)))
  | Inf s => if s then neg_infinity else infinity
  | NaN => nan
  end.

Definition of_prim (f : float) : b64 :=
  match Prim2SF f with
  | S754_zero _ => Num 0
  | S754_infinity s => Inf s
  | S754_nan => NaN
  | S754_finite s m e =>
      Num ((if s then - inject_Z (Zpos m) else inject_Z (Zpos m)) * pow2 e)
  end.

End IEEE.

Import IEEE.

(** ** Python numbers: [int] and [float] *)

Inductive pynum : Type :=
| PInt (z : Z)
| PFloat (x : b64).

Module PyNumber.

Local Open Scope Q_scope.

(** The float operand an [int] is coerced to in mixed arithmetic.  (An
    [int] beyond the binary64 range, which CPython refuses to coerce, is
    taken to the infinity of its sign.) *)
Definition to_float (x : pynum) : b64 :=
  match x with
  | PInt z => fin (inject_Z z)
  | PFloat f => f
  end.

(** The same coercion where the result type lets the refusal show. *)
Definition float_of (x : pynum) : Exn + b64 :=
  match x with
  | PInt z =>
      match fin (inject_Z z) with
      | Inf _ => inl OverflowError
      | f => inr f
      end
  | PFloat f => inr f
  end.

(** [+], [-], [*]: exact on two [int]s, binary64 otherwise. *)
Definition arith (on_int : Z -> Z -> Z) (on_float : b64 -> b64 -> b64)
           (x y : pynum) : pynum :=
  match x, y with
  | PInt a, PInt b => PInt (on_int a b)
  | _, _ => PFloat (on_float (to_float x) (to_float y))
  end.

(** [/]: the correctly rounded quotient of two [int]s, binary64 division
    otherwise. *)
Definition truediv (x y : pynum) : Exn + pynum :=
  match x, y with
  | PInt a, PInt b =>
      if (b =? 0)%Z then inl ZeroDivisionError
      else match fin (inject_Z a / inject_Z b) with
           | Inf _ => inl OverflowError
           | f => inr (PFloat f)
           end
  | _, _ =>
      match float_of x with
      | inl e => inl e
      | inr fx =>
          match float_of y with
          | inl e => inl e
          | inr fy =>
              if b64_is_zero fy then inl ZeroDivisionError
              else inr (PFloat (b64_div fx fy))
          end
      end
  end.

Definition to_int (x : pynum) : Exn + Z :=
  match x with
  | PInt z => inr z
  | PFloat f => b64_trunc f
  end.

End PyNumber.

(** Python numbers under the arithmetic of [freq_list]. *)
Definition PyArith_number : PyArith pynum := {|
  py_of_int := PInt;
  py_add := PyNumber.arith Z.add b64_add;
  py_sub := PyNumber.arith Z.sub b64_sub;
  py_mul := PyNumber.arith Z.mul b64_mul;
  py_truediv := PyNumber.truediv;
  py_to_int := PyNumber.to_int
|}.

(** The value of a finite number. *)
Definition value_of (x : pynum) : option Q :=
  match x with
  | PInt z => Some (inject_Z z)
  | PFloat (Num q) => Some q
  | PFloat _ => None
  end.

(** The value of a number that is an integer: an [int], or a [float]
    without a fractional part. *)
Definition integer_of (x : pynum) : option Z :=
  match x with
  | PInt z => Some z
  | PFloat (Num q) =>
      if (Qnum q mod Zpos (Qden q) =? 0)%Z
      then Some (Qnum q / Zpos (Qden q))%Z else None
  | PFloat _ => None
  end.

(** [q] is a finite binary64 value: rounding leaves it alone, and it is
    below the overflow threshold. *)
Definition is_binary64 (q : Q) : bool :=
  Qeq_bool (round q) q && negb (overflows q).

(** ** class VNA *)

Inductive ParameterRange : Type :=
| IntRange (lo hi : Z)
| FloatRange (lo hi : float).

Record VNA : Type := mkVNA {
  resource : option Resource;
  name : string;
  sp_to_measure : list string;
  p_ranges : dict ParameterRange
}.

#[export] Instance VNA_Controller : Controller VNA := {
  get_resource := resource;
  put_resource r v := mkVNA (Some r) (name v) (sp_to_measure v) (p_ranges v)
}.

Definition LF : string := String (ascii_of_nat 10) EmptyString.

Module VNAImpl.

Definition s_params : list string := ["S11"; "S21"; "S12"; "S22"].

Definition write (cmd : string) : Py.M VNA unit :=
  on_resource (Session.write cmd).

Definition query (cmd : string) : Py.M VNA string :=
  on_resource (Session.query cmd).

(** [self.resource.<attribute> = ...]. *)
Definition configure (f : Resource -> Resource) : Py.M VNA unit :=
  on_resource (Py.modify f).

Definition set_name (n : string) : Py.M VNA unit :=
  Py.modify (fun v => mkVNA (resource v) n (sp_to_measure v) (p_ranges v)).

Definition append_sp (s : string) : Py.M VNA unit :=
  Py.modify (fun v =>
    mkVNA (resource v) (name v) (sp_to_measure v ++ [s]) (p_ranges v)).

Definition set_p_range (k : string) (rg : ParameterRange) : Py.M VNA unit :=
  Py.modify (fun v =>
    mkVNA (resource v) (name v) (sp_to_measure v) (set k rg (p_ranges v))).

Definition __del__ : Py.M VNA unit :=
  fun v =>
    match resource v with
    | None => (inr tt, v)
    | Some _ =>
        Py.try_except_pass
          (write "*RST" ;; on_resource Session.close)
          is_transport_fault v
    end.

Definition close : Py.M VNA unit :=
  write "*RST" ;;
  on_resource Session.close.

Definition display_on (setting : bool) : Py.M VNA unit :=
  if setting then write "DISPLAY:VISIBLE ON"
  else write "DISPLAY:VISIBLE OFF".

Section RangeDiscovery.

(** [int(text)] and [float(text)] on an instrument's answer. *)
Variable parse_int : string -> Exn + Z.
Variable parse_float : string -> Exn + float.

Definition int_range (k q_min q_max : string) : Py.M VNA unit :=
  a <- query q_min ;; lo <- Py.lift (parse_int a) ;;
  b <- query q_max ;; hi <- Py.lift (parse_int b) ;;
  set_p_range k (IntRange lo hi).

Definition float_range (k q_min q_max : string) : Py.M VNA unit :=
  a <- query q_min ;; lo <- Py.lift (parse_float a) ;;
  b <- query q_max ;; hi <- Py.lift (parse_float b) ;;
  set_p_range k (FloatRange lo hi).

Definition _set_parameter_ranges : Py.M VNA unit :=
  configure (set_read_termination LF) ;;
  configure (set_write_termination LF) ;;
  write "SYSTEM:FPRESET" ;;
  write ("CALCULATE1:PARAMETER:DEFINE '" +++ "parameter_S21" +++ "', S21") ;;
  write "INITIATE:CONTINUOUS OFF" ;;
  write "TRIGGER:SOURCE MANUAL" ;;
  write "SENSE1:SWEEP:MODE HOLD" ;;
  write "SENSE1:AVERAGE OFF" ;;
  write "SENSE1:SWEEP:TYPE LINEAR" ;;
  int_range "num_points"
    "SENSE1:SWEEP:POINTS? MIN" "SENSE1:SWEEP:POINTS? MAX" ;;
  float_range "ifbw"
    "SENSE1:BANDWIDTH? MIN" "SENSE1:BANDWIDTH? MAX" ;;
  float_range "freq_start"
    "SENSE1:FREQUENCY:START? MIN" "SENSE1:FREQUENCY:START? MAX" ;;
  float_range "freq_stop"
    "SENSE1:FREQUENCY:STOP? MIN" "SENSE1:FREQUENCY:STOP? MAX" ;;
  float_range "power"
    "SOURCE1:POWER1? MIN" "SOURCE1:POWER1? MAX".

(** The constructor: the new object, and how construction ended. *)
Definition __init__ (res : option Resource) : (Exn + unit) * VNA :=
  _set_parameter_ranges (mkVNA res "" [] []).

End RangeDiscovery.

Section WithStore.

Context {V : Type}.
Variable input_dict : dict V.

Section Initialize.

Context `{PyValue V}.

(** The body of the loop over [VNA.s_params]. *)
Definition enable (s_param : string) (_ : unit) : Py.M VNA unit :=
  if contains s_param input_dict then
    v <- Py.lift (lookup s_param input_dict) ;;
    if py_eq_one v then append_sp s_param else Py.ret tt
  else Py.ret tt.

(** ['<prefix>' + str(input_dict[key].value)]. *)
Definition setting (prefix key : string) : Py.M VNA string :=
  v <- Py.lift (lookup key input_dict) ;;
  Py.ret (prefix +++ py_str v).

Definition initialize : Py.M VNA unit :=
  configure (set_read_termination LF) ;;
  configure (set_write_termination LF) ;;
  idn <- query "*IDN?" ;;
  set_name idn ;;
  write "SYSTEM:FPRESET" ;;
  display_on false ;;
  write "CALCULATE1:PARAMETER:DEFINE 'parameter_S11', S11" ;;
  write "CALCULATE1:PARAMETER:DEFINE 'parameter_S12', S12" ;;
  write "CALCULATE1:PARAMETER:DEFINE 'parameter_S21', S21" ;;
  write "CALCULATE1:PARAMETER:DEFINE 'parameter_S22', S22" ;;
  write "INITIATE:CONTINUOUS OFF" ;;
  write "TRIGGER:SOURCE MANUAL" ;;
  write "SENSE1:SWEEP:MODE HOLD" ;;
  write "SENSE1:AVERAGE OFF" ;;
  write "SENSE1:SWEEP:TYPE LINEAR" ;;
  n <- Py.lift (lookup "num_points" input_dict) ;;
  points <- Py.lift (py_int n) ;;
  write ("SENSE1:SWEEP:POINTS " +++ py_str_int points) ;;
  c <- setting "SENSE1:BANDWIDTH " "ifbw" ;; write c ;;
  c <- setting "SENSE1:FREQUENCY:START " "freq_start" ;; write c ;;
  c <- setting "SENSE1:FREQUENCY:STOP " "freq_stop" ;; write c ;;
  c <- setting "SOURCE1:POWER1 " "power" ;; write (c +++ "DBM") ;;
  configure (set_timeout (100 * 1000)) ;;
  Py.for_each s_params enable tt.

End Initialize.

Section FreqList.

Context `{PyArith V}.

(** [range(n)]. *)
Definition range (n : Z) : list Z := map Z.of_nat (seq 0 (Z.to_nat n)).

(** The property [freq_list]; it reads [input_dict] only. *)
Definition freq_list : Exn + list V :=
  match lookup "freq_stop" input_dict with inl e => inl e | inr stop =>
  match lookup "freq_start" input_dict with inl e => inl e | inr start =>
  match lookup "num_points" input_dict with inl e => inl e | inr n =>
  match py_truediv (py_sub stop start) (py_sub n (py_of_int 1)) with
  | inl e => inl e
  | inr inc =>
  match py_to_int n with inl e => inl e | inr count =>
    inr (fold_left
           (fun li i => li ++ [py_add start (py_mul (py_of_int i) inc)])
           (range count) [])
  end end end end end.

End FreqList.

End WithStore.

(** The body of the loop over [self.sp_to_measure]. *)
Definition collect (s_parameter : string) (output : dict string)
  : Py.M VNA (dict string) :=
  write ("CALCULATE1:PARAMETER:SELECT '" +++ "parameter_" +++ s_parameter
         +++ "'") ;;
  data <- query "CALCULATE:DATA? SDATA" ;;
  Py.ret (set s_parameter data output).

Definition fire : Py.M VNA (dict string) :=
  write "INIT:IMM" ;;
  _ <- query "*OPC?" ;;
  targets <- Py.gets sp_to_measure ;;
  Py.for_each targets collect [].

End VNAImpl.

(** * Specification vocabulary *)

(** The test of [VNA.initialize]: the key is present and its value [== 1]. *)
Definition enabled {V} `{PyValue V} (d : dict V) (s : string) : bool :=
  match get s d with
  | Some v => py_eq_one v
  | None => false
  end.

(** The test in the specification's words: the key is present and its
    value is truthy. *)
Definition present_and_truthy {V} `{PyValue V} (d : dict V) (s : string)
  : bool :=
  match get s d with
  | Some v => py_truthy v
  | None => false
  end.

(** The settings [VNA.initialize] reads are there, and [num_points] converts
    to an [int]. *)
Definition configured {V} `{PyValue V} (d : dict V) : bool :=
  match get "num_points" d with
  | Some n => match py_int n with inr _ => true | inl _ => false end
  | None => false
  end
  && contains "ifbw" d && contains "freq_start" d
  && contains "freq_stop" d && contains "power" d.

Definition select_command (s : string) : string :=
  "CALCULATE1:PARAMETER:SELECT '" +++ "parameter_" +++ s +++ "'".

Definition data_query : string := "CALCULATE:DATA? SDATA".

(** One parameter-select command followed by one structured-data query. *)
Definition select_and_read (s : string) : list Event :=
  [Sent (select_command s); Asked data_query].

(** What the instrument sees during one [fire()] acquiring [sp]. *)
Definition sweep_traffic (sp : list string) : list Event :=
  Sent "INIT:IMM" :: Asked "*OPC?" :: flat_map select_and_read sp.

(** The traffic of a controller's session ([[]] without a session). *)
Definition seen {S} `{Controller S} (self : S) : list Event :=
  match get_resource self with
  | Some r => traffic r
  | None => []
  end.

(** The controller holds an open session with no fault planned. *)
Definition healthy {S} `{Controller S} (self : S) : bool :=
  match get_resource self with
  | Some r => fault_free r
  | None => false
  end.

(** From [v0], the controller has reached [v]: the instrument has seen
    [evs] more, the acquisition list is [sp], the session is still free of
    faults. *)
Definition reached (v0 : VNA) (evs : list Event) (sp : list string) (v : VNA)
  : Prop :=
  sp_to_measure v = sp /\
  healthy v = true /\
  seen v = seen v0 ++ evs.

(** Keys of a dictionary after [d[s] = ...]. *)
Definition add_key (ks : list string) (s : string) : list string :=
  if existsb (String.eqb s) ks then ks else ks ++ [s].

(** [l] is strictly increasing / constant for the order [lt] / equality [eq]. *)
Fixpoint chain {A} (rel : A -> A -> Prop) (l : list A) : Prop :=
  match l with
  | a :: (b :: _) as rest => rel a b /\ chain rel rest
  | _ => True
  end.

(** [c] started in [s] returns normally, and [post] holds of the value
    returned and the state reached. *)
Definition yields {S A} (c : Py.M S A) (s : S) (post : A -> S -> Prop) : Prop :=
  exists a s', c s = (inr a, s') /\ post a s'.

(** [c] leaves [sp_to_measure] alone, however it ends. *)
Definition keeps_sp {A} (c : Py.M VNA A) : Prop :=
  forall v, sp_to_measure (snd (c v)) = sp_to_measure v.

(** [c] turns the acquisition list [sp] into [f sp] when it returns, and
    leaves it alone when it raises. *)
Definition sp_effect {A} (c : Py.M VNA A) (f : list string -> list string)
  : Prop :=
  forall v,
    match c v with
    | (inr _, v') => sp_to_measure v' = f (sp_to_measure v)
    | (inl _, v') => sp_to_measure v' = sp_to_measure v
    end.

(** The increment and the [k]-th frequency, as [freq_list] computes them
    in exact arithmetic. *)
Definition linear_step (a b : Q) (n : Z) : Q :=
  ((b - a) / (inject_Z n - inject_Z 1))%Q.

Definition linear_point (a b : Q) (n : Z) (k : nat) : Q :=
  (a + inject_Z (Z.of_nat k) * linear_step a b n)%Q.

(** The [i]-th entry of [freq_list] as binary64 computes it from the
    coerced start value [A] and the increment [inc]. *)
Definition point (A inc : Q) (i : Z) : Q :=
  round (A + round (round (inject_Z i) * inc))%Q.

(** How far the last entry may be from [freq_stop]: a few units in the
    last place of the bounds, and of the subnormal range per point. *)
Definition tolerance (a b : Q) (n : Z) : Q :=
  (pow2 (-50) * (Qabs a + Qabs b) + inject_Z n * pow2 (-1072))%Q.

(** The value a number is coerced to when it meets a [float]. *)
Definition coerced (x : pynum) : Q :=
  match x with
  | PInt z => round (inject_Z z)
  | PFloat (Num q) => q
  | PFloat _ => 0%Q
  end.

(** ** Example data *)

(** An open session that has seen nothing and answers every query. *)
Definition bench : Resource :=
  mkResource [] true "" "" 2000 [] (fun _ _ => "+0").

(** The store of the specification's example, with [int] values. *)
Definition example_store : dict Z :=
  [("freq_start", 1000000000); ("freq_stop", 2000000000); ("num_points", 3);
   ("ifbw", 1000); ("power", 0);
   ("S11", 1); ("S21", 0); ("S12", 0); ("S22", 0)]%Z.

(** The same settings with the truthy value [2] under [S11]. *)
Definition store_with_two : dict Z :=
  [("freq_start", 1000000000); ("freq_stop", 2000000000); ("num_points", 3);
   ("ifbw", 1000); ("power", 0);
   ("S11", 2); ("S21", 0); ("S12", 0); ("S22", 0)]%Z.

(** A controller as constructed (nothing acquired yet) on [bench]. *)
Definition new_vna : VNA := mkVNA (Some bench) "" [] [].

Definition new_switches : Switches := SwitchesImpl.__init__ (Some bench).

(** An open session whose next transport call raises [e]. *)
Definition failing (e : Exn) : Resource :=
  mkResource [] true "" "" 2000 [Some e] (fun _ _ => "+0").

(** The store of the specification's example, as binary64 values. *)
Definition example_store_float : dict float :=
  [("freq_start", 1e9%float); ("freq_stop", 2e9%float);
   ("num_points", 3%float)].

(** Two neighbouring binary64 values as sweep bounds, three points. *)
Definition narrow_store : dict float :=
  [("freq_start", 1e16%float); ("freq_stop", 10000000000000002%float);
   ("num_points", 3%float)].

(** A single point, and no point at all. *)
Definition one_point_store : dict float :=
  [("freq_start", 1e9%float); ("freq_stop", 2e9%float);
   ("num_points", 1%float)].

Definition no_point_store : dict float :=
  [("freq_start", 1e9%float); ("freq_stop", 2e9%float);
   ("num_points", 0%float)].

(** The example's settings as exact numbers. *)
Definition example_store_exact : dict Q :=
  [("freq_start", inject_Z 1000000000); ("freq_stop", inject_Z 2000000000);
   ("num_points", inject_Z 3)].

(** The bounds of [narrow_store] as Python floats, and the example's
    settings as Python [int]s. *)
Definition narrow_numbers : dict pynum :=
  [("freq_start", PFloat (Num (10000000000000000 # 1)));
   ("freq_stop", PFloat (Num (10000000000000002 # 1)));
   ("num_points", PFloat (Num (3 # 1)))].

Definition example_numbers : dict pynum :=
  [("freq_start", PInt 1000000000); ("freq_stop", PInt 2000000000);
   ("num_points", PInt 3)].

(** A float start, an [int] stop and a float point count:
    [0.5], [10], [20.0]. *)
Definition mixed_numbers : dict pynum :=
  [("freq_start", PFloat (Num (1 # 2))); ("freq_stop", PInt 10);
   ("num_points", PFloat (Num (20 # 1)))].

(** Pairs of binary64 values on which the reference model is compared
    with the primitive floats: ordinary values, ties, subnormal results,
    underflow and overflow. *)
Definition binary64_samples : list (float * float) :=
  [(1e16, 1); (1e16, 2); (1e16, 3); (1, 3); (2, 3); (1e9, 2e9);
   (0x1.999999999999ap-4, 0x1.999999999999ap-3);
   (0x1p-1074, 2); (0x1p-1074, 3); (0x1p-1074, 0.5); (1.5, 0x1p-1070);
   (0x1p-1022, 0.5); (0x1p-1022, 3);
   (9007199254740992, 1); (9007199254740994, 1);
   (0x1.fffffffffffffp+1023, 0x1.fffffffffffffp+1023);
   (0x1.fffffffffffffp+1023, 0x1p+970);
   (0x1.fffffffffffffp+1023, 0x1p+969);
   (-0x1.fffffffffffffp+1023, 0x1.fffffffffffffp+1023);
   (-1.5, 2.5); (-3.5, 0.5); (-2.5, 0x1p-60); (3, -7);
   (0x1p-600, 0x1p-600); (0x1p+600, 0x1p+600);
   (123456789, 987654321); (0x1p+1000, 0x1p-1000)]%float.

Definition same_float (x y : float) : bool :=
  match Prim2SF x, Prim2SF y with
  | S754_zero _, S754_zero _ => true
  | S754_nan, S754_nan => true
  | _, _ => PrimFloat.eqb x y
  end.

(** The model and the primitive floats give the same sum, difference,
    product and quotients of [x] and [y]. *)
Definition agrees_on (p : float * float) : bool :=
  let (x, y) := p in
  same_float (to_prim (of_prim x)) x &&
  same_float (to_prim (b64_add (of_prim x) (of_prim y))) (x + y) &&
  same_float (to_prim (b64_sub (of_prim x) (of_prim y))) (x - y) &&
  same_float (to_prim (b64_mul (of_prim x) (of_prim y))) (x * y) &&
  same_float (to_prim (b64_div (of_prim x) (of_prim y))) (x / y) &&
  same_float (to_prim (b64_div (of_prim y) (of_prim x))) (y / x).

(** A Python number as a primitive float. *)
Definition number_to_prim (x : pynum) : float :=
  match x with
  | PInt z => Binary64.of_int z
  | PFloat f => to_prim f
  end.

Definition run_to_prim (r : Exn + list pynum) : Exn + list float :=
  match r with
  | inr li => inr (map number_to_prim li)
  | inl e => inl e
  end.

(** [VNA.freq_list] rejects its input explicitly: it fails, and not by
    the division. *)
Definition explicitly_rejected {A} (result : Exn + A) : Prop :=
  exists e, result = inl e /\ e <> ZeroDivisionError.

(** * Reasoning about computations *)

Section Outcomes.

Context {S : Type}.

Lemma yields_ret {A} (a : A) s (post : A -> S -> Prop) :
  post a s -> yields (Py.ret a) s post.
Proof. intros Hp. exists a, s. split; [reflexivity | exact Hp]. Qed.

Lemma yields_bind {A B} (c : Py.M S A) (k : A -> Py.M S B) s post :
  yields c s (fun a s' => yields (k a) s' post) ->
  yields (Py.bind c k) s post.
Proof.
  intros (a & s1 & Hc & b & s2 & Hk & Hp).
  exists b, s2. split; [| exact Hp].
  unfold Py.bind. rewrite Hc. exact Hk.
Qed.

Lemma yields_weaken {A} (c : Py.M S A) s (post post' : A -> S -> Prop) :
  yields c s post -> (forall a s', post a s' -> post' a s') ->
  yields c s post'.
Proof. intros (a & s1 & Hc & Hp) Himp. exists a, s1. auto. Qed.

Lemma yields_lift {A} (a : A) s (post : A -> S -> Prop) :
  post a s -> yields (Py.lift (inr a)) s post.
Proof. intros Hp. exists a, s. split; [reflexivity | exact Hp]. Qed.

Lemma yields_modify (f : S -> S) s (post : unit -> S -> Prop) :
  post tt (f s) -> yields (Py.modify f) s post.
Proof. intros Hp. exists tt, (f s). split; [reflexivity | exact Hp]. Qed.

Lemma yields_gets {A} (f : S -> A) s (post : A -> S -> Prop) :
  post (f s) s -> yields (Py.gets f) s post.
Proof. intros Hp. exists (f s), s. split; [reflexivity | exact Hp]. Qed.

(** A normal return of a sequence splits into normal returns of its parts. *)
Lemma bind_returned {A B} (c : Py.M S A) (k : A -> Py.M S B) s b s2 :
  Py.bind c k s = (inr b, s2) ->
  exists a s1, c s = (inr a, s1) /\ k a s1 = (inr b, s2).
Proof.
  unfold Py.bind. destruct (c s) as [[e | a] s1]; intros Heq.
  - discriminate.
  - exists a, s1. auto.
Qed.

(** An exception of the first part is the exception of the sequence. *)
Lemma bind_raised {A B} (c : Py.M S A) (k : A -> Py.M S B) s e s1 :
  c s = (inl e, s1) -> Py.bind c k s = (inl e, s1).
Proof. intros Hc. unfold Py.bind. rewrite Hc. reflexivity. Qed.

End Outcomes.

(** ** Sessions without faults *)

Lemma fault_free_open r : fault_free r = true -> session_open r = true.
Proof. unfold fault_free. intros H. apply andb_prop in H. tauto. Qed.

Lemma fault_free_next r : fault_free r = true -> next_fault r = None.
Proof.
  unfold fault_free, next_fault. intros H. apply andb_prop in H.
  destruct H as [_ H]. destruct (faults r) as [| [e |] rest]; simpl in *;
    congruence.
Qed.

Lemma fault_free_deliver ev r :
  fault_free r = true -> fault_free (deliver ev r) = true.
Proof.
  unfold fault_free. simpl. intros H. apply andb_prop in H.
  destruct H as [Ho H]. rewrite Ho. simpl.
  destruct (faults r) as [| f rest]; simpl in *; [reflexivity |].
  apply andb_prop in H. tauto.
Qed.

Lemma transport_delivers {A} ev (answer : Resource -> A) r :
  fault_free r = true ->
  Session.transport ev answer r = (inr (answer r), deliver ev r).
Proof.
  intros H. unfold Session.transport.
  rewrite (fault_free_open _ H), (fault_free_next _ H). reflexivity.
Qed.

Lemma transport_raises {A} ev (answer : Resource -> A) r e :
  session_open r = true -> next_fault r = Some e ->
  Session.transport ev answer r = (inl e, step_plan r).
Proof. intros Ho Hn. unfold Session.transport. rewrite Ho, Hn. reflexivity. Qed.

Lemma transport_closed {A} ev (answer : Resource -> A) r :
  session_open r = false ->
  Session.transport ev answer r = (inl InvalidSession, r).
Proof. intros Ho. unfold Session.transport. rewrite Ho. reflexivity. Qed.

Lemma close_shuts r :
  session_open r = true -> next_fault r = None ->
  Session.close r = (inr tt, shut r).
Proof. intros Ho Hn. unfold Session.close. rewrite Ho, Hn. reflexivity. Qed.

Lemma close_closed r :
  session_open r = false -> Session.close r = (inr tt, r).
Proof. intros Ho. unfold Session.close. rewrite Ho. reflexivity. Qed.

(** [Session.close] returns normally only with the session closed. *)
Lemma close_returned r r' :
  Session.close r = (inr tt, r') -> session_open r' = false.
Proof.
  unfold Session.close. destruct (session_open r) eqn:Ho.
  - destruct (next_fault r); intros Heq; inversion Heq. reflexivity.
  - intros Heq. inversion Heq. subst. exact Ho.
Qed.


(** * The analyzer on a fault-free session *)

Lemma reached_start v :
  healthy v = true -> reached v [] (sp_to_measure v) v.
Proof.
  intros Hh. repeat split; [exact Hh |]. now rewrite app_nil_r.
Qed.

Lemma on_resource_delivers {A} ev (answer : Resource -> A) v0 evs sp v
      (post : A -> VNA -> Prop) :
  reached v0 evs sp v ->
  (forall a v', reached v0 (evs ++ [ev]) sp v' -> post a v') ->
  yields (on_resource (Session.transport ev answer)) v post.
Proof.
  intros (Hsp & Hh & Hseen) Hpost.
  unfold healthy, seen in *. unfold yields, on_resource.
  simpl get_resource in *.
  destruct (resource v) as [r |] eqn:Hr; [| discriminate].
  rewrite (transport_delivers _ _ _ Hh).
  eexists _, _. split; [reflexivity |].
  apply Hpost. unfold reached, healthy, seen. simpl.
  repeat split.
  - exact Hsp.
  - now apply fault_free_deliver.
  - rewrite Hseen. now rewrite app_assoc.
Qed.

Lemma write_yields cmd v0 evs sp v (post : unit -> VNA -> Prop) :
  reached v0 evs sp v ->
  (forall v', reached v0 (evs ++ [Sent cmd]) sp v' -> post tt v') ->
  yields (VNAImpl.write cmd) v post.
Proof.
  intros Hr Hpost. unfold VNAImpl.write, Session.write.
  eapply on_resource_delivers; [exact Hr |].
  intros [] v' Hv'. now apply Hpost.
Qed.

Lemma query_yields cmd v0 evs sp v (post : string -> VNA -> Prop) :
  reached v0 evs sp v ->
  (forall a v', reached v0 (evs ++ [Asked cmd]) sp v' -> post a v') ->
  yields (VNAImpl.query cmd) v post.
Proof.
  intros Hr Hpost. unfold VNAImpl.query, Session.query.
  eapply on_resource_delivers; [exact Hr | exact Hpost].
Qed.

Lemma configure_yields f v0 evs sp v (post : unit -> VNA -> Prop) :
  (forall r, traffic (f r) = traffic r /\ fault_free (f r) = fault_free r) ->
  reached v0 evs sp v ->
  (forall v', reached v0 evs sp v' -> post tt v') ->
  yields (VNAImpl.configure f) v post.
Proof.
  intros Hf (Hsp & Hh & Hseen) Hpost.
  unfold healthy, seen in *. unfold yields, VNAImpl.configure, on_resource.
  simpl get_resource in *.
  destruct (resource v) as [r |] eqn:Hr; [| discriminate].
  eexists _, _. split; [reflexivity |].
  apply Hpost. unfold reached, healthy, seen. simpl.
  destruct (Hf r) as [Ht Hff]. rewrite Ht, Hff. auto.
Qed.

Lemma set_name_yields n v0 evs sp v (post : unit -> VNA -> Prop) :
  reached v0 evs sp v ->
  (forall v', reached v0 evs sp v' -> post tt v') ->
  yields (VNAImpl.set_name n) v post.
Proof.
  intros (Hsp & Hh & Hseen) Hpost. apply yields_modify. apply Hpost.
  unfold reached, healthy, seen in *. simpl in *. auto.
Qed.

Lemma append_sp_yields s v0 evs sp v (post : unit -> VNA -> Prop) :
  reached v0 evs sp v ->
  (forall v', reached v0 evs (sp ++ [s]) v' -> post tt v') ->
  yields (VNAImpl.append_sp s) v post.
Proof.
  intros (Hsp & Hh & Hseen) Hpost. apply yields_modify. apply Hpost.
  unfold reached, healthy, seen in *. simpl in *. subst sp. auto.
Qed.

Lemma contains_lookup {V} k (d : dict V) :
  contains k d = true -> exists v, lookup k d = inr v.
Proof.
  unfold contains, lookup. destruct (get k d) as [v |]; [eauto | discriminate].
Qed.

Lemma configured_lookups {V} `{PyValue V} (d : dict V) :
  configured d = true ->
  (exists n p, lookup "num_points" d = inr n /\ py_int n = inr p) /\
  (exists v, lookup "ifbw" d = inr v) /\
  (exists v, lookup "freq_start" d = inr v) /\
  (exists v, lookup "freq_stop" d = inr v) /\
  (exists v, lookup "power" d = inr v).
Proof.
  unfold configured. intros Hc.
  repeat (apply andb_prop in Hc; destruct Hc as [Hc ?]).
  repeat split; try now apply contains_lookup.
  unfold lookup. destruct (get "num_points" d) as [n |]; [| discriminate].
  destruct (py_int n) as [e | p] eqn:Hp; [discriminate |]. eauto.
Qed.

(** One step of a computation of the analyzer on a fault-free session. *)
Ltac vna_step :=
  lazymatch goal with
  | |- yields (Py.bind _ _) _ _ => apply yields_bind
  | Hr : reached _ _ _ ?v |- yields (VNAImpl.write _) ?v _ =>
      eapply write_yields; [exact Hr | clear Hr; intros ? Hr; cbv beta]
  | Hr : reached _ _ _ ?v |- yields (VNAImpl.query _) ?v _ =>
      eapply query_yields; [exact Hr | clear Hr; intros ? ? Hr; cbv beta]
  | Hr : reached _ _ _ ?v |- yields (VNAImpl.configure _) ?v _ =>
      eapply configure_yields;
      [ intros ?; split; reflexivity | exact Hr
      | clear Hr; intros ? Hr; cbv beta ]
  | Hr : reached _ _ _ ?v |- yields (VNAImpl.set_name _) ?v _ =>
      eapply set_name_yields; [exact Hr | clear Hr; intros ? Hr; cbv beta]
  | |- yields (Py.lift (inr _)) _ _ => apply yields_lift; cbv beta
  | |- yields (Py.ret _) _ _ => apply yields_ret; cbv beta
  | |- yields (Py.gets _) _ _ => apply yields_gets; cbv beta
  end.

Lemma enable_loop_yields {V} `{PyValue V} (d : dict V) xs :
  forall v0 evs sp v (post : unit -> VNA -> Prop),
    reached v0 evs sp v ->
    (forall v', reached v0 evs (sp ++ filter (enabled d) xs) v' -> post tt v') ->
    yields (Py.for_each xs (VNAImpl.enable d) tt) v post.
Proof.
  induction xs as [| x xs IH]; intros v0 evs sp v post Hr Hpost.
  - simpl. apply yields_ret. apply Hpost. simpl. now rewrite app_nil_r.
  - simpl Py.for_each. apply yields_bind.
    unfold VNAImpl.enable at 1, contains, lookup.
    assert (Hstep : filter (enabled d) (x :: xs)
                    = if enabled d x then x :: filter (enabled d) xs
                      else filter (enabled d) xs) by reflexivity.
    rewrite Hstep in Hpost. unfold enabled at 1 in Hpost.
    destruct (get x d) as [val |].
    + apply yields_bind. apply yields_lift.
      destruct (py_eq_one val).
      * eapply append_sp_yields; [exact Hr |]. intros v1 Hr1.
        eapply IH; [exact Hr1 |]. intros v' Hv'. apply Hpost.
        now rewrite <- app_assoc in Hv'.
      * apply yields_ret. eapply IH; [exact Hr | exact Hpost].
    + apply yields_ret. eapply IH; [exact Hr | exact Hpost].
Qed.

(** On a fault-free session and a configured store, [initialize] returns
    and has appended the enabled parameters, in the order of [s_params]. *)
Lemma initialize_yields {V} `{PyValue V} (d : dict V) v0 sp v
      (post : unit -> VNA -> Prop) :
  configured d = true ->
  reached v0 [] sp v ->
  (forall v' evs,
      reached v0 evs (sp ++ filter (enabled d) VNAImpl.s_params) v' ->
      post tt v') ->
  yields (VNAImpl.initialize d) v post.
Proof.
  intros Hc Hr Hpost.
  destruct (configured_lookups d Hc)
    as ((n & p & Hn & Hp) & (b & Hb) & (f1 & Hf1) & (f2 & Hf2) & (pw & Hpw)).
  unfold VNAImpl.initialize, VNAImpl.setting, VNAImpl.display_on.
  rewrite Hn, Hb, Hf1, Hf2, Hpw.
  repeat vna_step. rewrite Hp.
  repeat vna_step.
  eapply enable_loop_yields; [exact Hr |].
  intros vfin Hfin. eapply Hpost. exact Hfin.
Qed.

Lemma keys_set {V} k (v : V) (d : dict V) :
  keys (set k v d) = add_key (keys d) k.
Proof.
  unfold add_key, keys.
  induction d as [| [k' v'] rest IH]; simpl; [reflexivity |].
  destruct (String.eqb k k') eqn:Hk; simpl.
  - apply String.eqb_eq in Hk. now subst.
  - rewrite IH. now destruct (existsb (String.eqb k) (map fst rest)).
Qed.

Lemma add_keys_fresh xs :
  forall ks, NoDup (ks ++ xs) -> fold_left add_key xs ks = ks ++ xs.
Proof.
  induction xs as [| x xs IH]; intros ks Hnd; simpl.
  - now rewrite app_nil_r.
  - assert (Hx : existsb (String.eqb x) ks = false).
    { apply NoDup_remove_2 in Hnd.
      destruct (existsb (String.eqb x) ks) eqn:He; [| reflexivity].
      apply existsb_exists in He. destruct He as (y & Hy & Hxy).
      apply String.eqb_eq in Hxy. subst y.
      exfalso. apply Hnd. apply in_or_app. now left. }
    unfold add_key at 2. rewrite Hx.
    rewrite IH; rewrite <- app_assoc; [reflexivity | exact Hnd].
Qed.

Lemma collect_loop_yields xs :
  forall v0 evs sp v acc (post : dict string -> VNA -> Prop),
    reached v0 evs sp v ->
    (forall out v',
        reached v0 (evs ++ flat_map select_and_read xs) sp v' ->
        keys out = fold_left add_key xs (keys acc) ->
        post out v') ->
    yields (Py.for_each xs VNAImpl.collect acc) v post.
Proof.
  induction xs as [| x xs IH]; intros v0 evs sp v acc post Hr Hpost.
  - simpl. apply yields_ret. apply Hpost; [| reflexivity].
    simpl. now rewrite app_nil_r.
  - simpl Py.for_each. apply yields_bind. unfold VNAImpl.collect at 1.
    repeat vna_step.
    eapply IH; [exact Hr |]. intros out vfin Hfin Hkeys. apply Hpost.
    + simpl. repeat rewrite <- app_assoc in Hfin. exact Hfin.
    + rewrite Hkeys, keys_set. reflexivity.
Qed.

(** On a fault-free session [fire] returns, the instrument has seen the
    sweep traffic of the acquisition list, in its order, and the result
    has one key for each of its entries. *)
Lemma fire_yields v0 evs sp v (post : dict string -> VNA -> Prop) :
  reached v0 evs sp v ->
  (forall out v',
      reached v0 (evs ++ sweep_traffic sp) sp v' ->
      keys out = fold_left add_key sp [] ->
      post out v') ->
  yields VNAImpl.fire v post.
Proof.
  intros Hr Hpost. unfold VNAImpl.fire.
  repeat vna_step.
  lazymatch goal with
  | Hnow : reached _ _ ?s ?w |- _ =>
      replace (sp_to_measure w) with s by (symmetry; apply Hnow);
      eapply collect_loop_yields; [exact Hnow |]
  end.
  intros out vfin Hfin Hkeys. apply Hpost; [| exact Hkeys].
  unfold sweep_traffic. repeat rewrite <- app_assoc in Hfin. exact Hfin.
Qed.

(** * The acquisition list on any session *)

Lemma keeps_sp_bind {A B} (c : Py.M VNA A) (k : A -> Py.M VNA B) :
  keeps_sp c -> (forall a, keeps_sp (k a)) -> keeps_sp (Py.bind c k).
Proof.
  intros Hc Hk v. unfold Py.bind. specialize (Hc v).
  destruct (c v) as [[e | a] v1]; simpl in *; [exact Hc |].
  rewrite Hk. exact Hc.
Qed.

Lemma keeps_sp_on_resource {A} (call : Py.M Resource A) :
  keeps_sp (on_resource call).
Proof.
  intros v. unfold on_resource. simpl get_resource.
  destruct (resource v) as [r |]; [| reflexivity].
  destruct (call r) as [res r']. reflexivity.
Qed.

Lemma keeps_sp_write cmd : keeps_sp (VNAImpl.write cmd).
Proof. apply keeps_sp_on_resource. Qed.

Lemma keeps_sp_query cmd : keeps_sp (VNAImpl.query cmd).
Proof. apply keeps_sp_on_resource. Qed.

Lemma keeps_sp_configure f : keeps_sp (VNAImpl.configure f).
Proof. apply keeps_sp_on_resource. Qed.

Lemma keeps_sp_set_name n : keeps_sp (VNAImpl.set_name n).
Proof. intros v. reflexivity. Qed.

Lemma keeps_sp_lift {A} (r : Exn + A) : keeps_sp (Py.lift r).
Proof. intros v. reflexivity. Qed.

Lemma keeps_sp_ret {A} (a : A) : keeps_sp (Py.ret a).
Proof. intros v. reflexivity. Qed.

Create HintDb sp discriminated.
#[export] Hint Resolve keeps_sp_bind keeps_sp_write keeps_sp_query
  keeps_sp_configure keeps_sp_set_name keeps_sp_lift keeps_sp_ret : sp.

Lemma sp_effect_bind {A B} (c : Py.M VNA A) (k : A -> Py.M VNA B) f :
  keeps_sp c -> (forall a, sp_effect (k a) f) -> sp_effect (Py.bind c k) f.
Proof.
  intros Hc Hk v. unfold Py.bind. specialize (Hc v).
  destruct (c v) as [[e | a] v1]; simpl in *; [exact Hc |].
  specialize (Hk a v1). destruct (k a v1) as [[e | b] v2]; congruence.
Qed.

(** One turn of the loop of [initialize]: it never raises. *)
Lemma enable_run {V} `{PyValue V} (d : dict V) x v :
  VNAImpl.enable d x tt v
  = (inr tt,
     if enabled d x
     then mkVNA (resource v) (name v) (sp_to_measure v ++ [x]) (p_ranges v)
     else v).
Proof.
  unfold VNAImpl.enable, contains, lookup, enabled.
  destruct (get x d) as [val |]; [| reflexivity].
  unfold Py.bind, Py.lift. destruct (py_eq_one val); reflexivity.
Qed.

(** The loop of [initialize] appends the enabled names. *)
Lemma enable_loop_run {V} `{PyValue V} (d : dict V) xs :
  forall v,
    Py.for_each xs (VNAImpl.enable d) tt v
    = (inr tt, mkVNA (resource v) (name v)
                     (sp_to_measure v ++ filter (enabled d) xs) (p_ranges v)).
Proof.
  induction xs as [| x xs IH]; intros v.
  - simpl. rewrite app_nil_r. now destruct v.
  - change (Py.for_each (x :: xs) (VNAImpl.enable d) tt v)
      with (Py.bind (VNAImpl.enable d x tt)
                    (fun acc => Py.for_each xs (VNAImpl.enable d) acc) v).
    unfold Py.bind. rewrite enable_run. rewrite IH.
    simpl filter. destruct (enabled d x); simpl.
    + now rewrite <- app_assoc.
    + reflexivity.
Qed.

Lemma initialize_sp_effect {V} `{PyValue V} (d : dict V) :
  sp_effect (VNAImpl.initialize d)
            (fun sp => sp ++ filter (enabled d) VNAImpl.s_params).
Proof.
  unfold VNAImpl.initialize, VNAImpl.setting, VNAImpl.display_on.
  repeat lazymatch goal with
         | |- sp_effect (Py.bind _ _) _ =>
             apply sp_effect_bind; [solve [auto with sp] | intros ?]
         end.
  intros v. rewrite enable_loop_run. reflexivity.
Qed.

(** However the session behaves, an [initialize] that returns has appended
    the enabled names to the acquisition list. *)
Lemma initialize_returned {V} `{PyValue V} (d : dict V) v v' :
  VNAImpl.initialize d v = (inr tt, v') ->
  sp_to_measure v' = sp_to_measure v ++ filter (enabled d) VNAImpl.s_params.
Proof.
  intros Hrun. pose proof (initialize_sp_effect d v) as Heff.
  rewrite Hrun in Heff. exact Heff.
Qed.

Lemma NoDup_s_params : NoDup VNAImpl.s_params.
Proof.
  unfold VNAImpl.s_params.
  repeat constructor; simpl; intuition discriminate.
Qed.

Lemma enabled_NoDup {V} `{PyValue V} (d : dict V) :
  NoDup (filter (enabled d) VNAImpl.s_params).
Proof. apply NoDup_filter, NoDup_s_params. Qed.

(** [fire] on a healthy controller, from the state it is in. *)
Lemma fire_from v :
  healthy v = true ->
  NoDup (sp_to_measure v) ->
  exists out v',
    VNAImpl.fire v = (inr out, v') /\
    seen v' = seen v ++ sweep_traffic (sp_to_measure v) /\
    keys out = sp_to_measure v /\
    sp_to_measure v' = sp_to_measure v /\
    healthy v' = true.
Proof.
  intros Hh Hnd.
  destruct (fire_yields v [] (sp_to_measure v) v
              (fun out v' =>
                 seen v' = seen v ++ sweep_traffic (sp_to_measure v) /\
                 keys out = sp_to_measure v /\
                 sp_to_measure v' = sp_to_measure v /\
                 healthy v' = true))
    as (out & v' & Hrun & Hpost).
  - now apply reached_start.
  - intros out v' (Hsp & Hh' & Hseen) Hkeys. repeat split; auto.
    rewrite Hkeys. now apply (add_keys_fresh _ []).
  - exists out, v'. auto.
Qed.

(** [initialize] on a healthy controller and a configured store. *)
Lemma initialize_from {V} `{PyValue V} (d : dict V) v :
  healthy v = true ->
  configured d = true ->
  exists v',
    VNAImpl.initialize d v = (inr tt, v') /\
    sp_to_measure v'
    = sp_to_measure v ++ filter (enabled d) VNAImpl.s_params /\
    healthy v' = true.
Proof.
  intros Hh Hc.
  destruct (initialize_yields d v (sp_to_measure v) v
              (fun _ v' =>
                 sp_to_measure v'
                 = sp_to_measure v ++ filter (enabled d) VNAImpl.s_params /\
                 healthy v' = true) Hc (reached_start v Hh))
    as ([] & v' & Hrun & Hpost).
  - intros v' evs (Hsp & Hh' & _). auto.
  - exists v'. auto.
Qed.

(** A dictionary's lookups do not depend on the order of its items. *)
Lemma get_permutation {V} (d d' : dict V) :
  Permutation d d' -> NoDup (keys d) -> forall k, get k d = get k d'.
Proof.
  induction 1 as [| [k0 x0] l l' Hperm IH | [k1 x1] [k2 x2] l
                 | l l' l'' H1 IH1 H2 IH2]; intros Hnd k.
  - reflexivity.
  - simpl. inversion Hnd; subst. rewrite IH; auto.
  - simpl. destruct (String.eqb k k2) eqn:E2; [| reflexivity].
    destruct (String.eqb k k1) eqn:E1; [| reflexivity].
    apply String.eqb_eq in E1, E2. subst.
    inversion Hnd; subst. exfalso. simpl in *. tauto.
  - rewrite IH1; [apply IH2 | exact Hnd].
    unfold keys in *. eapply Permutation_NoDup; [| exact Hnd].
    now apply Permutation_map.
Qed.

Lemma enabled_permutation {V} `{PyValue V} (d d' : dict V) :
  Permutation d d' -> NoDup (keys d) ->
  forall xs, filter (enabled d') xs = filter (enabled d) xs.
Proof.
  intros Hperm Hnd xs. apply filter_ext. intros s. unfold enabled.
  now rewrite (get_permutation d d' Hperm Hnd).
Qed.

(** * Claims about the analyzer *)

(** C1. After a single [initialize()] on a newly constructed controller,
    [fire()] on a fault-free session first writes the sweep trigger, then
    issues the operation-complete query, then for each configured
    scattering parameter, in order, writes one parameter-select command
    followed by one structured-data query; the mapping it returns has
    exactly the configured parameters as keys. *)
Theorem fire_triggers_waits_then_reads {V} `{PyValue V}
        (d : dict V) (v0 v1 : VNA) :
  sp_to_measure v0 = [] ->
  VNAImpl.initialize d v0 = (inr tt, v1) ->
  healthy v1 = true ->
  exists out v2,
    VNAImpl.fire v1 = (inr out, v2) /\
    seen v2 = seen v1
              ++ Sent "INIT:IMM" :: Asked "*OPC?"
              :: flat_map (fun s => [Sent (select_command s); Asked data_query])
                          (sp_to_measure v1) /\
    keys out = sp_to_measure v1 /\
    NoDup (keys out).
Proof.
  intros Hnew Hinit Hh.
  assert (Hsp : sp_to_measure v1 = filter (enabled d) VNAImpl.s_params).
  { rewrite (initialize_returned d v0 v1 Hinit), Hnew. reflexivity. }
  assert (Hnd : NoDup (sp_to_measure v1)).
  { rewrite Hsp. apply enabled_NoDup. }
  destruct (fire_from v1 Hh Hnd) as (out & v2 & Hrun & Hseen & Hkeys & _).
  exists out, v2. repeat split; try assumption.
  now rewrite Hkeys.
Qed.

(** The example scenario: with only [S11] enabled there is exactly one
    select/data-query pair, and the result has the single key [S11]. *)
Lemma fire_example_only_S11 :
  sp_to_measure new_vna = [] /\
  fst (VNAImpl.initialize example_store new_vna) = inr tt /\
  let v1 := snd (VNAImpl.initialize example_store new_vna) in
  exists out v2,
    VNAImpl.fire v1 = (inr out, v2) /\
    seen v2 = seen v1
              ++ [Sent "INIT:IMM"; Asked "*OPC?";
                  Sent "CALCULATE1:PARAMETER:SELECT 'parameter_S11'";
                  Asked "CALCULATE:DATA? SDATA"] /\
    keys out = ["S11"].
Proof.
  split; [reflexivity |]. split; [vm_compute; reflexivity |].
  destruct (fire_triggers_waits_then_reads example_store new_vna
              (snd (VNAImpl.initialize example_store new_vna)))
    as (out & v2 & Hrun & Hseen & Hkeys & _).
  - reflexivity.
  - vm_compute. reflexivity.
  - vm_compute. reflexivity.
  - exists out, v2. split; [exact Hrun |]. split.
    + rewrite Hseen. vm_compute. reflexivity.
    + rewrite Hkeys. vm_compute. reflexivity.
Defined.

(** C10. The enable order is the fixed order [S11, S21, S12, S22] of
    [VNA.s_params]: after a single [initialize()] the acquisition list is
    the enabled names in that order, whatever the order of the store's own
    keys, and [fire()] issues its select/data-query pairs and builds its
    result mapping in that same order. *)
Theorem acquisition_order_is_s_params_order {V} `{PyValue V}
        (d d' : dict V) (v0 : VNA) :
  sp_to_measure v0 = [] ->
  healthy v0 = true ->
  configured d = true ->
  NoDup (keys d) ->
  Permutation d d' ->
  VNAImpl.s_params = ["S11"; "S21"; "S12"; "S22"] /\
  exists v1 out v2,
    VNAImpl.initialize d v0 = (inr tt, v1) /\
    sp_to_measure v1 = filter (enabled d) VNAImpl.s_params /\
    sp_to_measure (snd (VNAImpl.initialize d' v0)) = sp_to_measure v1 /\
    fst (VNAImpl.initialize d' v0) = inr tt /\
    VNAImpl.fire v1 = (inr out, v2) /\
    seen v2 = seen v1
              ++ sweep_traffic (filter (enabled d) VNAImpl.s_params) /\
    keys out = filter (enabled d) VNAImpl.s_params.
Proof.
  intros Hnew Hh Hc Hnd Hperm. split; [reflexivity |].
  destruct (initialize_from d v0 Hh Hc) as (v1 & Hinit & Hsp & Hh1).
  rewrite Hnew, app_nil_l in Hsp.
  assert (Hc' : configured d' = true).
  { unfold configured, contains in *.
    now repeat rewrite <- (get_permutation d d' Hperm Hnd). }
  destruct (initialize_from d' v0 Hh Hc') as (v1' & Hinit' & Hsp' & _).
  rewrite Hnew, app_nil_l in Hsp'.
  rewrite (enabled_permutation d d' Hperm Hnd) in Hsp'.
  assert (Hnd1 : NoDup (sp_to_measure v1)).
  { rewrite Hsp. apply enabled_NoDup. }
  destruct (fire_from v1 Hh1 Hnd1) as (out & v2 & Hrun & Hseen & Hkeys & _).
  exists v1, out, v2. rewrite Hinit'. cbn [fst snd].
  repeat split; congruence.
Qed.

(** A store that lists the parameters in the order [S22, S12, S21, S11],
    the reverse of [VNA.s_params], with all but [S21] enabled. *)
Definition backward_store : dict Z :=
  [("S22", 1); ("S12", 1); ("S21", 0); ("S11", 1);
   ("power", 0); ("ifbw", 1000); ("num_points", 3);
   ("freq_stop", 2000000000); ("freq_start", 1000000000)]%Z.

Lemma backward_store_keys_NoDup : NoDup (keys backward_store).
Proof.
  unfold keys, backward_store. simpl.
  repeat constructor; simpl; intuition discriminate.
Qed.

(** Three names enabled, in a store whose keys run against the order of
    [VNA.s_params], and in the same store read backwards: both give the
    acquisition list [S11, S12, S22], and the sweep and the result mapping
    follow that order. *)
Lemma acquisition_order_example :
  keys backward_store
  = ["S22"; "S12"; "S21"; "S11"; "power"; "ifbw"; "num_points";
     "freq_stop"; "freq_start"] /\
  exists v1 out v2,
    VNAImpl.initialize backward_store new_vna = (inr tt, v1) /\
    sp_to_measure v1 = ["S11"; "S12"; "S22"] /\
    sp_to_measure (snd (VNAImpl.initialize (rev backward_store) new_vna))
    = ["S11"; "S12"; "S22"] /\
    fst (VNAImpl.initialize (rev backward_store) new_vna) = inr tt /\
    VNAImpl.fire v1 = (inr out, v2) /\
    seen v2 = seen v1
              ++ [Sent "INIT:IMM"; Asked "*OPC?";
                  Sent "CALCULATE1:PARAMETER:SELECT 'parameter_S11'";
                  Asked "CALCULATE:DATA? SDATA";
                  Sent "CALCULATE1:PARAMETER:SELECT 'parameter_S12'";
                  Asked "CALCULATE:DATA? SDATA";
                  Sent "CALCULATE1:PARAMETER:SELECT 'parameter_S22'";
                  Asked "CALCULATE:DATA? SDATA"] /\
    keys out = ["S11"; "S12"; "S22"].
Proof.
  split; [reflexivity |].
  destruct (acquisition_order_is_s_params_order (H := PyValue_int)
              backward_store (rev backward_store) new_vna
              eq_refl eq_refl eq_refl
              backward_store_keys_NoDup (Permutation_rev backward_store))
    as (_ & v1 & out & v2 & Hinit & Hsp & Hsame & Hret & Hfire & Hseen
        & Hkeys).
  exists v1, out, v2.
  repeat match goal with |- _ /\ _ => split end.
  - exact Hinit.
  - exact Hsp.
  - rewrite Hsame. exact Hsp.
  - exact Hret.
  - exact Hfire.
  - exact Hseen.
  - exact Hkeys.
Defined.

(** C7, as stated, fails: a value that is truthy but not equal to [1] does
    not enable acquisition.  With [S11] mapped to [2], [initialize()]
    returns and acquires nothing, although the key is present and
    its value is truthy. *)
Lemma truthy_two_is_not_acquired :
  present_and_truthy store_with_two "S11" = true /\
  fst (VNAImpl.initialize store_with_two new_vna) = inr tt /\
  sp_to_measure (snd (VNAImpl.initialize store_with_two new_vna)) = [].
Proof. vm_compute. repeat split; reflexivity. Qed.

(** C7, amended. After [initialize()] on a newly constructed controller,
    the acquisition list contains exactly those names among [S11], [S21],
    [S12], [S22] that the store contains with a value equal to [1]
    (Python [==]); any other value, truthy or not, and an absent key,
    leave the name out.  On a fault-free session and a configured store
    [initialize()] does return. *)
Theorem initialize_acquires_values_equal_to_one {V} `{PyValue V}
        (d : dict V) (v0 : VNA) :
  sp_to_measure v0 = [] ->
  (healthy v0 = true -> configured d = true ->
   fst (VNAImpl.initialize d v0) = inr tt) /\
  (forall v1,
      VNAImpl.initialize d v0 = (inr tt, v1) ->
      forall s,
        In s (sp_to_measure v1) <->
        In s ["S11"; "S21"; "S12"; "S22"] /\
        exists val, get s d = Some val /\ py_eq_one val = true).
Proof.
  intros Hnew. split.
  - intros Hh Hc. destruct (initialize_from d v0 Hh Hc) as (v1 & Hrun & _).
    now rewrite Hrun.
  - intros v1 Hrun s.
    rewrite (initialize_returned d v0 v1 Hrun), Hnew, app_nil_l.
    rewrite filter_In. unfold enabled.
    change VNAImpl.s_params with ["S11"; "S21"; "S12"; "S22"].
    split; intros [Hin Hon]; (split; [exact Hin |]).
    + destruct (get s d) as [val |]; [eauto | discriminate].
    + destruct Hon as (val & Hget & Hone). now rewrite Hget.
Qed.

(** The example store: only [S11] is acquired. *)
Lemma initialize_acquires_example :
  sp_to_measure new_vna = [] /\
  fst (VNAImpl.initialize example_store new_vna) = inr tt /\
  (In "S11" (sp_to_measure (snd (VNAImpl.initialize example_store new_vna)))
   <-> In "S11" ["S11"; "S21"; "S12"; "S22"] /\
       exists val, get "S11" example_store = Some val
                   /\ py_eq_one val = true).
Proof.
  split; [reflexivity |].
  destruct (initialize_acquires_values_equal_to_one example_store new_vna
              eq_refl) as [Hret Hchar].
  split.
  - apply Hret; reflexivity.
  - apply Hchar. vm_compute. reflexivity.
Defined.

(** C8 fails on the code: [initialize()] appends to the acquisition list
    without emptying it, so a second call with the same store duplicates
    the entries of the first. *)
Theorem initialize_twice_duplicates_entries :
  let once := snd (VNAImpl.initialize example_store new_vna) in
  let twice := snd (VNAImpl.initialize example_store once) in
  fst (VNAImpl.initialize example_store new_vna) = inr tt /\
  fst (VNAImpl.initialize example_store once) = inr tt /\
  sp_to_measure once = ["S11"] /\
  sp_to_measure twice = ["S11"; "S11"] /\
  sp_to_measure twice <> sp_to_measure once.
Proof. vm_compute. repeat split; try reflexivity. discriminate. Qed.

(** In general a second [initialize()] appends the enabled names again. *)
Lemma initialize_twice_appends_twice {V} `{PyValue V} (d : dict V) v0 v1 v2 :
  VNAImpl.initialize d v0 = (inr tt, v1) ->
  VNAImpl.initialize d v1 = (inr tt, v2) ->
  sp_to_measure v2
  = sp_to_measure v0 ++ filter (enabled d) VNAImpl.s_params
                     ++ filter (enabled d) VNAImpl.s_params.
Proof.
  intros H1 H2.
  rewrite (initialize_returned d v1 v2 H2), (initialize_returned d v0 v1 H1).
  now rewrite <- app_assoc.
Qed.

(** * Claims about the switch matrix *)

(** The two-digit port strings, port by port. *)
Lemma pad_port_number_table (p : Z) :
  (1 <= p <= 24)%Z ->
  String.length (SwitchesImpl.pad_port_number p) = 2%nat /\
  py_int_of_str (SwitchesImpl.pad_port_number p) = Some p /\
  SwitchesImpl.pad_port_number p
  = (if (p <=? 9)%Z then "0" +++ py_str_int p else py_str_int p).
Proof.
  intros Hp.
  assert (Hcases : In p (map Z.of_nat (seq 1 24))).
  { apply in_map_iff. exists (Z.to_nat p). split; [lia |].
    apply in_seq. lia. }
  simpl in Hcases.
  repeat (destruct Hcases as [<- | Hcases];
          [vm_compute; repeat split; reflexivity |]).
  contradiction.
Qed.

Lemma switch_write_delivers cmd sw r :
  sw_resource sw = Some r -> fault_free r = true ->
  SwitchesImpl.write cmd sw
  = (inr tt, mkSwitches (Some (deliver (Sent cmd) r)) (slept sw)).
Proof.
  intros Hr Hff. unfold SwitchesImpl.write, on_resource, Session.write.
  simpl get_resource. rewrite Hr, (transport_delivers _ _ _ Hff). reflexivity.
Qed.

(** C3. For every port below 1 or above 24, [set_tran] and [set_refl]
    raise [SwitchInvalidPortException] carrying the attempted port, and
    the controller and its session are left as they were: no command is
    written. *)
Theorem invalid_port_raises_and_writes_nothing (p : Z) (sw : Switches) :
  (p < 1 \/ p > 24)%Z ->
  SwitchesImpl.set_tran p sw = (inl (SwitchInvalidPortException p), sw) /\
  SwitchesImpl.set_refl p sw = (inl (SwitchInvalidPortException p), sw) /\
  seen (snd (SwitchesImpl.set_tran p sw)) = seen sw /\
  seen (snd (SwitchesImpl.set_refl p sw)) = seen sw.
Proof.
  intros Hp. unfold SwitchesImpl.set_tran, SwitchesImpl.set_refl.
  unfold SwitchesImpl.PORT_MIN, SwitchesImpl.PORT_MAX.
  assert (Hout : ((p <? 1) || (p >? 24))%Z = true).
  { apply orb_true_iff. rewrite Z.ltb_lt, Z.gtb_gt. lia. }
  rewrite Hout. repeat split; reflexivity.
Qed.

(** Port 25 on the example switch. *)
Lemma invalid_port_25_example :
  (25 < 1 \/ 25 > 24)%Z /\
  SwitchesImpl.set_tran 25 new_switches
  = (inl (SwitchInvalidPortException 25), new_switches) /\
  SwitchesImpl.set_refl 25 new_switches
  = (inl (SwitchInvalidPortException 25), new_switches) /\
  seen (snd (SwitchesImpl.set_tran 25 new_switches)) = seen new_switches /\
  seen (snd (SwitchesImpl.set_refl 25 new_switches)) = seen new_switches.
Proof.
  assert (Hp : (25 < 1 \/ 25 > 24)%Z) by (right; lia).
  split; [exact Hp |].
  exact (invalid_port_raises_and_writes_nothing 25 new_switches Hp).
Defined.

(** C4, as stated, fails: the line written by [set_tran] ends in a
    semicolon, so for port 3 it is [tran_03;] and not [tran_03]. *)
Lemma set_tran_line_ends_in_semicolon :
  seen (snd (SwitchesImpl.set_tran 3 new_switches)) = [Sent "tran_03;"] /\
  seen (snd (SwitchesImpl.set_tran 3 new_switches)) <> [Sent "tran_03"].
Proof. vm_compute. split; [reflexivity | discriminate]. Qed.

(** C4, amended. For every port from 1 to 24, [set_tran] writes exactly
    the line [tran_NN;] (the port string followed by the terminating
    semicolon) and [set_refl] exactly [refl_NN], where [NN] is the decimal
    representation of the port on two digits: of length 2, of numeric
    value the port, with a leading zero up to 9.  Each call then sleeps
    for the debounce time. *)
Theorem port_commands_are_two_digit (p : Z) (sw : Switches) (r : Resource) :
  (1 <= p <= 24)%Z ->
  sw_resource sw = Some r ->
  fault_free r = true ->
  let NN := SwitchesImpl.pad_port_number p in
  SwitchesImpl.set_tran p sw
  = (inr tt, mkSwitches (Some (deliver (Sent ("tran_" +++ NN +++ ";")) r))
                        (slept sw ++ [SwitchesImpl.debounce_time])) /\
  SwitchesImpl.set_refl p sw
  = (inr tt, mkSwitches (Some (deliver (Sent ("refl_" +++ NN)) r))
                        (slept sw ++ [SwitchesImpl.debounce_time])) /\
  seen (snd (SwitchesImpl.set_tran p sw))
  = seen sw ++ [Sent ("tran_" +++ NN +++ ";")] /\
  seen (snd (SwitchesImpl.set_refl p sw)) = seen sw ++ [Sent ("refl_" +++ NN)] /\
  String.length NN = 2%nat /\
  py_int_of_str NN = Some p /\
  NN = (if (p <=? 9)%Z then "0" +++ py_str_int p else py_str_int p).
Proof.
  intros Hp Hr Hff NN.
  assert (Hin : ((p <? SwitchesImpl.PORT_MIN)
                 || (p >? SwitchesImpl.PORT_MAX))%Z = false).
  { unfold SwitchesImpl.PORT_MIN, SwitchesImpl.PORT_MAX.
    apply orb_false_iff. rewrite Z.ltb_ge, Z.gtb_ltb, Z.ltb_ge. lia. }
  assert (Htran : SwitchesImpl.set_tran p sw
    = (inr tt, mkSwitches (Some (deliver (Sent ("tran_" +++ NN +++ ";")) r))
                          (slept sw ++ [SwitchesImpl.debounce_time]))).
  { unfold SwitchesImpl.set_tran. rewrite Hin. unfold Py.bind.
    rewrite (switch_write_delivers _ sw r Hr Hff). reflexivity. }
  assert (Hrefl : SwitchesImpl.set_refl p sw
    = (inr tt, mkSwitches (Some (deliver (Sent ("refl_" +++ NN)) r))
                          (slept sw ++ [SwitchesImpl.debounce_time]))).
  { unfold SwitchesImpl.set_refl. rewrite Hin. unfold Py.bind.
    rewrite (switch_write_delivers _ sw r Hr Hff). reflexivity. }
  rewrite Htran, Hrefl. unfold seen. simpl. rewrite Hr.
  destruct (pad_port_number_table p Hp) as (Hlen & Hval & Hpad).
  repeat split; assumption.
Qed.

(** Ports 3, 10 and 24 give [03], [10] and [24]. *)
Lemma port_commands_example :
  SwitchesImpl.pad_port_number 3 = "03" /\
  SwitchesImpl.pad_port_number 10 = "10" /\
  SwitchesImpl.pad_port_number 24 = "24" /\
  seen (snd (SwitchesImpl.set_tran 3 new_switches)) = [Sent "tran_03;"] /\
  seen (snd (SwitchesImpl.set_refl 3 new_switches)) = [Sent "refl_03"].
Proof.
  assert (H3 : (1 <= 3 <= 24)%Z) by lia.
  destruct (port_commands_are_two_digit 3 new_switches bench H3
              eq_refl eq_refl) as (_ & _ & Htran & Hrefl & _).
  split; [reflexivity |]. split; [reflexivity |]. split; [reflexivity |].
  split; [exact Htran | exact Hrefl].
Defined.

(** * Claims about closing and teardown *)

Lemma vna_call_raises {A} ev (answer : Resource -> A) v r e :
  resource v = Some r -> session_open r = true -> next_fault r = Some e ->
  on_resource (Session.transport ev answer) v
  = (inl e, put_resource (step_plan r) v).
Proof.
  intros Hr Ho Hn. unfold on_resource. simpl get_resource.
  rewrite Hr, (transport_raises _ _ _ _ Ho Hn). reflexivity.
Qed.

Lemma vna_call_closed {A} ev (answer : Resource -> A) v r :
  resource v = Some r -> session_open r = false ->
  on_resource (Session.transport ev answer) v = (inl InvalidSession, v).
Proof.
  intros Hr Ho. unfold on_resource. simpl get_resource.
  rewrite Hr, (transport_closed _ _ _ Ho). simpl.
  destruct v; simpl in *. now subst.
Qed.

(** A [close()] of the analyzer that returns leaves a closed session. *)
Lemma vna_close_returned v v' :
  VNAImpl.close v = (inr tt, v') ->
  exists r', resource v' = Some r' /\ session_open r' = false.
Proof.
  unfold VNAImpl.close. intros Hrun.
  apply bind_returned in Hrun. destruct Hrun as ([] & v1 & _ & Hclose).
  unfold on_resource in Hclose. simpl get_resource in Hclose.
  destruct (resource v1) as [r1 |]; [| discriminate].
  destruct (Session.close r1) as [[e | []] r'] eqn:Hc; inversion Hclose.
  exists r'. split; [reflexivity |]. now apply (close_returned r1).
Qed.

Lemma switches_close_returned sw sw' :
  SwitchesImpl.close sw = (inr tt, sw') ->
  exists r', sw_resource sw' = Some r' /\ session_open r' = false.
Proof.
  unfold SwitchesImpl.close, on_resource. simpl get_resource. intros Hclose.
  destruct (sw_resource sw) as [r |]; [| discriminate].
  destruct (Session.close r) as [[e | []] r'] eqn:Hc; inversion Hclose.
  exists r'. split; [reflexivity |]. now apply (close_returned r).
Qed.

Lemma surjective_run {S A} (c : Py.M S A) s : c s = (fst (c s), snd (c s)).
Proof. now destruct (c s). Qed.

(** C5 does not hold of the analyzer.  Its [close()] writes the reset
    command before closing, with no handler around the two statements; on
    the second call that write meets the closed session and raises
    [InvalidSession].  The same two statements in [VNA.__del__] are
    guarded, and [Switches.close] has no write to fail. *)
Lemma vna_second_close_raises :
  fst (VNAImpl.close new_vna) = inr tt /\
  fst (VNAImpl.close (snd (VNAImpl.close new_vna))) = inl InvalidSession.
Proof. vm_compute. split; reflexivity. Qed.

(** C5: what a second [close()] does.  After a [close()] that returned, a
    second [close()] of the switch controller returns without raising, as
    the claim says; a second [close()] of the analyzer raises
    [InvalidSession], against the claim, because the reset command is
    written to the closed session outside any handler.  The destructor of
    either controller, run on the same closed session, returns silently:
    the tolerance the claim asks for is in [__del__] and is missing from
    [VNA.close]. *)
Theorem second_close_after_close (sw : Switches) (v : VNA) :
  (fst (SwitchesImpl.close sw) = inr tt ->
   fst (SwitchesImpl.close (snd (SwitchesImpl.close sw))) = inr tt /\
   fst (SwitchesImpl.__del__ (snd (SwitchesImpl.close sw))) = inr tt) /\
  (fst (VNAImpl.close v) = inr tt ->
   fst (VNAImpl.close (snd (VNAImpl.close v))) = inl InvalidSession /\
   fst (VNAImpl.__del__ (snd (VNAImpl.close v))) = inr tt).
Proof.
  split; intros Hfirst.
  - pose proof (surjective_run SwitchesImpl.close sw) as Hrun.
    rewrite Hfirst in Hrun.
    destruct (switches_close_returned _ _ Hrun) as (r' & Hr' & Ho).
    set (sw' := snd (SwitchesImpl.close sw)) in *.
    unfold SwitchesImpl.__del__, Py.try_except_pass, SwitchesImpl.close.
    unfold on_resource. simpl get_resource.
    rewrite Hr', (close_closed _ Ho). split; reflexivity.
  - pose proof (surjective_run VNAImpl.close v) as Hrun.
    rewrite Hfirst in Hrun.
    destruct (vna_close_returned _ _ Hrun) as (r' & Hr' & Ho).
    set (v' := snd (VNAImpl.close v)) in *.
    assert (Hw : VNAImpl.write "*RST" v' = (inl InvalidSession, v')).
    { apply (vna_call_closed _ _ _ r' Hr' Ho). }
    unfold VNAImpl.__del__, Py.try_except_pass, VNAImpl.close.
    rewrite Hr', (bind_raised _ _ _ _ _ Hw). split; reflexivity.
Qed.

(** The example controllers closed twice. *)
Lemma second_close_example :
  fst (SwitchesImpl.close (snd (SwitchesImpl.close new_switches))) = inr tt /\
  fst (VNAImpl.close (snd (VNAImpl.close new_vna))) = inl InvalidSession /\
  fst (VNAImpl.__del__ (snd (VNAImpl.close new_vna))) = inr tt.
Proof.
  destruct (second_close_after_close new_switches new_vna) as [Hsw Hvna].
  destruct (Hsw eq_refl) as [Hsw2 _].
  destruct (Hvna eq_refl) as [Hv2 Hdel].
  split; [exact Hsw2 |]. split; [exact Hv2 | exact Hdel].
Defined.

(** The failures named by the two [except] clauses of the destructors. *)
Lemma transport_fault_cases e :
  is_transport_fault e = true <->
  (exists code, e = VisaIOError code) \/ e = InvalidSession.
Proof.
  split.
  - destruct e; simpl; intros Hc; try discriminate; eauto.
  - intros [[code ->] | ->]; reflexivity.
Qed.

Lemma other_failure_cases e :
  (forall code, e <> VisaIOError code) -> e <> InvalidSession ->
  is_transport_fault e = false.
Proof.
  intros Hvisa Hinv. destruct e; simpl; try reflexivity.
  - now destruct (Hvisa error_code).
  - now destruct Hinv.
Qed.

(** C9, as stated, fails on the destruction path proper.  A failure other
    than the two transport failures does leave the method [__del__], but
    when the interpreter finalises the controller it reports that failure
    as unraisable and discards it: nothing propagates to the code that
    dropped the object. *)
Lemma finalization_discards_other_failures :
  fst (VNAImpl.__del__ (mkVNA (Some (failing (OtherError "bus"))) "" [] []))
  = inl (OtherError "bus") /\
  fst (Py.finalize VNAImpl.__del__
         (mkVNA (Some (failing (OtherError "bus"))) "" [] [])) = inr tt /\
  Py.unraisable VNAImpl.__del__
    (mkVNA (Some (failing (OtherError "bus"))) "" [] [])
  = Some (OtherError "bus") /\
  fst (Py.finalize SwitchesImpl.__del__
         (mkSwitches (Some (failing (OtherError "bus"))) [])) = inr tt /\
  Py.unraisable SwitchesImpl.__del__
    (mkSwitches (Some (failing (OtherError "bus"))) [])
  = Some (OtherError "bus").
Proof. vm_compute. repeat split; reflexivity. Qed.

(** C9, amended. The method [__del__] of either controller catches and
    discards exactly [VisaIOError] and [InvalidSession], whether the reset
    or the closing call raises them and also when the session is already
    closed; every other failure leaves [__del__].  It reaches a caller who
    invokes [__del__] directly; when the interpreter finalises the object
    it is reported as unraisable and goes no further.  During operation
    ([write], [query], [fire]) the two transport failures are raised to
    the caller like any other. *)
Theorem teardown_swallows_exactly_transport_faults
        (v : VNA) (sw : Switches) (r : Resource) (e : Exn) (cmd : string) :
  resource v = Some r ->
  sw_resource sw = Some r ->
  session_open r = true ->
  next_fault r = Some e ->
  (* teardown: the two transport failures are caught and discarded *)
  ((exists code, e = VisaIOError code) \/ e = InvalidSession ->
   fst (VNAImpl.__del__ v) = inr tt /\
   fst (SwitchesImpl.__del__ sw) = inr tt /\
   Py.unraisable VNAImpl.__del__ v = None /\
   Py.unraisable SwitchesImpl.__del__ sw = None) /\
  (* teardown: any other failure leaves [__del__]; finalisation reports
     it as unraisable and returns *)
  ((forall code, e <> VisaIOError code) -> e <> InvalidSession ->
   fst (VNAImpl.__del__ v) = inl e /\
   fst (SwitchesImpl.__del__ sw) = inl e /\
   fst (Py.finalize VNAImpl.__del__ v) = inr tt /\
   Py.unraisable VNAImpl.__del__ v = Some e /\
   fst (Py.finalize SwitchesImpl.__del__ sw) = inr tt /\
   Py.unraisable SwitchesImpl.__del__ sw = Some e) /\
  (* teardown never lets one of the two out, wherever it is raised *)
  (forall (v' : VNA) (sw' : Switches) (e' : Exn),
      (fst (VNAImpl.__del__ v') = inl e' \/
       fst (SwitchesImpl.__del__ sw') = inl e') ->
      (forall code, e' <> VisaIOError code) /\ e' <> InvalidSession) /\
  (* teardown: a failure of the closing call, after the reset went through *)
  (forall (v' : VNA) (r' : Resource) rest,
      resource v' = Some r' -> session_open r' = true ->
      faults r' = None :: Some e :: rest ->
      ((exists code, e = VisaIOError code) \/ e = InvalidSession ->
       fst (VNAImpl.__del__ v') = inr tt) /\
      ((forall code, e <> VisaIOError code) -> e <> InvalidSession ->
       fst (VNAImpl.__del__ v') = inl e)) /\
  (* teardown on a session already closed: the reset raises
     [InvalidSession], which is caught *)
  (forall (v' : VNA) (sw' : Switches) (r' : Resource),
      resource v' = Some r' -> sw_resource sw' = Some r' ->
      session_open r' = false ->
      VNAImpl.__del__ v' = (inr tt, v') /\
      SwitchesImpl.__del__ sw' = (inr tt, sw')) /\
  (* operation: the same failure is raised to the caller *)
  fst (VNAImpl.write cmd v) = inl e /\
  fst (VNAImpl.query cmd v) = inl e /\
  fst (VNAImpl.fire v) = inl e /\
  fst (SwitchesImpl.write cmd sw) = inl e /\
  (* operation on a closed session raises [InvalidSession] *)
  (forall (v' : VNA) (r' : Resource),
      resource v' = Some r' -> session_open r' = false ->
      fst (VNAImpl.write cmd v') = inl InvalidSession /\
      fst (VNAImpl.query cmd v') = inl InvalidSession).
Proof.
  intros Hr Hsw Ho Hn.
  assert (Hw : forall c, VNAImpl.write c v
                         = (inl e, put_resource (step_plan r) v)).
  { intros c. apply (vna_call_raises _ _ _ _ _ Hr Ho Hn). }
  assert (Hq : VNAImpl.query cmd v = (inl e, put_resource (step_plan r) v)).
  { apply (vna_call_raises _ _ _ _ _ Hr Ho Hn). }
  assert (Hdv : fst (VNAImpl.__del__ v)
                = if is_transport_fault e then inr tt else inl e).
  { unfold VNAImpl.__del__, Py.try_except_pass.
    rewrite Hr, (bind_raised _ _ _ _ _ (Hw "*RST")).
    now destruct (is_transport_fault e). }
  assert (Hds : fst (SwitchesImpl.__del__ sw)
                = if is_transport_fault e then inr tt else inl e).
  { unfold SwitchesImpl.__del__, Py.try_except_pass, on_resource.
    simpl get_resource. unfold Session.close.
    rewrite Hsw, Ho, Hn. now destruct (is_transport_fault e). }
  assert (Hout : forall e0 : Exn,
             is_transport_fault e0 = false ->
             (forall code, e0 <> VisaIOError code) /\ e0 <> InvalidSession).
  { intros e0 He0. split; [intros code Heq | intros Heq];
      rewrite Heq in He0; discriminate. }
  split; [| split; [| split; [| split; [| split]]]].
  - intros Hcase. apply transport_fault_cases in Hcase.
    unfold Py.unraisable. rewrite Hdv, Hds, Hcase. repeat split.
  - intros Hvisa Hinv. pose proof (other_failure_cases e Hvisa Hinv) as Hcase.
    unfold Py.unraisable. rewrite Hdv, Hds, Hcase. repeat split.
  - intros v' sw' e' [Hdel | Hdel]; apply Hout.
    + unfold VNAImpl.__del__, Py.try_except_pass in Hdel.
      destruct (resource v'); [| discriminate].
      destruct ((VNAImpl.write "*RST";; on_resource Session.close) v')
        as [[e0 | []] v1]; [| discriminate].
      destruct (is_transport_fault e0) eqn:He0; [discriminate |].
      simpl in Hdel. congruence.
    + unfold SwitchesImpl.__del__, Py.try_except_pass in Hdel.
      destruct (sw_resource sw'); [| discriminate].
      destruct (on_resource Session.close sw') as [[e0 | []] s1];
        [| discriminate].
      destruct (is_transport_fault e0) eqn:He0; [discriminate |].
      simpl in Hdel. congruence.
  - intros v' r' rest Hr' Ho' Hplan.
    assert (Hdv' : fst (VNAImpl.__del__ v')
                   = if is_transport_fault e then inr tt else inl e).
    { unfold VNAImpl.__del__, Py.try_except_pass, Py.bind.
      unfold VNAImpl.write, on_resource, Session.write, Session.transport.
      unfold Session.close. simpl get_resource.
      rewrite Hr', Ho'. unfold next_fault. rewrite Hplan. simpl.
      rewrite Ho'. unfold next_fault. simpl. rewrite Hplan. simpl.
      now destruct (is_transport_fault e). }
    split.
    + intros Hcase. apply transport_fault_cases in Hcase.
      now rewrite Hdv', Hcase.
    + intros Hvisa Hinv. now rewrite Hdv', (other_failure_cases e Hvisa Hinv).
  - intros v' sw' r' Hr' Hsw' Ho'. split.
    + unfold VNAImpl.__del__, Py.try_except_pass.
      rewrite Hr'.
      assert (Hw' : VNAImpl.write "*RST" v' = (inl InvalidSession, v')).
      { apply (vna_call_closed _ _ _ r' Hr' Ho'). }
      rewrite (bind_raised _ _ _ _ _ Hw'). reflexivity.
    + unfold SwitchesImpl.__del__, Py.try_except_pass, on_resource.
      simpl get_resource. rewrite Hsw', (close_closed _ Ho').
      destruct sw' as [res sl]. simpl in *. now subst.
  - split; [| split; [| split; [| split]]].
    + now rewrite Hw.
    + now rewrite Hq.
    + unfold VNAImpl.fire. now rewrite (bind_raised _ _ _ _ _ (Hw "INIT:IMM")).
    + unfold SwitchesImpl.write, on_resource, Session.write.
      simpl get_resource. rewrite Hsw, (transport_raises _ _ _ _ Ho Hn).
      reflexivity.
    + intros v' r' Hr' Ho'. unfold VNAImpl.write, VNAImpl.query.
      unfold Session.write, Session.query.
      now rewrite !(vna_call_closed _ _ _ _ Hr' Ho').
Qed.

(** Teardown and operation under three failures: a timeout of the
    instrument ([VisaIOError]), a session invalidated by the library
    ([InvalidSession]), and a failure of another kind. *)
Lemma teardown_examples :
  (fst (VNAImpl.__del__
          (mkVNA (Some (failing (VisaIOError (-1073807339)))) "" [] []))
   = inr tt /\
   fst (SwitchesImpl.__del__
          (mkSwitches (Some (failing (VisaIOError (-1073807339)))) []))
   = inr tt /\
   fst (VNAImpl.fire
          (mkVNA (Some (failing (VisaIOError (-1073807339)))) "" [] []))
   = inl (VisaIOError (-1073807339))) /\
  (fst (VNAImpl.__del__ (mkVNA (Some (failing InvalidSession)) "" [] []))
   = inr tt /\
   fst (SwitchesImpl.__del__ (mkSwitches (Some (failing InvalidSession)) []))
   = inr tt /\
   fst (VNAImpl.query "*IDN?"
          (mkVNA (Some (failing InvalidSession)) "" [] []))
   = inl InvalidSession) /\
  (fst (VNAImpl.__del__ (mkVNA (Some (failing (OtherError "bus"))) "" [] []))
   = inl (OtherError "bus") /\
   fst (SwitchesImpl.__del__
          (mkSwitches (Some (failing (OtherError "bus"))) []))
   = inl (OtherError "bus") /\
   Py.unraisable VNAImpl.__del__
     (mkVNA (Some (failing (OtherError "bus"))) "" [] [])
   = Some (OtherError "bus")).
Proof.
  split; [| split].
  - destruct (teardown_swallows_exactly_transport_faults
                (mkVNA (Some (failing (VisaIOError (-1073807339)))) "" [] [])
                (mkSwitches (Some (failing (VisaIOError (-1073807339)))) [])
                (failing (VisaIOError (-1073807339)))
                (VisaIOError (-1073807339)) "*IDN?"
                eq_refl eq_refl eq_refl eq_refl)
      as (Hcaught & _ & _ & _ & _ & _ & _ & Hfire & _).
    destruct (Hcaught (or_introl (ex_intro _ (-1073807339) eq_refl)))
      as (Hv & Hs & _).
    split; [exact Hv |]. split; [exact Hs | exact Hfire].
  - destruct (teardown_swallows_exactly_transport_faults
                (mkVNA (Some (failing InvalidSession)) "" [] [])
                (mkSwitches (Some (failing InvalidSession)) [])
                (failing InvalidSession) InvalidSession "*IDN?"
                eq_refl eq_refl eq_refl eq_refl)
      as (Hcaught & _ & _ & _ & _ & _ & Hquery & _).
    destruct (Hcaught (or_intror eq_refl)) as (Hv & Hs & _).
    split; [exact Hv |]. split; [exact Hs | exact Hquery].
  - destruct (teardown_swallows_exactly_transport_faults
                (mkVNA (Some (failing (OtherError "bus"))) "" [] [])
                (mkSwitches (Some (failing (OtherError "bus"))) [])
                (failing (OtherError "bus")) (OtherError "bus") "*IDN?"
                eq_refl eq_refl eq_refl eq_refl)
      as (_ & Hother & _).
    destruct Hother as (Hv & Hs & _ & Hreport & _).
    + intros code Heq. discriminate Heq.
    + intros Heq. discriminate Heq.
    + split; [exact Hv |]. split; [exact Hs | exact Hreport].
Defined.

(** * Claims about the frequency list *)

Lemma fold_append_map {A B} (f : A -> B) xs :
  forall acc, fold_left (fun li i => li ++ [f i]) xs acc = acc ++ map f xs.
Proof.
  induction xs as [| x xs IH]; intros acc; simpl.
  - now rewrite app_nil_r.
  - rewrite IH, <- app_assoc. reflexivity.
Qed.

Lemma chain_map_seq {A} (rel : A -> A -> Prop) (g : nat -> A) len :
  (forall k, rel (g k) (g (S k))) ->
  forall s, chain rel (map g (seq s len)).
Proof.
  intros Hstep. induction len as [| len IH]; intros s; [exact I |].
  destruct len as [| len]; [exact I |].
  split; [apply Hstep | apply (IH (S s))].
Qed.

Lemma last_map_seq {A} (g : nat -> A) m dflt :
  last (map g (seq 0 (S m))) dflt = g m.
Proof. rewrite seq_S, map_app. simpl. apply last_last. Qed.

(** In any arithmetic, a [freq_list] that returns has [int(num_points)]
    entries. *)
Lemma freq_list_length {V} `{PyArith V} (d : dict V) li :
  VNAImpl.freq_list d = inr li ->
  exists n count,
    get "num_points" d = Some n /\ py_to_int n = inr count /\
    List.length li = Z.to_nat count.
Proof.
  unfold VNAImpl.freq_list, lookup.
  destruct (get "freq_stop" d) as [stop |]; [| discriminate].
  destruct (get "freq_start" d) as [start |]; [| discriminate].
  destruct (get "num_points" d) as [n |]; [| discriminate].
  destruct (py_truediv _ _) as [e | inc]; [discriminate |].
  destruct (py_to_int n) as [e | count] eqn:Hcount; [discriminate |].
  intros Hrun. inversion Hrun. exists n, count.
  repeat split; [exact Hcount |].
  rewrite fold_append_map. simpl app.
  unfold VNAImpl.range. now rewrite !length_map, length_seq.
Qed.

Section ExactFrequencies.

Local Open Scope Q_scope.

Variables (a b : Q) (n : Z).


Variable d : dict Q.
Hypothesis Hstart : get "freq_start" d = Some a.
Hypothesis Hstop : get "freq_stop" d = Some b.
Hypothesis Hpoints : get "num_points" d = Some (inject_Z n).

Lemma divisor_eq : inject_Z n - inject_Z 1 == inject_Z (n - 1).
Proof. unfold Zminus. rewrite inject_Z_plus, inject_Z_opp. ring. Qed.

Lemma freq_list_exact_run :
  (n <> 1)%Z ->
  VNAImpl.freq_list d = inr (map (linear_point a b n) (seq 0 (Z.to_nat n))).
Proof.
  intros Hn. unfold VNAImpl.freq_list, lookup.
  rewrite Hstop, Hstart, Hpoints. simpl py_truediv.
  assert (Hdiv : Qeq_bool (inject_Z n - inject_Z 1) (inject_Z 0) = false).
  { destruct (Qeq_bool (inject_Z n - inject_Z 1) (inject_Z 0)) eqn:E;
      [| reflexivity].
    apply Qeq_bool_eq in E. rewrite divisor_eq in E.
    apply (proj1 (inject_Z_injective _ _)) in E. lia. }
  simpl py_sub. simpl py_of_int. rewrite Hdiv.
  simpl py_to_int. simpl Qnum. simpl Qden. rewrite Z.quot_1_r.
  rewrite fold_append_map. simpl app. unfold VNAImpl.range.
  rewrite map_map. reflexivity.
Qed.

Lemma freq_list_exact_zero_division :
  n = 1%Z -> VNAImpl.freq_list d = inl ZeroDivisionError.
Proof.
  intros ->. unfold VNAImpl.freq_list, lookup.
  rewrite Hstop, Hstart, Hpoints. reflexivity.
Qed.

Lemma freq_succ k :
  linear_point a b n (S k) == linear_point a b n k + linear_step a b n.
Proof.
  unfold linear_point. rewrite Nat2Z.inj_succ. unfold Z.succ.
  rewrite inject_Z_plus. ring.
Qed.

Lemma inc_positive : (2 <= n)%Z -> a < b -> 0 < linear_step a b n.
Proof.
  intros Hn Hab. unfold linear_step. apply Qlt_shift_div_l.
  - rewrite divisor_eq. change 0 with (inject_Z 0).
    rewrite <- Zlt_Qlt. lia.
  - lra.
Qed.

Lemma freq_first : linear_point a b n 0 == a.
Proof. unfold linear_point. simpl. ring. Qed.

Lemma freq_last : (2 <= n)%Z -> linear_point a b n (Z.to_nat n - 1) == b.
Proof.
  intros Hn. unfold linear_point, linear_step.
  replace (Z.of_nat (Z.to_nat n - 1)) with (n - 1)%Z by lia.
  rewrite <- divisor_eq. field. rewrite divisor_eq.
  intros Heq. change 0 with (inject_Z 0) in Heq.
  apply (proj1 (inject_Z_injective _ _)) in Heq. lia.
Qed.

Lemma freq_constant k : (2 <= n)%Z -> a == b -> linear_point a b n k == a.
Proof.
  intros Hn Hab. unfold linear_point, linear_step. rewrite Hab. field.
  rewrite divisor_eq. intros Heq. change 0 with (inject_Z 0) in Heq.
  apply (proj1 (inject_Z_injective _ _)) in Heq. lia.
Qed.

End ExactFrequencies.

(** The specification's example in binary64:
    [frequencyList() == [1e9, 1.5e9, 2e9]]. *)
Example freq_list_example_binary64 :
  VNAImpl.freq_list example_store_float = inr [1e9; 1.5e9; 2e9]%float.
Proof. vm_compute. reflexivity. Qed.

(** C2, as stated, fails under binary64 rounding: between the neighbouring
    values [1e16] and [1e16 + 2], with three points, the increment is [1]
    and [1e16 + 1] rounds back to [1e16], so the list repeats its first
    value although [freq_stop > freq_start]. *)
Lemma neighbouring_bounds_repeat_a_value :
  VNAImpl.freq_list narrow_store
  = inr [1e16; 1e16; 10000000000000002]%float /\
  PrimFloat.ltb 1e16 10000000000000002 = true /\
  ~ chain (fun x y => PrimFloat.ltb x y = true)
          [1e16; 1e16; 10000000000000002]%float.
Proof.
  split; [vm_compute; reflexivity |]. split; [vm_compute; reflexivity |].
  intros [Hlt _]. vm_compute in Hlt. discriminate.
Qed.

(** Without rounding the increase is strict.  In exact arithmetic (the
    stored numbers taken as rationals), for every store holding
    [freq_start], [freq_stop] and an integer [num_points >= 2], [freq_list]
    returns exactly [num_points] values, strictly increasing when
    [freq_stop > freq_start], all equal to [freq_start] when the bounds are
    equal, the first equal to [freq_start] and the last to [freq_stop]. *)
Theorem freq_list_is_linear_in_exact_arithmetic
        (d : dict Q) (a b : Q) (n : Z) :
  get "freq_start" d = Some a ->
  get "freq_stop" d = Some b ->
  get "num_points" d = Some (inject_Z n) ->
  (2 <= n)%Z ->
  exists li,
    VNAImpl.freq_list d = inr li /\
    List.length li = Z.to_nat n /\
    (a < b -> chain Qlt li)%Q /\
    (a == b -> Forall (fun x => x == a) li)%Q /\
    (nth 0 li 0 == a)%Q /\
    (last li 0 == b)%Q.
Proof.
  intros Hstart Hstop Hpoints Hn.
  exists (map (linear_point a b n) (seq 0 (Z.to_nat n))).
  split; [apply freq_list_exact_run; (assumption || lia) |].
  split; [now rewrite length_map, length_seq |].
  split; [| split; [| split]].
  - intros Hab. apply chain_map_seq. intros k. rewrite freq_succ.
    pose proof (inc_positive a b n Hn Hab). lra.
  - intros Hab. apply Forall_forall. intros x Hx.
    apply in_map_iff in Hx. destruct Hx as (k & <- & _).
    now apply freq_constant.
  - destruct (Z.to_nat n) as [| m] eqn:Hm; [lia |]. simpl nth.
    apply freq_first.
  - destruct (Z.to_nat n) as [| m] eqn:Hm; [lia |].
    rewrite last_map_seq. replace m with (Z.to_nat n - 1)%nat by lia.
    now apply freq_last.
Qed.

(** The example's settings: three values from [1e9] to [2e9]. *)
Lemma freq_list_example_exact :
  exists li,
    VNAImpl.freq_list example_store_exact = inr li /\
    List.length li = 3%nat /\
    (inject_Z 1000000000 < inject_Z 2000000000 -> chain Qlt li)%Q /\
    (nth 0 li 0 == inject_Z 1000000000)%Q /\
    (last li 0 == inject_Z 2000000000)%Q.
Proof.
  assert (H3 : (2 <= 3)%Z) by lia.
  destruct (freq_list_is_linear_in_exact_arithmetic example_store_exact
              (inject_Z 1000000000) (inject_Z 2000000000) 3
              eq_refl eq_refl eq_refl H3)
    as (li & Hrun & Hlen & Hinc & _ & Hfirst & Hlast).
  exists li. repeat split; assumption.
Defined.

(** * Binary64 rounding

    Properties of the reference model: rounding keeps the order, errs by
    at most half a unit in the last place, and leaves powers of two and
    integers of at most 53 bits alone. *)

Section Binary64Frequencies.

Local Open Scope Q_scope.

Lemma pow2_pos e : 0 < pow2 e.
Proof. apply Qpower_0_lt. reflexivity. Qed.

Lemma pow2_add a b : pow2 (a + b) == pow2 a * pow2 b.
Proof. apply Qpower_plus. discriminate. Qed.

Lemma pow2_le a b : (a <= b)%Z -> pow2 a <= pow2 b.
Proof. intros H. apply Qpower_le_compat_l; [exact H | discriminate]. Qed.

Lemma pow2_lt a b : (a < b)%Z -> pow2 a < pow2 b.
Proof. intros H. apply Qpower_lt_compat_l; [exact H | reflexivity]. Qed.

Lemma pow2_lt_inv a b : pow2 a < pow2 b -> (a < b)%Z.
Proof. intros H. apply (Qpower_lt_compat_l_inv 2); [exact H | reflexivity]. Qed.

Lemma pow2_Z e : (0 <= e)%Z -> pow2 e == inject_Z (2 ^ e).
Proof. intros H. unfold pow2. now rewrite Zpower_Qpower. Qed.

Lemma pow2_succ e : pow2 (e + 1) == 2 * pow2 e.
Proof. rewrite pow2_add. change (pow2 1) with 2. ring. Qed.

(** Scaling by a power of two and back. *)
Lemma scale_back q e : q / pow2 e * pow2 e == q.
Proof. field. pose proof (pow2_pos e). lra. Qed.

Lemma scale_le c q e : c * pow2 e <= q <-> c <= q / pow2 e.
Proof.
  pose proof (pow2_pos e) as Hp. split; intros H.
  - apply Qle_shift_div_l; assumption.
  - rewrite <- (scale_back q e). apply Qmult_le_compat_r; [exact H | lra].
Qed.

Lemma scale_ge c q e : q <= c * pow2 e <-> q / pow2 e <= c.
Proof.
  pose proof (pow2_pos e) as Hp. split; intros H.
  - apply Qle_shift_div_r; assumption.
  - rewrite <- (scale_back q e). apply Qmult_le_compat_r; [exact H | lra].
Qed.

(** ** The binade of a positive number *)

Lemma ilog2_spec q : 0 < q -> pow2 (ilog2 q) <= q /\ q < pow2 (ilog2 q + 1).
Proof.
  intros Hq. destruct q as [n d]. unfold ilog2. cbn [Qnum Qden].
  assert (Hn : (0 < n)%Z).
  { unfold Qlt in Hq. simpl in Hq. lia. }
  set (la := Z.log2 n). set (ld := Z.log2 (Z.pos d)).
  destruct (Z.log2_spec n Hn) as [Hn1 Hn2].
  destruct (Z.log2_spec (Z.pos d) (Pos2Z.is_pos d)) as [Hd1 Hd2].
  fold la in Hn1, Hn2. fold ld in Hd1, Hd2.
  assert (Hla : (0 <= la)%Z) by apply Z.log2_nonneg.
  assert (Hld : (0 <= ld)%Z) by apply Z.log2_nonneg.
  rewrite Zle_Qle, <- pow2_Z in Hn1, Hd1 by assumption.
  rewrite Zlt_Qlt, <- pow2_Z in Hn2, Hd2 by lia.
  assert (Hq' : (n # d) * inject_Z (Z.pos d) == inject_Z n).
  { rewrite (Qmake_Qdiv n d). field. discriminate. }
  pose proof (pow2_pos ld) as Pld. pose proof (pow2_pos (la - ld)) as Pe.
  pose proof (pow2_pos (la - ld - 1)) as Pe1.
  assert (E1 : pow2 la == pow2 (la - ld) * pow2 ld).
  { rewrite <- pow2_add. now replace (la - ld + ld)%Z with la by lia. }
  assert (E2 : pow2 (Z.succ la) == 2 * pow2 (la - ld) * pow2 ld).
  { unfold Z.succ. rewrite pow2_succ, E1. ring. }
  assert (E3 : pow2 (Z.succ ld) == 2 * pow2 ld).
  { unfold Z.succ. apply pow2_succ. }
  assert (E4 : pow2 (la - ld) == 2 * pow2 (la - ld - 1)).
  { rewrite <- pow2_succ. now replace (la - ld - 1 + 1)%Z with (la - ld)%Z by lia. }
  set (q := n # d) in *. set (D := inject_Z (Z.pos d)) in *.
  set (N := inject_Z n) in *.
  destruct (Qle_bool (pow2 (la - ld)) q) eqn:Hb.
  - apply Qle_bool_iff in Hb. split; [exact Hb |].
    rewrite pow2_succ. nra.
  - assert (Hlt : q < pow2 (la - ld)).
    { apply Qnot_le_lt. intros H. apply Qle_bool_iff in H. congruence. }
    replace (la - ld - 1 + 1)%Z with (la - ld)%Z by lia.
    split; [| exact Hlt]. nra.
Qed.

Lemma binade_unique q e e' :
  pow2 e <= q -> q < pow2 (e + 1) -> pow2 e' <= q -> q < pow2 (e' + 1) ->
  e = e'.
Proof.
  intros H1 H2 H3 H4.
  assert (A : (e < e' + 1)%Z) by (apply pow2_lt_inv; lra).
  assert (B : (e' < e + 1)%Z) by (apply pow2_lt_inv; lra).
  lia.
Qed.

Lemma ilog2_comp x y : 0 < x -> x == y -> ilog2 x = ilog2 y.
Proof.
  intros Hx Hxy. assert (Hy : 0 < y) by (rewrite <- Hxy; exact Hx).
  destruct (ilog2_spec x Hx) as [A B]. destruct (ilog2_spec y Hy) as [C D].
  apply (binade_unique x); lra.
Qed.

Lemma Qabs_zero_iff q : Qabs q == 0 <-> q == 0.
Proof.
  split; intros H.
  - revert H. apply (Qabs_case q); intros; lra.
  - rewrite H. reflexivity.
Qed.

Lemma Qabs_positive q : ~ q == 0 -> 0 < Qabs q.
Proof.
  intros Hq. pose proof (Qabs_nonneg q) as Hn.
  destruct (Qlt_le_dec 0 (Qabs q)) as [H | H]; [exact H |].
  exfalso. apply Hq. apply Qabs_zero_iff. lra.
Qed.

#[local] Instance ulp_exp_comp : Proper (Qeq ==> eq) ulp_exp.
Proof.
  intros x y Hxy. unfold ulp_exp. rewrite <- Hxy.
  destruct (Qeq_bool x 0) eqn:Hz; [reflexivity |].
  apply Qeq_bool_neq in Hz.
  rewrite (ilog2_comp (Qabs x) (Qabs y)); [reflexivity | |].
  - now apply Qabs_positive.
  - now rewrite Hxy.
Qed.

Lemma ulp_exp_min q : (-1074 <= ulp_exp q)%Z.
Proof. unfold ulp_exp. destruct (Qeq_bool q 0); lia. Qed.

(** [q] has fewer than 54 bits above its last place. *)
Lemma ulp_exp_above q : Qabs q < pow2 (ulp_exp q + 53).
Proof.
  unfold ulp_exp. destruct (Qeq_bool q 0) eqn:Hz.
  - apply Qeq_bool_eq in Hz. rewrite Hz. apply pow2_pos.
  - apply Qeq_bool_neq in Hz.
    destruct (ilog2_spec (Qabs q) (Qabs_positive q Hz)) as [_ H].
    eapply Qlt_le_trans; [exact H |]. apply pow2_le. lia.
Qed.

(** Above the subnormal range, [q] has a bit 52 places above its last. *)
Lemma ulp_exp_below q :
  (-1074 < ulp_exp q)%Z -> pow2 (ulp_exp q + 52) <= Qabs q.
Proof.
  unfold ulp_exp. destruct (Qeq_bool q 0) eqn:Hz; [lia |].
  apply Qeq_bool_neq in Hz. intros Hlt.
  destruct (ilog2_spec (Qabs q) (Qabs_positive q Hz)) as [H _].
  replace (Z.max (ilog2 (Qabs q) - 52) (-1074) + 52)%Z
    with (ilog2 (Qabs q)) by lia.
  exact H.
Qed.

(** ** The nearest integer *)

#[local] Instance nearest_even_comp : Proper (Qeq ==> eq) nearest_even.
Proof.
  intros x y Hxy. unfold nearest_even.
  rewrite (Qfloor_comp x y Hxy).
  assert (H : x - inject_Z (Qfloor y) == y - inject_Z (Qfloor y))
    by (rewrite Hxy; reflexivity).
  now rewrite (Qcompare_comp _ _ H (1 # 2) (1 # 2) (Qeq_refl _)).
Qed.

Lemma nearest_even_cases m :
  let f := Qfloor m in
  (nearest_even m = f /\ m - inject_Z f <= 1 # 2) \/
  (nearest_even m = (f + 1)%Z /\ 1 # 2 <= m - inject_Z f).
Proof.
  intros f. unfold nearest_even. fold f.
  destruct (Qcompare_spec (m - inject_Z f) (1 # 2)) as [H | H | H].
  - destruct (Z.even f); [left | right]; split; try reflexivity; lra.
  - left. split; [reflexivity | lra].
  - right. split; [reflexivity | lra].
Qed.

Lemma nearest_even_error m :
  Qabs (inject_Z (nearest_even m) - m) <= 1 # 2.
Proof.
  pose proof (Qfloor_le m) as Hlo. pose proof (Qlt_floor m) as Hhi.
  rewrite inject_Z_plus in Hhi. change (inject_Z 1) with 1 in Hhi.
  apply Qabs_Qle_condition.
  destruct (nearest_even_cases m) as [[-> H] | [-> H]].
  - lra.
  - rewrite inject_Z_plus. change (inject_Z 1) with 1. lra.
Qed.

Lemma nearest_even_Z k : nearest_even (inject_Z k) = k.
Proof.
  unfold nearest_even. rewrite Qfloor_Z.
  destruct (Qcompare_spec (inject_Z k - inject_Z k) (1 # 2)) as [H | H | H];
    [lra | reflexivity | lra].
Qed.

Lemma nearest_even_mono x y : x <= y -> (nearest_even x <= nearest_even y)%Z.
Proof.
  intros Hxy. pose proof (Qfloor_resp_le x y Hxy) as Hf.
  pose proof (Qfloor_le x) as Hx1. pose proof (Qlt_floor x) as Hx2.
  pose proof (Qfloor_le y) as Hy1. pose proof (Qlt_floor y) as Hy2.
  destruct (Z.eq_dec (Qfloor x) (Qfloor y)) as [Heq | Hne].
  - unfold nearest_even. rewrite <- Heq.
    destruct (Qcompare_spec (x - inject_Z (Qfloor x)) (1 # 2)) as [A | A | A];
      destruct (Qcompare_spec (y - inject_Z (Qfloor x)) (1 # 2))
        as [B | B | B]; try lia; try lra;
        destruct (Z.even (Qfloor x)); lia.
  - assert (Hlt : (Qfloor x + 1 <= Qfloor y)%Z) by lia.
    destruct (nearest_even_cases x) as [[-> _] | [-> _]];
      destruct (nearest_even_cases y) as [[-> _] | [-> _]]; lia.
Qed.

(** ** Rounding *)

#[local] Instance round_comp : Proper (Qeq ==> Qeq) round.
Proof.
  intros x y Hxy. unfold round. rewrite (ulp_exp_comp x y Hxy).
  assert (H : x / pow2 (ulp_exp y) == y / pow2 (ulp_exp y))
    by (rewrite Hxy; reflexivity).
  now rewrite (nearest_even_comp _ _ H).
Qed.

Lemma round_above q (k : Z) :
  inject_Z k * pow2 (ulp_exp q) <= q ->
  inject_Z k * pow2 (ulp_exp q) <= round q.
Proof.
  intros H. unfold round. apply Qmult_le_compat_r.
  - rewrite <- Zle_Qle. rewrite <- (nearest_even_Z k) at 1.
    apply nearest_even_mono. now apply scale_le.
  - pose proof (pow2_pos (ulp_exp q)). lra.
Qed.

Lemma round_below q (k : Z) :
  q <= inject_Z k * pow2 (ulp_exp q) ->
  round q <= inject_Z k * pow2 (ulp_exp q).
Proof.
  intros H. unfold round. apply Qmult_le_compat_r.
  - rewrite <- Zle_Qle. rewrite <- (nearest_even_Z k) at 1.
    apply nearest_even_mono. now apply scale_ge.
  - pose proof (pow2_pos (ulp_exp q)). lra.
Qed.

Lemma pow2_split e k : (0 <= k)%Z -> pow2 (e + k) == inject_Z (2 ^ k) * pow2 e.
Proof. intros Hk. rewrite pow2_add, (pow2_Z k Hk). ring. Qed.

(** Rounding keeps the order. *)
Lemma round_mono x y : x <= y -> round x <= round y.
Proof.
  intros Hxy.
  pose proof (ulp_exp_min x) as Mx. pose proof (ulp_exp_min y) as My.
  pose proof (ulp_exp_above x) as Ax. pose proof (ulp_exp_above y) as Ay.
  destruct (Z.lt_trichotomy (ulp_exp x) (ulp_exp y)) as [Hlt | [Heq | Hgt]].
  - pose proof (ulp_exp_below y ltac:(lia)) as By.
    assert (Hstep : pow2 (ulp_exp x + 53) <= pow2 (ulp_exp y + 52))
      by (apply pow2_le; lia).
    assert (Hy : pow2 (ulp_exp y + 52) <= y).
    { revert By Ax. apply (Qabs_case y); apply (Qabs_case x); intros; lra. }
    assert (Hx : x <= pow2 (ulp_exp x + 53)).
    { pose proof (pow2_pos (ulp_exp x + 53)).
      revert Ax. apply (Qabs_case x); intros; lra. }
    rewrite (pow2_split _ 52) in Hy by lia.
    rewrite (pow2_split _ 53) in Hx by lia.
    apply round_above in Hy. apply round_below in Hx.
    rewrite <- (pow2_split _ 52) in Hy by lia.
    rewrite <- (pow2_split _ 53) in Hx by lia. lra.
  - unfold round. rewrite Heq. apply Qmult_le_compat_r.
    + rewrite <- Zle_Qle. apply nearest_even_mono.
      apply Qmult_le_compat_r; [exact Hxy |].
      apply Qinv_le_0_compat. pose proof (pow2_pos (ulp_exp y)). lra.
    + pose proof (pow2_pos (ulp_exp y)). lra.
  - pose proof (ulp_exp_below x ltac:(lia)) as Bx.
    assert (Hstep : pow2 (ulp_exp y + 53) <= pow2 (ulp_exp x + 52))
      by (apply pow2_le; lia).
    assert (Hx : x <= - pow2 (ulp_exp x + 52)).
    { revert Bx Ay. apply (Qabs_case y); apply (Qabs_case x); intros; lra. }
    assert (Hy : - pow2 (ulp_exp y + 53) <= y).
    { pose proof (pow2_pos (ulp_exp y + 53)).
      revert Ay. apply (Qabs_case y); intros; lra. }
    rewrite (pow2_split _ 52) in Hx by lia.
    rewrite (pow2_split _ 53) in Hy by lia.
    assert (Hx' : x <= inject_Z (- 2 ^ 52) * pow2 (ulp_exp x))
      by (rewrite inject_Z_opp; lra).
    assert (Hy' : inject_Z (- 2 ^ 53) * pow2 (ulp_exp y) <= y)
      by (rewrite inject_Z_opp; lra).
    apply round_above in Hy'. apply round_below in Hx'.
    rewrite inject_Z_opp in Hx', Hy'.
    rewrite (pow2_split _ 52) in Hstep by lia.
    rewrite (pow2_split _ 53) in Hstep by lia. lra.
Qed.

Lemma round_0 : round 0 == 0.
Proof. vm_compute. reflexivity. Qed.

Lemma round_nonneg q : 0 <= q -> 0 <= round q.
Proof. intros H. rewrite <- round_0. now apply round_mono. Qed.

Lemma round_nonpos q : q <= 0 -> round q <= 0.
Proof. intros H. rewrite <- round_0. now apply round_mono. Qed.

(** The error of rounding is at most half a unit in the last place. *)
Lemma round_error q : Qabs (round q - q) <= (1 # 2) * pow2 (ulp_exp q).
Proof.
  set (E := ulp_exp q). set (m := q / pow2 E).
  pose proof (pow2_pos E) as HE.
  assert (Heq : round q - q == (inject_Z (nearest_even m) - m) * pow2 E).
  { assert (Hq : q == m * pow2 E) by (symmetry; apply scale_back).
    unfold round. fold E. fold m. clearbody m. clearbody E.
    rewrite Hq. ring. }
  rewrite Heq, Qabs_Qmult, (Qabs_pos (pow2 E)) by lra.
  apply Qmult_le_compat_r; [apply nearest_even_error | lra].
Qed.

(** The error relative to [q], with the absolute term of the subnormal
    range. *)
Lemma round_error_bound q :
  Qabs (round q - q) <= pow2 (-53) * Qabs q + pow2 (-1075).
Proof.
  eapply Qle_trans; [apply round_error |].
  pose proof (Qabs_nonneg q) as Hq.
  pose proof (pow2_pos (-53)) as Hu. pose proof (pow2_pos (-1075)) as He.
  destruct (Z.eq_dec (ulp_exp q) (-1074)) as [Hsub | Hnorm].
  - rewrite Hsub.
    assert (H : (1 # 2) * pow2 (-1074) == pow2 (-1075))
      by (vm_compute; reflexivity).
    rewrite H. nra.
  - pose proof (ulp_exp_min q) as Hmin.
    pose proof (ulp_exp_below q ltac:(lia)) as Hb.
    assert (H : (1 # 2) * pow2 (ulp_exp q)
                == pow2 (-53) * pow2 (ulp_exp q + 52)).
    { rewrite <- pow2_add.
      replace (-53 + (ulp_exp q + 52))%Z with (ulp_exp q + -1)%Z by lia.
      rewrite pow2_add. change (pow2 (-1)) with (1 # 2). ring. }
    rewrite H. nra.
Qed.

(** Powers of two down to the smallest subnormal are binary64 values. *)
Lemma ilog2_pow2 k : ilog2 (pow2 k) = k.
Proof.
  pose proof (pow2_pos k) as Hk.
  destruct (ilog2_spec (pow2 k) Hk) as [A B].
  apply (binade_unique (pow2 k)); try assumption.
  - lra.
  - apply pow2_lt. lia.
Qed.

Lemma ulp_exp_pow2 k : ulp_exp (pow2 k) = Z.max (k - 52) (-1074).
Proof.
  pose proof (pow2_pos k) as Hk. unfold ulp_exp.
  destruct (Qeq_bool (pow2 k) 0) eqn:Hz.
  - apply Qeq_bool_eq in Hz. lra.
  - rewrite (ilog2_comp (Qabs (pow2 k)) (pow2 k)).
    + now rewrite ilog2_pow2.
    + rewrite Qabs_pos; lra.
    + apply Qabs_pos. lra.
Qed.

Lemma round_scaled_Z (z : Z) q :
  q == inject_Z z * pow2 (ulp_exp q) -> round q == q.
Proof.
  intros H. unfold round.
  assert (Hm : q / pow2 (ulp_exp q) == inject_Z z).
  { rewrite H at 1. field. pose proof (pow2_pos (ulp_exp q)). lra. }
  rewrite (nearest_even_comp _ _ Hm), nearest_even_Z. now rewrite <- H.
Qed.

Lemma round_pow2 k : (-1074 <= k)%Z -> round (pow2 k) == pow2 k.
Proof.
  intros Hk. apply (round_scaled_Z (2 ^ (k - ulp_exp (pow2 k)))).
  rewrite ulp_exp_pow2. rewrite <- pow2_Z by lia. rewrite <- pow2_add.
  now replace (k - Z.max (k - 52) (-1074) + Z.max (k - 52) (-1074))%Z
    with k by lia.
Qed.

Lemma ulp_exp_opp q : ulp_exp (- q) = ulp_exp q.
Proof.
  unfold ulp_exp.
  assert (Hz : Qeq_bool (- q) 0 = Qeq_bool q 0).
  { destruct (Qeq_bool q 0) eqn:E.
    - apply Qeq_bool_eq in E. apply Qeq_eq_bool. lra.
    - apply Qeq_bool_neq in E. destruct (Qeq_bool (- q) 0) eqn:E';
        [| reflexivity]. apply Qeq_bool_eq in E'. exfalso. apply E. lra. }
  rewrite Hz. destruct (Qeq_bool q 0) eqn:E; [reflexivity |].
  apply Qeq_bool_neq in E.
  rewrite (ilog2_comp (Qabs (- q)) (Qabs q)); [reflexivity | |].
  - apply Qabs_positive. intros H. apply E. lra.
  - apply Qabs_opp.
Qed.

Lemma round_opp_pow2 k : (-1074 <= k)%Z -> round (- pow2 k) == - pow2 k.
Proof.
  intros Hk. apply (round_scaled_Z (- 2 ^ (k - ulp_exp (pow2 k)))).
  rewrite ulp_exp_opp, ulp_exp_pow2, inject_Z_opp.
  rewrite <- pow2_Z by lia.
  assert (H : pow2 k == pow2 (k - Z.max (k - 52) (-1074))
                        * pow2 (Z.max (k - 52) (-1074))).
  { rewrite <- pow2_add.
    now replace (k - Z.max (k - 52) (-1074) + Z.max (k - 52) (-1074))%Z
      with k by lia. }
  rewrite H at 1. ring.
Qed.

(** Rounding does not leave an interval bounded by a power of two. *)
Lemma round_bounded k q :
  (-1074 <= k)%Z -> Qabs q <= pow2 k -> Qabs (round q) <= pow2 k.
Proof.
  intros Hk Hq. apply Qabs_Qle_condition in Hq. destruct Hq as [Hlo Hhi].
  apply Qabs_Qle_condition. split.
  - rewrite <- (round_opp_pow2 k Hk). now apply round_mono.
  - rewrite <- (round_pow2 k Hk). now apply round_mono.
Qed.

(** Integers of at most 53 bits are binary64 values. *)
Lemma round_small_int z :
  (Z.abs z <= 2 ^ 53)%Z -> round (inject_Z z) == inject_Z z.
Proof.
  intros Hz. destruct (Z.eq_dec z 0) as [-> | Hnz]; [apply round_0 |].
  set (q := inject_Z z).
  assert (Hq0 : ~ q == 0).
  { unfold q. change 0 with (inject_Z 0). rewrite inject_Z_injective. exact Hnz. }
  assert (Habs : Qabs q == inject_Z (Z.abs z)).
  { unfold q. unfold inject_Z. now rewrite Zabs_Qabs. }
  assert (Hle : Qabs q <= pow2 53).
  { rewrite Habs, (pow2_Z 53) by lia. now rewrite <- Zle_Qle. }
  destruct (ilog2_spec (Qabs q) (Qabs_positive q Hq0)) as [Hl1 Hl2].
  assert (Hil : (ilog2 (Qabs q) <= 53)%Z).
  { apply (Qpower_le_compat_l_inv 2); [| reflexivity].
    fold (pow2 (ilog2 (Qabs q))). fold (pow2 53). lra. }
  assert (HE : ulp_exp q = Z.max (ilog2 (Qabs q) - 52) (-1074)).
  { unfold ulp_exp. destruct (Qeq_bool q 0) eqn:E; [| reflexivity].
    apply Qeq_bool_eq in E. contradiction. }
  destruct (Z.eq_dec (ilog2 (Qabs q)) 53) as [H53 | H53].
  - (* |z| = 2^53 *)
    rewrite H53 in Hl1.
    assert (Hz' : Z.abs z = (2 ^ 53)%Z).
    { apply Z.le_antisymm; [exact Hz |].
      rewrite Zle_Qle, <- Habs, <- pow2_Z by lia. exact Hl1. }
    destruct (Z.abs_eq_or_opp z) as [Hs | Hs]; rewrite Hs in Hz'.
    + unfold q. rewrite Hz'. vm_compute. reflexivity.
    + assert (Hzz : z = (- 2 ^ 53)%Z) by lia.
      unfold q. rewrite Hzz. vm_compute. reflexivity.
  - assert (HEle : (ulp_exp q <= 0)%Z) by lia.
    apply (round_scaled_Z (z * 2 ^ (- ulp_exp q))).
    rewrite inject_Z_mult, <- pow2_Z by lia.
    rewrite <- Qmult_assoc, <- pow2_add.
    replace (- ulp_exp q + ulp_exp q)%Z with 0%Z by lia.
    change (pow2 0) with 1. unfold q. ring.
Qed.

(** ** The entries of the list, as rationals *)

Lemma abs_bounds x : - Qabs x <= x /\ x <= Qabs x.
Proof. apply Qabs_Qle_condition. apply Qle_refl. Qed.

Lemma unit_roundoff : pow2 (-53) == 1 # 9007199254740992.
Proof. vm_compute. reflexivity. Qed.

(** The rounding error, two-sided, from a bound on the operand. *)
Lemma round_error_within x B :
  - B <= x <= B ->
  - ((1 # 9007199254740992) * B + pow2 (-1075)) <= round x - x
  /\ round x - x <= (1 # 9007199254740992) * B + pow2 (-1075).
Proof.
  intros Hx. apply Qabs_Qle_condition in Hx.
  apply Qabs_Qle_condition.
  eapply Qle_trans; [apply round_error_bound |].
  rewrite unit_roundoff. pose proof (Qabs_nonneg x). lra.
Qed.

(** The rounded quotient, multiplied back. *)
Lemma quotient_error s m :
  1 <= m ->
  Qabs (m * round (s / m) - s)
  <= (1 # 9007199254740992) * Qabs s + m * pow2 (-1075).
Proof.
  intros Hm.
  assert (Hs : s == m * (s / m)) by (field; lra).
  pose proof (round_error_bound (s / m)) as He.
  rewrite unit_roundoff in He.
  set (x := s / m) in *. clearbody x.
  assert (E : m * round x - s == m * (round x - x)) by (rewrite Hs; ring).
  rewrite E, Hs, !Qabs_Qmult, (Qabs_pos m) by lra.
  pose proof (Qabs_nonneg x). pose proof (Qabs_nonneg (round x - x)).
  pose proof (pow2_pos (-1075)). nra.
Qed.

Section Sweep.

Variables (a b s inc A : Q) (n : Z).

Hypothesis HA : A == a.
Hypothesis Hrep : round a == a.
Hypothesis Ha : Qabs a <= pow2 1000.
Hypothesis Hb : Qabs b <= pow2 1000.
Hypothesis Hn : (2 <= n <= 2 ^ 53)%Z.
Hypothesis Hs : s == b - a \/ s == round (b - a).
Hypothesis Hinc : inc == round (s / inject_Z (n - 1)).

Let K := pow2 1000.
Let eta := pow2 (-1075).
Let m := inject_Z (n - 1).
Let u := 1 # 9007199254740992.

Lemma bound_is_large : 1 <= K.
Proof. change 1 with (pow2 0). apply pow2_le. lia. Qed.

Lemma eta_range : 0 < eta /\ eta <= u.
Proof.
  split; [apply pow2_pos |]. unfold u. rewrite <- unit_roundoff.
  apply pow2_le. lia.
Qed.

Lemma steps_range : 1 <= m /\ m <= inject_Z (2 ^ 53).
Proof.
  unfold m. change 1 with (inject_Z 1). rewrite <- !Zle_Qle. lia.
Qed.

Lemma steps_eta : m * eta <= 1 /\ u * (m * eta) <= eta.
Proof.
  destruct steps_range as [H1 H2]. destruct eta_range as [E1 E2].
  assert (H53 : inject_Z (2 ^ 53) == 9007199254740992) by reflexivity.
  rewrite H53 in H2. unfold u in *. split; nra.
Qed.

Lemma round_steps : round m == m.
Proof. apply round_small_int. lia. Qed.

Lemma round_index i :
  (0 <= i <= n - 1)%Z -> round (inject_Z i) == inject_Z i.
Proof. intros Hi. apply round_small_int. lia. Qed.

(** The span as computed: exact on two [int]s, rounded otherwise. *)
Lemma span_error :
  - (u * (Qabs a + Qabs b) + eta) <= s - (b - a)
  /\ s - (b - a) <= u * (Qabs a + Qabs b) + eta.
Proof.
  destruct (abs_bounds a) as [A1 A2]. destruct (abs_bounds b) as [B1 B2].
  destruct eta_range as [E1 E2].
  pose proof (Qabs_nonneg a). pose proof (Qabs_nonneg b).
  destruct Hs as [-> | ->].
  - unfold u. split; nra.
  - apply round_error_within. lra.
Qed.

Lemma span_sign : (a <= b -> 0 <= s) /\ (a == b -> s == 0).
Proof.
  destruct Hs as [-> | ->].
  - split; intros; lra.
  - split; intros Hab.
    + apply round_nonneg. lra.
    + assert (E : b - a == 0) by lra. rewrite E. apply round_0.
Qed.

Lemma inc_sign : (a <= b -> 0 <= inc) /\ (a == b -> inc == 0).
Proof.
  destruct span_sign as [S1 S2]. destruct steps_range as [M1 _]. fold m in Hinc.
  split; intros Hab; rewrite Hinc.
  - apply round_nonneg. apply Qle_shift_div_l; [lra |]. specialize (S1 Hab). lra.
  - assert (E : s / m == 0) by (rewrite (S2 Hab); field; lra).
    rewrite E. apply round_0.
Qed.

(** The increment multiplied back by the number of steps. *)
Lemma inc_error :
  - (u * Qabs s + m * eta) <= m * inc - s
  /\ m * inc - s <= u * Qabs s + m * eta.
Proof.
  destruct steps_range as [M1 _]. fold m in Hinc.
  apply Qabs_Qle_condition. rewrite Hinc. now apply quotient_error.
Qed.

Lemma span_abs : Qabs s <= (1 + u) * (Qabs a + Qabs b) + eta.
Proof.
  destruct span_error as [S1 S2].
  destruct (abs_bounds a) as [A1 A2]. destruct (abs_bounds b) as [B1 B2].
  apply Qabs_Qle_condition. unfold u in *. split; lra.
Qed.

Lemma steps_abs :
  Qabs (m * inc) <= (1 + u) * Qabs s + m * eta.
Proof.
  destruct inc_error as [I1 I2]. destruct (abs_bounds s) as [S1 S2].
  apply Qabs_Qle_condition. unfold u in *. split; lra.
Qed.

Lemma index_abs i :
  (0 <= i <= n - 1)%Z -> Qabs (round (inject_Z i) * inc) <= Qabs (m * inc).
Proof.
  intros Hi. rewrite (round_index i Hi), !Qabs_Qmult.
  assert (H0 : 0 <= inject_Z i) by (change 0 with (inject_Z 0); rewrite <- Zle_Qle; lia).
  assert (H1 : inject_Z i <= m) by (unfold m; rewrite <- Zle_Qle; lia).
  destruct steps_range as [M1 _].
  rewrite (Qabs_pos (inject_Z i)), (Qabs_pos m) by lra.
  pose proof (Qabs_nonneg inc). nra.
Qed.

(** Magnitudes stay far below the overflow threshold. *)
Lemma magnitudes :
  Qabs (b - a) <= 64 * K /\
  Qabs s <= 64 * K /\
  Qabs (s / m) <= 64 * K /\
  forall i, (0 <= i <= n - 1)%Z ->
    Qabs (round (inject_Z i) * inc) <= 64 * K /\
    Qabs (A + round (round (inject_Z i) * inc)) <= 64 * K.
Proof.
  pose proof bound_is_large as HK. destruct eta_range as [E1 E2].
  destruct steps_range as [M1 M2]. destruct steps_eta as [ME1 ME2].
  pose proof span_abs as Sa. pose proof steps_abs as St.
  pose proof (Qabs_nonneg a) as Na. pose proof (Qabs_nonneg b) as Nb.
  pose proof (Qabs_nonneg s) as Ns.
  pose proof index_abs as Hidx.
  fold K in Ha, Hb. fold eta in Sa, St.
  destruct (abs_bounds a) as [A1 A2]. destruct (abs_bounds b) as [B1 B2].
  unfold u in *. clearbody K eta m.
  assert (Hs8 : Qabs s <= 8 * K) by lra.
  split; [| split; [| split]].
  - apply Qabs_Qle_condition. split; lra.
  - lra.
  - assert (E : Qabs (s / m) == Qabs s / m).
    { unfold Qdiv. rewrite Qabs_Qmult, Qabs_Qinv, (Qabs_pos m) by lra.
      reflexivity. }
    rewrite E. apply Qle_shift_div_r; [lra |]. nra.
  - intros i Hi. specialize (Hidx i Hi).
    set (p := round (inject_Z i) * inc) in *.
    set (P := Qabs (m * inc)) in *.
    set (M := m * eta) in *.
    assert (Hp : Qabs p <= 32 * K) by lra.
    split; [lra |].
    assert (Hp' : - (32 * K) <= p <= 32 * K) by (now apply Qabs_Qle_condition).
    destruct (round_error_within p (32 * K) Hp') as [R1 R2].
    apply Qabs_Qle_condition. rewrite HA.
    set (t := round p) in *. set (e := pow2 (-1075)) in *.
    assert (He : e <= 1).
    { unfold e. change 1 with (pow2 0). apply pow2_le. lia. }
    split; lra.
Qed.

Lemma point_mono i :
  a <= b -> (0 <= i)%Z -> point A inc i <= point A inc (i + 1).
Proof.
  intros Hab Hi. destruct inc_sign as [I1 _]. specialize (I1 Hab).
  unfold point. apply round_mono.
  apply Qplus_le_r. apply round_mono.
  apply Qmult_le_compat_r; [| exact I1].
  apply round_mono. rewrite <- Zle_Qle. lia.
Qed.

Lemma point_constant i : a == b -> point A inc i == a.
Proof.
  intros Hab. destruct inc_sign as [_ I2]. specialize (I2 Hab).
  unfold point.
  assert (E : round (inject_Z i) * inc == 0) by (rewrite I2; ring).
  rewrite E, round_0, HA.
  assert (E' : a + 0 == a) by ring. now rewrite E'.
Qed.

Lemma point_first : point A inc 0 == a.
Proof.
  unfold point. change (inject_Z 0) with 0. rewrite round_0.
  assert (E : 0 * inc == 0) by ring. rewrite E, round_0, HA.
  assert (E' : a + 0 == a) by ring. now rewrite E'.
Qed.

Lemma point_last : Qabs (point A inc (n - 1) - b) <= tolerance a b n.
Proof.
  destruct eta_range as [E1 E2].
  destruct steps_range as [M1 M2]. destruct steps_eta as [ME1 ME2].
  destruct span_error as [S1 S2]. destruct inc_error as [I1 I2].
  pose proof span_abs as Sa.
  pose proof (Qabs_nonneg a) as Na. pose proof (Qabs_nonneg b) as Nb.
  pose proof (Qabs_nonneg s) as Ns.
  destruct (abs_bounds a) as [A1 A2]. destruct (abs_bounds b) as [B1 B2].
  destruct (abs_bounds s) as [Sb1 Sb2].
  assert (Hm : m == inject_Z n - 1).
  { unfold m. unfold Zminus. rewrite inject_Z_plus. reflexivity. }
  assert (Hn2 : 2 <= inject_Z n).
  { change 2 with (inject_Z 2). rewrite <- Zle_Qle. lia. }
  assert (Hme : m * eta == inject_Z n * eta - eta) by (rewrite Hm; ring).
  assert (Hne : 2 * eta <= inject_Z n * eta) by nra.
  assert (Hpow : inject_Z n * pow2 (-1072) == 8 * (inject_Z n * eta)).
  { assert (H8 : pow2 (-1072) == 8 * eta) by (vm_compute; reflexivity).
    rewrite H8. ring. }
  assert (Hrel : pow2 (-50) == 8 * u) by (vm_compute; reflexivity).
  unfold tolerance. rewrite Hpow, Hrel.
  unfold point. fold m. rewrite round_steps.
  unfold u in *.
  set (p := m * inc) in *. set (M := m * eta) in *.
  set (N := inject_Z n * eta) in *. set (Xa := Qabs a) in *.
  set (Xb := Qabs b) in *. set (Xs := Qabs s) in *.
  clearbody p M N Xa Xb Xs.
  assert (Hp : - ((1 + (1 # 9007199254740992)) * Xs + M) <= p
               <= (1 + (1 # 9007199254740992)) * Xs + M) by lra.
  destruct (round_error_within p _ Hp) as [T1 T2].
  set (t := round p) in *. clearbody t. fold eta in T1, T2.
  assert (Hat : - (2 * (Xa + Xb) + 4 * eta + 2 * M) <= A + t
                <= 2 * (Xa + Xb) + 4 * eta + 2 * M).
  { rewrite HA. clearbody eta. split; lra. }
  destruct (round_error_within (A + t) _ Hat) as [L1 L2].
  fold eta in L1, L2.
  set (l := round (A + t)) in *. clearbody l. rewrite HA in L1, L2.
  apply Qabs_Qle_condition. clearbody eta. clear Hrep Ha Hb Hs Hinc.
  split; lra.
Qed.

End Sweep.

(** ** Operations that stay finite *)

Lemma fin_finite q : Qabs q <= 64 * pow2 1000 -> fin q = Num (round q).
Proof.
  intros Hq. unfold fin, overflows.
  assert (H64 : 64 * pow2 1000 == pow2 1006) by (vm_compute; reflexivity).
  rewrite H64 in Hq. apply (round_bounded 1006) in Hq; [| lia].
  assert (Hlt : pow2 1006 < pow2 1024) by (apply pow2_lt; lia).
  destruct (Qle_bool (pow2 1024) (Qabs (round q))) eqn:Hb; [| reflexivity].
  apply Qle_bool_iff in Hb. lra.
Qed.

Lemma large_bound : pow2 53 <= pow2 1000 /\ 1 <= pow2 1000.
Proof.
  split; [apply pow2_le; lia |]. change 1 with (pow2 0). apply pow2_le. lia.
Qed.

Lemma int_abs z B : (Z.abs z <= B)%Z -> Qabs (inject_Z z) <= inject_Z B.
Proof.
  intros Hz. unfold inject_Z at 1. rewrite <- Zabs_Qabs.
  fold (inject_Z (Z.abs z)). now rewrite <- Zle_Qle.
Qed.

Lemma fin_int z :
  (Z.abs z <= 2 ^ 53)%Z -> fin (inject_Z z) = Num (round (inject_Z z)).
Proof.
  intros Hz. apply fin_finite. apply int_abs in Hz.
  rewrite <- (pow2_Z 53) in Hz by lia.
  destruct large_bound as [L1 L2]. pose proof (pow2_pos 1000). lra.
Qed.

(** ** Numbers of the store *)

Lemma is_binary64_round q : is_binary64 q = true -> round q == q.
Proof.
  unfold is_binary64. intros H. apply andb_prop in H.
  destruct H as [H _]. now apply Qeq_bool_eq.
Qed.

Lemma coerced_value x q :
  value_of x = Some q -> is_binary64 q = true -> Qabs q <= pow2 1000 ->
  PyNumber.to_float x = Num (coerced x) /\
  PyNumber.float_of x = inr (Num (coerced x)) /\
  coerced x == q.
Proof.
  intros Hv Hb Hq. apply is_binary64_round in Hb.
  assert (Hq' : Qabs q <= 64 * pow2 1000).
  { pose proof (pow2_pos 1000). lra. }
  destruct x as [z | [r | s | ]]; simpl in Hv; inversion Hv; subst q.
  - simpl. rewrite (fin_finite _ Hq'). auto.
  - simpl. repeat split; reflexivity.
Qed.

Lemma integer_value x n :
  integer_of x = Some n ->
  x = PInt n \/
  exists q, x = PFloat (Num q) /\ q == inject_Z n /\ b64_trunc (Num q) = inr n.
Proof.
  destruct x as [z | [q | s | ]]; simpl; intros Hx; try discriminate.
  - left. congruence.
  - right. exists q.
    destruct (Qnum q mod Z.pos (Qden q) =? 0)%Z eqn:Hm; [| discriminate].
    apply Z.eqb_eq in Hm. inversion Hx as [Hn]. clear Hx.
    assert (Hex : Qnum q = (Z.pos (Qden q) * (Qnum q / Z.pos (Qden q)))%Z).
    { apply Z.div_exact; [discriminate | exact Hm]. }
    rewrite Hn in Hex.
    split; [reflexivity |]. split.
    + unfold Qeq, inject_Z. simpl. rewrite Hn, Hex. ring.
    + simpl. f_equal. rewrite Hn, Hex, Z.mul_comm.
      apply Z.quot_mul. discriminate.
Qed.

(** ** One entry of the list *)

Lemma entry_run start A inc i :
  PyNumber.to_float start = Num A ->
  (Z.abs i <= 2 ^ 53)%Z ->
  Qabs (round (inject_Z i) * inc) <= 64 * pow2 1000 ->
  Qabs (A + round (round (inject_Z i) * inc)) <= 64 * pow2 1000 ->
  py_add (PyArith := PyArith_number) start
         (py_mul (PyArith := PyArith_number)
                 (py_of_int (PyArith := PyArith_number) i)
                 (PFloat (Num inc)))
  = PFloat (Num (point A inc i)).
Proof.
  intros HA Hi H1 H2. cbn [py_add py_mul py_of_int PyArith_number].
  unfold PyNumber.arith at 2. cbn [PyNumber.to_float].
  rewrite (fin_int i Hi). cbn [b64_mul]. rewrite (fin_finite _ H1).
  assert (Hadd : forall t,
             PyNumber.arith Z.add b64_add start (PFloat t)
             = PFloat (b64_add (PyNumber.to_float start) t)).
  { intros t. destruct start; reflexivity. }
  rewrite Hadd, HA. cbn [b64_add]. rewrite (fin_finite _ H2). reflexivity.
Qed.

(** ** The span and the divisor *)

Lemma float_of_int z :
  Qabs (inject_Z z) <= 64 * pow2 1000 ->
  PyNumber.float_of (PInt z) = inr (Num (round (inject_Z z))).
Proof. intros Hz. simpl. now rewrite (fin_finite _ Hz). Qed.

Lemma float_division X Y x y :
  match X, Y with PInt _, PInt _ => False | _, _ => True end ->
  PyNumber.float_of X = inr (Num x) ->
  PyNumber.float_of Y = inr (Num y) ->
  ~ y == 0 ->
  Qabs (x / y) <= 64 * pow2 1000 ->
  PyNumber.truediv X Y = inr (PFloat (Num (round (x / y)))).
Proof.
  intros Hmixed HX HY Hy Hq.
  assert (Hrun : PyNumber.truediv X Y
                 = match PyNumber.float_of X with
                   | inl e => inl e
                   | inr fx =>
                       match PyNumber.float_of Y with
                       | inl e => inl e
                       | inr fy =>
                           if b64_is_zero fy then inl ZeroDivisionError
                           else inr (PFloat (b64_div fx fy))
                       end
                   end).
  { destruct X, Y; try reflexivity. contradiction. }
  rewrite Hrun, HX, HY. cbn [b64_is_zero b64_div].
  destruct (Qeq_bool y 0) eqn:Hz; [apply Qeq_bool_eq in Hz; contradiction |].
  now rewrite (fin_finite _ Hq).
Qed.

Lemma span_run start stop a b :
  value_of start = Some a -> value_of stop = Some b ->
  is_binary64 a = true -> is_binary64 b = true ->
  Qabs a <= pow2 1000 -> Qabs b <= pow2 1000 ->
  (exists d,
      py_sub (PyArith := PyArith_number) stop start = PInt d /\
      inject_Z d == b - a) \/
  (exists sf,
      py_sub (PyArith := PyArith_number) stop start = PFloat (Num sf) /\
      sf == round (b - a)).
Proof.
  intros Hva Hvb Hba Hbb Ha Hb.
  destruct (coerced_value start a Hva Hba Ha) as (TA & _ & EA).
  destruct (coerced_value stop b Hvb Hbb Hb) as (TB & _ & EB).
  assert (Hfloat : PFloat (b64_sub (PyNumber.to_float stop)
                               (PyNumber.to_float start))
                   = PFloat (Num (round (coerced stop + - coerced start)))).
  { rewrite TA, TB. unfold b64_sub. cbn [b64_opp b64_add]. rewrite fin_finite; [reflexivity |].
    rewrite EA, EB. destruct (abs_bounds a). destruct (abs_bounds b).
    pose proof (pow2_pos 1000). apply Qabs_Qle_condition. split; lra. }
  assert (Hval : round (coerced stop + - coerced start) == round (b - a)).
  { apply round_comp. rewrite EA, EB. reflexivity. }
  cbn [py_sub PyArith_number].
  destruct stop as [zb | fb], start as [za | fa];
    [left | right | right | right];
    try (eexists; split; [exact Hfloat | exact Hval]).
  exists (zb - za)%Z. split; [reflexivity |].
  simpl in Hva, Hvb. inversion Hva. inversion Hvb.
  unfold Zminus. rewrite inject_Z_plus, inject_Z_opp. reflexivity.
Qed.

Lemma round_1 : round (inject_Z 1) == 1.
Proof. vm_compute. reflexivity. Qed.

Lemma divisor_run np n :
  integer_of np = Some n -> (2 <= n <= 2 ^ 53)%Z ->
  PyNumber.to_int np = inr n /\
  (py_sub (PyArith := PyArith_number) np (PInt 1) = PInt (n - 1) \/
   exists M,
     py_sub (PyArith := PyArith_number) np (PInt 1) = PFloat (Num M) /\
     M == inject_Z (n - 1)).
Proof.
  intros Hnp Hn.
  destruct (integer_value np n Hnp) as [-> | (q & -> & Hq & Ht)].
  - split; [reflexivity |]. left. reflexivity.
  - split; [exact Ht |]. right.
    cbn [py_sub PyArith_number PyNumber.arith PyNumber.to_float].
    rewrite (fin_int 1) by (simpl; lia). unfold b64_sub. cbn [b64_opp b64_add].
    assert (Hm : q + - round (inject_Z 1) == inject_Z (n - 1)).
    { rewrite round_1, Hq. unfold Zminus. rewrite inject_Z_plus. reflexivity. }
    assert (Hb : Qabs (q + - round (inject_Z 1)) <= 64 * pow2 1000).
    { rewrite Hm. destruct large_bound as [L1 L2].
      pose proof (int_abs (n - 1) (2 ^ 53) ltac:(lia)) as Hi.
      rewrite <- (pow2_Z 53) in Hi by lia. pose proof (pow2_pos 1000). lra. }
    rewrite (fin_finite _ Hb). eexists. split; [reflexivity |].
    rewrite (round_comp _ _ Hm). apply round_small_int. lia.
Qed.

(** ** The increment *)

Lemma increment_run start stop np a b n :
  value_of start = Some a -> value_of stop = Some b ->
  integer_of np = Some n ->
  is_binary64 a = true -> is_binary64 b = true ->
  Qabs a <= pow2 1000 -> Qabs b <= pow2 1000 ->
  (2 <= n <= 2 ^ 53)%Z ->
  exists s inc,
    (s == b - a \/ s == round (b - a)) /\
    inc == round (s / inject_Z (n - 1)) /\
    py_truediv (PyArith := PyArith_number)
      (py_sub (PyArith := PyArith_number) stop start)
      (py_sub (PyArith := PyArith_number) np
              (py_of_int (PyArith := PyArith_number) 1))
    = inr (PFloat (Num inc)).
Proof.
  intros Hva Hvb Hnp Hba Hbb Ha Hb Hn.
  destruct (coerced_value start a Hva Hba Ha) as (_ & _ & EA).
  pose proof (is_binary64_round a Hba) as Hrep.
  set (m := inject_Z (n - 1)).
  assert (Hm1 : 1 <= m).
  { unfold m. change 1 with (inject_Z 1). rewrite <- Zle_Qle. lia. }
  (* whatever the span [s], the quotient stays finite *)
  assert (Hquot : forall s,
             (s == b - a \/ s == round (b - a)) ->
             Qabs s <= 64 * pow2 1000 /\ Qabs (s / m) <= 64 * pow2 1000).
  { intros s Hs.
    destruct (magnitudes a b s (round (s / m)) (coerced start) n
                         EA Ha Hb Hn Hs (Qeq_refl _))
      as (_ & H1 & H2 & _).
    split; assumption. }
  assert (Hmz : ~ m == 0) by lra.
  cbn [py_of_int PyArith_number].
  destruct (divisor_run np n Hnp Hn) as (_ & [Hdiv | (M & Hdiv & HM)]);
    rewrite Hdiv;
    destruct (span_run start stop a b Hva Hvb Hba Hbb Ha Hb)
      as [(d & Hspan & Hd) | (sf & Hspan & Hsf)];
    rewrite Hspan.
  - (* int / int *)
    exists (inject_Z d), (round (inject_Z d / m)).
    split; [left; exact Hd |]. split; [reflexivity |].
    destruct (Hquot (inject_Z d) (or_introl Hd)) as [_ Hq].
    cbn [py_truediv PyArith_number PyNumber.truediv].
    destruct (n - 1 =? 0)%Z eqn:Hz; [apply Z.eqb_eq in Hz; lia |].
    fold m. now rewrite (fin_finite _ Hq).
  - (* float / int *)
    exists sf, (round (sf / round m)).
    split; [right; exact Hsf |].
    assert (Hrm : round m == m) by (apply round_small_int; lia).
    split; [apply round_comp; now rewrite Hrm |].
    destruct (Hquot sf (or_intror Hsf)) as [_ Hq].
    cbn [py_truediv PyArith_number].
    apply float_division.
    + exact I.
    + reflexivity.
    + apply float_of_int. fold m.
      assert (Hmb : Qabs m <= inject_Z (2 ^ 53))
        by (apply int_abs; lia).
      rewrite <- (pow2_Z 53) in Hmb by lia.
      destruct large_bound. pose proof (pow2_pos 1000). lra.
    + fold m. rewrite Hrm. exact Hmz.
    + fold m. now rewrite Hrm.
  - (* int / float *)
    exists (round (inject_Z d)), (round (round (inject_Z d) / M)).
    assert (Hs : round (inject_Z d) == round (b - a))
      by (now apply round_comp).
    split; [right; exact Hs |].
    split; [apply round_comp; now rewrite HM |].
    destruct (Hquot (inject_Z d) (or_introl Hd)) as [Hd64 _].
    destruct (Hquot _ (or_intror Hs)) as [_ Hq].
    cbn [py_truediv PyArith_number].
    apply float_division.
    + exact I.
    + now apply float_of_int.
    + reflexivity.
    + rewrite HM. exact Hmz.
    + now rewrite HM.
  - (* float / float *)
    exists sf, (round (sf / M)).
    split; [right; exact Hsf |].
    split; [apply round_comp; now rewrite HM |].
    destruct (Hquot sf (or_intror Hsf)) as [_ Hq].
    cbn [py_truediv PyArith_number].
    apply float_division.
    + exact I.
    + reflexivity.
    + reflexivity.
    + rewrite HM. exact Hmz.
    + now rewrite HM.
Qed.

(** ** The list *)

Lemma range_bounds n i : In i (VNAImpl.range n) -> (0 <= i <= n - 1)%Z.
Proof.
  unfold VNAImpl.range. intros Hin. apply in_map_iff in Hin.
  destruct Hin as (k & <- & Hk). apply in_seq in Hk. lia.
Qed.

Lemma freq_list_number_run (d : dict pynum) start stop np a b n :
  get "freq_start" d = Some start ->
  get "freq_stop" d = Some stop ->
  get "num_points" d = Some np ->
  value_of start = Some a -> value_of stop = Some b ->
  integer_of np = Some n ->
  is_binary64 a = true -> is_binary64 b = true ->
  Qabs a <= pow2 1000 -> Qabs b <= pow2 1000 ->
  (2 <= n <= 2 ^ 53)%Z ->
  exists A s inc,
    A == a /\
    (s == b - a \/ s == round (b - a)) /\
    inc == round (s / inject_Z (n - 1)) /\
    VNAImpl.freq_list (H := PyArith_number) d
    = inr (map (fun i => PFloat (Num (point A inc i))) (VNAImpl.range n)).
Proof.
  intros Hstart Hstop Hpoints Hva Hvb Hnp Hba Hbb Ha Hb Hn.
  destruct (coerced_value start a Hva Hba Ha) as (TA & _ & EA).
  destruct (increment_run start stop np a b n Hva Hvb Hnp Hba Hbb Ha Hb Hn)
    as (s & inc & Hs & Hinc & Hdiv).
  destruct (divisor_run np n Hnp Hn) as (Hcount & _).
  exists (coerced start), s, inc.
  split; [exact EA |]. split; [exact Hs |]. split; [exact Hinc |].
  unfold VNAImpl.freq_list, lookup. rewrite Hstop, Hstart, Hpoints, Hdiv.
  cbn [py_to_int PyArith_number]. rewrite Hcount.
  rewrite fold_append_map. simpl app. f_equal.
  apply map_ext_in. intros i Hi. apply range_bounds in Hi.
  destruct (magnitudes a b s inc (coerced start) n EA Ha Hb Hn Hs Hinc)
    as (_ & _ & _ & Hmag).
  destruct (Hmag i Hi) as [H1 H2].
  apply entry_run; [exact TA | lia | exact H1 | exact H2].
Qed.


(** ** The reference model against the primitive floats *)

Lemma reference_model_agrees_on_samples :
  forallb agrees_on binary64_samples = true.
Proof. vm_compute. reflexivity. Qed.

(** The runs of [freq_list] computed in the model are those of the
    primitive floats: the repeated value between neighbouring bounds, the
    specification's example from [int] settings, and twenty points from
    [0.5] to the [int] [10]. *)
Lemma reference_model_agrees_on_runs :
  run_to_prim (VNAImpl.freq_list (H := PyArith_number) narrow_numbers)
  = VNAImpl.freq_list narrow_store /\
  run_to_prim (VNAImpl.freq_list (H := PyArith_number) example_numbers)
  = VNAImpl.freq_list example_store_float /\
  run_to_prim (VNAImpl.freq_list (H := PyArith_number) mixed_numbers)
  = VNAImpl.freq_list
      [("freq_start", 0.5%float); ("freq_stop", 10%float);
       ("num_points", 20%float)].
Proof. repeat split; vm_compute; reflexivity. Qed.

(** Without a bound on the magnitudes the entries are lost altogether:
    when [freq_stop - freq_start] overflows, the increment is infinite,
    [0 * inc] is not a number and the other entries are infinite. *)
Lemma span_overflow_loses_the_entries :
  VNAImpl.freq_list
    [("freq_start", (-0x1.fffffffffffffp+1023)%float);
     ("freq_stop", 0x1.fffffffffffffp+1023%float);
     ("num_points", 3%float)]
  = inr [nan; infinity; infinity].
Proof. vm_compute. reflexivity. Qed.

(** ** The frequency list in binary64 *)

(** C2, amended. For every store holding [freq_start] and [freq_stop] that
    are binary64 values of magnitude at most [2 ^ 1000] (floats, or [int]s
    that binary64 holds exactly) and an integer [num_points] with
    [2 <= num_points <= 2 ^ 53] (an [int], or a float without fractional
    part), [freq_list], computed as Python computes it in binary64, returns
    exactly [num_points] finite values; they are non-decreasing when
    [freq_stop > freq_start] (neighbouring values can coincide) and all
    equal to [freq_start] when the bounds are equal; the first is
    [freq_start] and the last is within [tolerance] of [freq_stop]. *)
Theorem freq_list_in_binary64
        (d : dict pynum) (start stop points : pynum) (a b : Q) (n : Z) :
  get "freq_start" d = Some start ->
  get "freq_stop" d = Some stop ->
  get "num_points" d = Some points ->
  value_of start = Some a ->
  value_of stop = Some b ->
  integer_of points = Some n ->
  is_binary64 a = true ->
  is_binary64 b = true ->
  Qabs a <= pow2 1000 ->
  Qabs b <= pow2 1000 ->
  (2 <= n <= 2 ^ 53)%Z ->
  exists li : list Q,
    VNAImpl.freq_list (H := PyArith_number) d
    = inr (map (fun q => PFloat (Num q)) li) /\
    List.length li = Z.to_nat n /\
    (a < b -> chain Qle li) /\
    (a == b -> Forall (fun x => x == a) li) /\
    nth 0 li 0 == a /\
    Qabs (last li 0 - b) <= tolerance a b n.
Proof.
  intros Hstart Hstop Hpoints Hva Hvb Hnp Hba Hbb Ha Hb Hn.
  destruct (freq_list_number_run d start stop points a b n
              Hstart Hstop Hpoints Hva Hvb Hnp Hba Hbb Ha Hb Hn)
    as (A & s & inc & HA & Hs & Hinc & Hrun).
  pose proof (is_binary64_round a Hba) as Hrep.
  exists (map (fun k => point A inc (Z.of_nat k)) (seq 0 (Z.to_nat n))).
  split; [| split; [| split; [| split; [| split]]]].
  - rewrite Hrun. unfold VNAImpl.range. now rewrite !map_map.
  - now rewrite length_map, length_seq.
  - intros Hab. apply chain_map_seq. intros k.
    rewrite Nat2Z.inj_succ. unfold Z.succ.
    apply (point_mono a b s inc A n); first [assumption | lra | lia].
  - intros Hab. apply Forall_forall. intros x Hx.
    apply in_map_iff in Hx. destruct Hx as (k & <- & _).
    apply (point_constant a b s inc A n); assumption.
  - destruct (Z.to_nat n) as [| k] eqn:Hk; [lia |]. simpl nth.
    apply (point_first a); assumption.
  - destruct (Z.to_nat n) as [| k] eqn:Hk; [lia |].
    rewrite last_map_seq. replace (Z.of_nat k) with (n - 1)%Z by lia.
    apply (point_last a b s inc A n); assumption.
Qed.

(** Three stores: the neighbouring float bounds on which strict increase
    fails, the example's settings as [int]s, and a float start with an
    [int] stop. *)
Lemma freq_list_in_binary64_examples :
  (exists li,
      VNAImpl.freq_list (H := PyArith_number) narrow_numbers
      = inr (map (fun q => PFloat (Num q)) li) /\
      List.length li = 3%nat /\
      chain Qle li /\
      nth 0 li 0 == 10000000000000000 # 1 /\
      Qabs (last li 0 - (10000000000000002 # 1))
      <= tolerance (10000000000000000 # 1) (10000000000000002 # 1) 3) /\
  (exists li,
      VNAImpl.freq_list (H := PyArith_number) example_numbers
      = inr (map (fun q => PFloat (Num q)) li) /\
      List.length li = 3%nat /\
      chain Qle li /\
      nth 0 li 0 == inject_Z 1000000000 /\
      Qabs (last li 0 - inject_Z 2000000000)
      <= tolerance (inject_Z 1000000000) (inject_Z 2000000000) 3) /\
  (exists li,
      VNAImpl.freq_list (H := PyArith_number) mixed_numbers
      = inr (map (fun q => PFloat (Num q)) li) /\
      List.length li = 20%nat /\
      chain Qle li /\
      nth 0 li 0 == 1 # 2 /\
      Qabs (last li 0 - inject_Z 10) <= tolerance (1 # 2) (inject_Z 10) 20).
Proof.
  assert (Hsmall : forall q, Qle_bool (Qabs q) (pow2 1000) = true ->
                             Qabs q <= pow2 1000).
  { intros q. apply Qle_bool_imp_le. }
  split; [| split].
  - assert (Ha : Qabs (10000000000000000 # 1) <= pow2 1000)
      by (apply Hsmall; vm_compute; reflexivity).
    assert (Hb : Qabs (10000000000000002 # 1) <= pow2 1000)
      by (apply Hsmall; vm_compute; reflexivity).
    assert (Hn : (2 <= 3 <= 2 ^ 53)%Z) by (vm_compute; split; discriminate).
    assert (Hba : is_binary64 (10000000000000000 # 1) = true)
      by (vm_compute; reflexivity).
    assert (Hbb : is_binary64 (10000000000000002 # 1) = true)
      by (vm_compute; reflexivity).
    assert (Hlt : 10000000000000000 # 1 < 10000000000000002 # 1)
      by (vm_compute; reflexivity).
    destruct (freq_list_in_binary64 narrow_numbers _ _ _ _ _ 3
                eq_refl eq_refl eq_refl eq_refl eq_refl eq_refl
                Hba Hbb Ha Hb Hn)
      as (li & Hrun & Hlen & Hinc & _ & Hfirst & Hlast).
    exists li. repeat split; try assumption. exact (Hinc Hlt).
  - assert (Ha : Qabs (inject_Z 1000000000) <= pow2 1000)
      by (apply Hsmall; vm_compute; reflexivity).
    assert (Hb : Qabs (inject_Z 2000000000) <= pow2 1000)
      by (apply Hsmall; vm_compute; reflexivity).
    assert (Hn : (2 <= 3 <= 2 ^ 53)%Z) by (vm_compute; split; discriminate).
    assert (Hba : is_binary64 (inject_Z 1000000000) = true)
      by (vm_compute; reflexivity).
    assert (Hbb : is_binary64 (inject_Z 2000000000) = true)
      by (vm_compute; reflexivity).
    assert (Hlt : inject_Z 1000000000 < inject_Z 2000000000)
      by (vm_compute; reflexivity).
    destruct (freq_list_in_binary64 example_numbers _ _ _ _ _ 3
                eq_refl eq_refl eq_refl eq_refl eq_refl eq_refl
                Hba Hbb Ha Hb Hn)
      as (li & Hrun & Hlen & Hinc & _ & Hfirst & Hlast).
    exists li. repeat split; try assumption. exact (Hinc Hlt).
  - assert (Ha : Qabs (1 # 2) <= pow2 1000)
      by (apply Hsmall; vm_compute; reflexivity).
    assert (Hb : Qabs (inject_Z 10) <= pow2 1000)
      by (apply Hsmall; vm_compute; reflexivity).
    assert (Hn : (2 <= 20 <= 2 ^ 53)%Z) by (vm_compute; split; discriminate).
    assert (Hba : is_binary64 (1 # 2) = true) by (vm_compute; reflexivity).
    assert (Hbb : is_binary64 (inject_Z 10) = true)
      by (vm_compute; reflexivity).
    assert (Hlt : 1 # 2 < inject_Z 10) by (vm_compute; reflexivity).
    destruct (freq_list_in_binary64 mixed_numbers _ _ _ _ _ 20
                eq_refl eq_refl eq_refl eq_refl eq_refl eq_refl
                Hba Hbb Ha Hb Hn)
      as (li & Hrun & Hlen & Hinc & _ & Hfirst & Hlast).
    exists li. repeat split; try assumption. exact (Hinc Hlt).
Defined.

End Binary64Frequencies.

(** C6, as stated, fails: [freq_list] has no guard.  With one point the
    division by [num_points - 1] is reached and raises
    [ZeroDivisionError]; with no point the empty list is returned. *)
Lemma single_point_reaches_the_division :
  VNAImpl.freq_list one_point_store = inl ZeroDivisionError /\
  VNAImpl.freq_list no_point_store = inr [] /\
  ~ explicitly_rejected (VNAImpl.freq_list one_point_store) /\
  ~ explicitly_rejected (VNAImpl.freq_list no_point_store).
Proof.
  assert (H1 : VNAImpl.freq_list one_point_store = inl ZeroDivisionError)
    by (vm_compute; reflexivity).
  assert (H0 : VNAImpl.freq_list no_point_store = inr [])
    by (vm_compute; reflexivity).
  repeat split; try assumption.
  - rewrite H1. intros (e & He & Hne). inversion He. congruence.
  - rewrite H0. intros (e & He & _). discriminate.
Qed.

(** C6, amended. [freq_list] does not reject [num_points < 2]: with
    [num_points == 1] it reaches the division by [num_points - 1] and
    fails with that division's [ZeroDivisionError]; with an integer
    [num_points <= 0] it returns the empty list without failing. *)
Theorem freq_list_below_two_points (d : dict Q) (a b : Q) (n : Z) :
  get "freq_start" d = Some a ->
  get "freq_stop" d = Some b ->
  get "num_points" d = Some (inject_Z n) ->
  (n < 2)%Z ->
  (n = 1%Z -> VNAImpl.freq_list d = inl ZeroDivisionError) /\
  (n <= 0 -> VNAImpl.freq_list d = inr [])%Z /\
  ~ explicitly_rejected (VNAImpl.freq_list d).
Proof.
  intros Hstart Hstop Hpoints Hn.
  assert (H1 : n = 1%Z -> VNAImpl.freq_list d = inl ZeroDivisionError).
  { intros E1. exact (freq_list_exact_zero_division a b n d
                      Hstart Hstop Hpoints E1). }
  assert (H0 : (n <= 0)%Z -> VNAImpl.freq_list d = inr []).
  { intros Hle.
    rewrite (freq_list_exact_run a b n d Hstart Hstop Hpoints); [| lia].
    replace (Z.to_nat n) with 0%nat by lia. reflexivity. }
  repeat split; try assumption.
  intros (e & He & Hne).
  destruct (Z.eq_dec n 1) as [E1 | E1].
  - rewrite (H1 E1) in He. inversion He. congruence.
  - rewrite H0 in He; [discriminate | lia].
Qed.

(** One point, in exact arithmetic. *)
Lemma freq_list_one_point_exact :
  VNAImpl.freq_list
    [("freq_start", inject_Z 1000000000); ("freq_stop", inject_Z 2000000000);
     ("num_points", inject_Z 1)] = inl ZeroDivisionError.
Proof.
  assert (H1 : (1 < 2)%Z) by lia.
  destruct (freq_list_below_two_points
              [("freq_start", inject_Z 1000000000);
               ("freq_stop", inject_Z 2000000000);
               ("num_points", inject_Z 1)]
              (inject_Z 1000000000) (inject_Z 2000000000) 1
              eq_refl eq_refl eq_refl H1) as (Hone & _ & _).
  exact (Hone eq_refl).
Defined.

(** The same in binary64, for every pair of bounds. *)
Lemma binary64_below_two_points (d : dict float) (a b : float) :
  get "freq_start" d = Some a ->
  get "freq_stop" d = Some b ->
  (get "num_points" d = Some 1%float ->
   VNAImpl.freq_list d = inl ZeroDivisionError) /\
  (get "num_points" d = Some 0%float ->
   PrimFloat.eqb (PrimFloat.sub 0 1) 0 = false /\
   VNAImpl.freq_list d = inr []).
Proof.
  intros Hstart Hstop. split; intros Hpoints.
  - unfold VNAImpl.freq_list, lookup. rewrite Hstop, Hstart, Hpoints.
    reflexivity.
  - split; [reflexivity |].
    unfold VNAImpl.freq_list, lookup. rewrite Hstop, Hstart, Hpoints.
    reflexivity.
Qed.

(** * Further properties of the device core *)

(** ** Vocabulary *)

(** [pre] is what [whole] starts with. *)
Definition prefix_of {A} (pre whole : list A) : Prop :=
  exists rest, whole = pre ++ rest.

(** The attributes [VNA.initialize] sets on its session. *)
Definition line_settings (v : VNA) : option (string * string * Z) :=
  match resource v with
  | Some r => Some (read_termination r, write_termination r, timeout r)
  | None => None
  end.

(** The setup commands of range discovery, in the order they are written. *)
Definition discovery_setup : list Event :=
  [Sent "SYSTEM:FPRESET";
   Sent "CALCULATE1:PARAMETER:DEFINE 'parameter_S21', S21";
   Sent "INITIATE:CONTINUOUS OFF";
   Sent "TRIGGER:SOURCE MANUAL";
   Sent "SENSE1:SWEEP:MODE HOLD";
   Sent "SENSE1:AVERAGE OFF";
   Sent "SENSE1:SWEEP:TYPE LINEAR"].

(** The limit queries of range discovery, in the order they are issued. *)
Definition discovery_queries : list Event :=
  [Asked "SENSE1:SWEEP:POINTS? MIN"; Asked "SENSE1:SWEEP:POINTS? MAX";
   Asked "SENSE1:BANDWIDTH? MIN"; Asked "SENSE1:BANDWIDTH? MAX";
   Asked "SENSE1:FREQUENCY:START? MIN"; Asked "SENSE1:FREQUENCY:START? MAX";
   Asked "SENSE1:FREQUENCY:STOP? MIN"; Asked "SENSE1:FREQUENCY:STOP? MAX";
   Asked "SOURCE1:POWER1? MIN"; Asked "SOURCE1:POWER1? MAX"].

(** The commands of [VNA.initialize] that do not depend on the store. *)
Definition initialize_preamble : list Event :=
  [Asked "*IDN?";
   Sent "SYSTEM:FPRESET";
   Sent "DISPLAY:VISIBLE OFF";
   Sent "CALCULATE1:PARAMETER:DEFINE 'parameter_S11', S11";
   Sent "CALCULATE1:PARAMETER:DEFINE 'parameter_S12', S12";
   Sent "CALCULATE1:PARAMETER:DEFINE 'parameter_S21', S21";
   Sent "CALCULATE1:PARAMETER:DEFINE 'parameter_S22', S22";
   Sent "INITIATE:CONTINUOUS OFF";
   Sent "TRIGGER:SOURCE MANUAL";
   Sent "SENSE1:SWEEP:MODE HOLD";
   Sent "SENSE1:AVERAGE OFF";
   Sent "SENSE1:SWEEP:TYPE LINEAR"].

(** The commands of [VNA.initialize] that carry the store's settings. *)
Definition initialize_settings {V} `{PyValue V}
           (points : Z) (ifbw start stop power : V) : list Event :=
  [Sent ("SENSE1:SWEEP:POINTS " +++ py_str_int points);
   Sent ("SENSE1:BANDWIDTH " +++ py_str ifbw);
   Sent ("SENSE1:FREQUENCY:START " +++ py_str start);
   Sent ("SENSE1:FREQUENCY:STOP " +++ py_str stop);
   Sent ("SOURCE1:POWER1 " +++ py_str power +++ "DBM")].

(** An open session with a planned answer to every query. *)
Definition talkative : Resource :=
  mkResource [] true "" "" 2000 [] (fun seen_so_far cmd => cmd +++ " ok").

(** The answer the instrument gives to the [i]-th limit query of range
    discovery on the session [r]. *)
Definition discovery_answer (r : Resource) (i : nat) : string :=
  match nth_error discovery_queries i with
  | Some (Asked cmd) =>
      instrument r (traffic r ++ discovery_setup ++ firstn i discovery_queries)
                 cmd
  | _ => ""
  end.

(** From the session [r0], the controller has reached [v]: the instrument
    has seen [evs] more and answers as before, the session is free of
    faults and has the line settings [ls], and the controller's own
    attributes are [nm], [sp] and [pr]. *)
Definition staged (r0 : Resource) (evs : list Event) (nm : string)
           (sp : list string) (pr : dict ParameterRange)
           (ls : string * string * Z) (v : VNA) : Prop :=
  name v = nm /\ sp_to_measure v = sp /\ p_ranges v = pr /\
  exists r,
    resource v = Some r /\ fault_free r = true /\
    traffic r = traffic r0 ++ evs /\ instrument r = instrument r0 /\
    (read_termination r, write_termination r, timeout r) = ls.

(** ** Running the analyzer on a fault-free session, attribute by attribute *)

Lemma staged_start r nm sp pr :
  fault_free r = true ->
  staged r [] nm sp pr (read_termination r, write_termination r, timeout r)
         (mkVNA (Some r) nm sp pr).
Proof.
  intros Hff. repeat split. exists r. simpl. rewrite app_nil_r. auto.
Qed.

Lemma staged_reached r0 evs nm sp pr ls v v0 :
  resource v0 = Some r0 -> staged r0 evs nm sp pr ls v -> reached v0 evs sp v.
Proof.
  intros H0 (_ & Hsp & _ & r & Hr & Hff & Htr & _).
  unfold reached, healthy, seen. simpl get_resource. rewrite Hr, H0. auto.
Qed.

Lemma transport_staged {A} ev (answer : Resource -> A) r0 evs nm sp pr ls v
      (post : A -> VNA -> Prop) :
  staged r0 evs nm sp pr ls v ->
  (forall r v',
      traffic r = traffic r0 ++ evs -> instrument r = instrument r0 ->
      staged r0 (evs ++ [ev]) nm sp pr ls v' -> post (answer r) v') ->
  yields (on_resource (Session.transport ev answer)) v post.
Proof.
  intros (Hnm & Hsp & Hpr & r & Hr & Hff & Htr & Hin & Hls) Hpost.
  unfold yields, on_resource. simpl get_resource.
  rewrite Hr, (transport_delivers _ _ _ Hff).
  eexists _, _. split; [reflexivity |].
  apply Hpost; try assumption.
  repeat split; try assumption.
  exists (deliver ev r). simpl. repeat split; try assumption.
  - now apply fault_free_deliver.
  - rewrite Htr. now rewrite app_assoc.
Qed.

Lemma write_staged cmd r0 evs nm sp pr ls v (post : unit -> VNA -> Prop) :
  staged r0 evs nm sp pr ls v ->
  (forall v', staged r0 (evs ++ [Sent cmd]) nm sp pr ls v' -> post tt v') ->
  yields (VNAImpl.write cmd) v post.
Proof.
  intros Hst Hpost. unfold VNAImpl.write, Session.write.
  eapply transport_staged; [exact Hst |]. intros r v' _ _. apply Hpost.
Qed.

Lemma query_staged cmd r0 evs nm sp pr ls v (post : string -> VNA -> Prop) :
  staged r0 evs nm sp pr ls v ->
  (forall v',
      staged r0 (evs ++ [Asked cmd]) nm sp pr ls v' ->
      post (instrument r0 (traffic r0 ++ evs) cmd) v') ->
  yields (VNAImpl.query cmd) v post.
Proof.
  intros Hst Hpost. unfold VNAImpl.query, Session.query.
  eapply transport_staged; [exact Hst |]. intros r v' Htr Hin Hst'.
  rewrite Htr, Hin. now apply Hpost.
Qed.

Lemma configure_staged f g r0 evs nm sp pr ls v (post : unit -> VNA -> Prop) :
  (forall r,
      traffic (f r) = traffic r /\ fault_free (f r) = fault_free r /\
      instrument (f r) = instrument r /\
      (read_termination (f r), write_termination (f r), timeout (f r))
      = g (read_termination r, write_termination r, timeout r)) ->
  staged r0 evs nm sp pr ls v ->
  (forall v', staged r0 evs nm sp pr (g ls) v' -> post tt v') ->
  yields (VNAImpl.configure f) v post.
Proof.
  intros Hf (Hnm & Hsp & Hpr & r & Hr & Hff & Htr & Hin & Hls) Hpost.
  unfold yields, VNAImpl.configure, on_resource. simpl get_resource.
  rewrite Hr. eexists _, _. split; [reflexivity |].
  apply Hpost. repeat split; try assumption.
  exists (f r). destruct (Hf r) as (H1 & H2 & H3 & H4).
  simpl. rewrite H1, H2, H3, H4, Hls. auto.
Qed.

Lemma modify_staged (f : VNA -> VNA) r0 evs nm sp pr ls nm' sp' pr' v
      (post : unit -> VNA -> Prop) :
  (forall w, resource (f w) = resource w) ->
  (forall w, name w = nm -> sp_to_measure w = sp -> p_ranges w = pr ->
             name (f w) = nm' /\ sp_to_measure (f w) = sp'
             /\ p_ranges (f w) = pr') ->
  staged r0 evs nm sp pr ls v ->
  (forall v', staged r0 evs nm' sp' pr' ls v' -> post tt v') ->
  yields (Py.modify f) v post.
Proof.
  intros Hres Hf (Hnm & Hsp & Hpr & Hrest) Hpost.
  apply yields_modify. apply Hpost.
  destruct (Hf v Hnm Hsp Hpr) as (H1 & H2 & H3).
  repeat split; try assumption. now rewrite Hres.
Qed.

(** One statement of a method of the analyzer on a fault-free session. *)
Ltac staged_step :=
  lazymatch goal with
  | |- yields (Py.bind _ _) _ _ => apply yields_bind
  | Hs : staged _ _ _ _ _ _ ?v |- yields (VNAImpl.write _) ?v _ =>
      eapply write_staged; [exact Hs | clear Hs; intros ? Hs; cbv beta]
  | Hs : staged _ _ _ _ _ _ ?v |- yields (VNAImpl.query _) ?v _ =>
      eapply query_staged; [exact Hs | clear Hs; intros ? Hs; cbv beta]
  | Hs : staged _ _ _ _ _ _ ?v
    |- yields (VNAImpl.configure (set_read_termination ?t)) ?v _ =>
      eapply (configure_staged _ (fun ls => (t, snd (fst ls), snd ls)));
      [ intros ?; repeat split | exact Hs
      | clear Hs; intros ? Hs; cbv beta; cbn [fst snd] in Hs ]
  | Hs : staged _ _ _ _ _ _ ?v
    |- yields (VNAImpl.configure (set_write_termination ?t)) ?v _ =>
      eapply (configure_staged _ (fun ls => (fst (fst ls), t, snd ls)));
      [ intros ?; repeat split | exact Hs
      | clear Hs; intros ? Hs; cbv beta; cbn [fst snd] in Hs ]
  | Hs : staged _ _ _ _ _ _ ?v
    |- yields (VNAImpl.configure (set_timeout ?ms)) ?v _ =>
      eapply (configure_staged _ (fun ls => (fst ls, ms)));
      [ intros ?; repeat split | exact Hs
      | clear Hs; intros ? Hs; cbv beta; cbn [fst snd] in Hs ]
  | Hs : staged _ _ _ _ _ _ ?v |- yields (VNAImpl.set_name _) ?v _ =>
      eapply modify_staged;
      [ intros ?; reflexivity
      | intros ? ? ? ?; cbn; split; [reflexivity | split; eassumption]
      | exact Hs | clear Hs; intros ? Hs; cbv beta ]
  | Hs : staged _ _ _ _ _ _ ?v |- yields (VNAImpl.set_p_range _ _) ?v _ =>
      eapply modify_staged;
      [ intros ?; reflexivity
      | intros ? ? ? Hpr; cbn; rewrite Hpr;
        split; [eassumption | split; [eassumption | reflexivity]]
      | exact Hs | clear Hs; intros ? Hs; cbv beta ]
  | |- yields (Py.lift (inr _)) _ _ => apply yields_lift; cbv beta
  | |- yields (Py.ret _) _ _ => apply yields_ret; cbv beta
  | |- yields (Py.gets _) _ _ => apply yields_gets; cbv beta
  end.

(** ** Construction of the analyzer: range discovery *)

Section Discovery.

Variable parse_int : string -> Exn + Z.
Variable parse_float : string -> Exn + float.

(** X1. On an open, fault-free session whose answers to the ten MIN/MAX
    queries are accepted by [int()] (the two point limits) and [float()]
    (the other eight), constructing the analyzer returns.  The instrument
    has then seen the seven setup commands followed by the ten queries, in
    that order; [p_ranges] holds exactly the five settings, each with the
    parsed answer to its MIN query first and to its MAX query second (no
    comparison of the two is made); the acquisition list is empty and both
    line terminators are the newline. *)
Theorem construction_discovers_ranges
        (r : Resource) (lo0 hi0 : Z)
        (lo1 hi1 lo2 hi2 lo3 hi3 lo4 hi4 : float) :
  fault_free r = true ->
  parse_int (discovery_answer r 0) = inr lo0 ->
  parse_int (discovery_answer r 1) = inr hi0 ->
  parse_float (discovery_answer r 2) = inr lo1 ->
  parse_float (discovery_answer r 3) = inr hi1 ->
  parse_float (discovery_answer r 4) = inr lo2 ->
  parse_float (discovery_answer r 5) = inr hi2 ->
  parse_float (discovery_answer r 6) = inr lo3 ->
  parse_float (discovery_answer r 7) = inr hi3 ->
  parse_float (discovery_answer r 8) = inr lo4 ->
  parse_float (discovery_answer r 9) = inr hi4 ->
  exists v,
    VNAImpl.__init__ parse_int parse_float (Some r) = (inr tt, v) /\
    p_ranges v = [("num_points", IntRange lo0 hi0);
                  ("ifbw", FloatRange lo1 hi1);
                  ("freq_start", FloatRange lo2 hi2);
                  ("freq_stop", FloatRange lo3 hi3);
                  ("power", FloatRange lo4 hi4)] /\
    seen v = traffic r ++ discovery_setup ++ discovery_queries /\
    sp_to_measure v = [] /\ name v = "" /\ healthy v = true /\
    line_settings v = Some (LF, LF, timeout r).
Proof.
  intros Hff H0 H1 H2 H3 H4 H5 H6 H7 H8 H9.
  pose proof (staged_start r "" [] [] Hff) as Hs.
  enough (Hy : yields (VNAImpl._set_parameter_ranges parse_int parse_float)
                 (mkVNA (Some r) "" [] [])
                 (fun _ v =>
                    staged r (discovery_setup ++ discovery_queries) "" []
                           [("num_points", IntRange lo0 hi0);
                            ("ifbw", FloatRange lo1 hi1);
                            ("freq_start", FloatRange lo2 hi2);
                            ("freq_stop", FloatRange lo3 hi3);
                            ("power", FloatRange lo4 hi4)]
                           (LF, LF, timeout r) v)).
  { destruct Hy as ([] & v & Hrun & Hnm & Hsp & Hpr & r' & Hr' & Hff'
                    & Htr & _ & Hls).
    exists v.
    unfold VNAImpl.__init__, seen, healthy, line_settings.
    simpl get_resource. rewrite Hrun, Hr', Htr, Hls.
    repeat split; assumption. }
  unfold VNAImpl._set_parameter_ranges.
  unfold VNAImpl.int_range, VNAImpl.float_range.
  repeat first
         [ staged_step
         | match goal with
           | |- yields (Py.lift (parse_int ?s)) _ _ =>
               first [ change s with (discovery_answer r 0); rewrite H0
                     | change s with (discovery_answer r 1); rewrite H1 ]
           | |- yields (Py.lift (parse_float ?s)) _ _ =>
               first [ change s with (discovery_answer r 2); rewrite H2
                     | change s with (discovery_answer r 3); rewrite H3
                     | change s with (discovery_answer r 4); rewrite H4
                     | change s with (discovery_answer r 5); rewrite H5
                     | change s with (discovery_answer r 6); rewrite H6
                     | change s with (discovery_answer r 7); rewrite H7
                     | change s with (discovery_answer r 8); rewrite H8
                     | change s with (discovery_answer r 9); rewrite H9 ]
           end ].
  exact Hs.
Qed.

End Discovery.

(** [int(text)] on a text of decimal digits, [ValueError] on any other. *)
Definition int_of_answer (s : string) : Exn + Z :=
  match py_int_of_str s with
  | Some z => inr z
  | None => inl ValueError
  end.

(** [float(text)] on a text of decimal digits, [ValueError] on any other. *)
Definition float_of_answer (s : string) : Exn + float :=
  match py_int_of_str s with
  | Some z => inr (Binary64.of_int z)
  | None => inl ValueError
  end.

(** An open session whose instrument answers every MIN query with [1] and
    every other query with [20001]. *)
Definition numeric_bench : Resource :=
  mkResource [] true "" "" 2000 []
    (fun _ cmd =>
       if String.eqb (substring (String.length cmd - 3) 3 cmd) "MIN"
       then "1" else "20001").

(** Construction on [numeric_bench], with parsers that reject whatever is
    not a decimal number: every limit pair is read as [1] and [20001]. *)
Lemma construction_example :
  int_of_answer "SENSE1:SWEEP:POINTS? MIN ok" = inl ValueError /\
  exists v,
    VNAImpl.__init__ int_of_answer float_of_answer (Some numeric_bench)
    = (inr tt, v) /\
    p_ranges v = [("num_points", IntRange 1 20001);
                  ("ifbw", FloatRange 1 20001);
                  ("freq_start", FloatRange 1 20001);
                  ("freq_stop", FloatRange 1 20001);
                  ("power", FloatRange 1 20001)] /\
    seen v = discovery_setup ++ discovery_queries.
Proof.
  split; [reflexivity |].
  destruct (construction_discovers_ranges
              int_of_answer float_of_answer numeric_bench
              1%Z 20001%Z 1%float 20001%float 1%float 20001%float
              1%float 20001%float 1%float 20001%float
              eq_refl eq_refl eq_refl eq_refl eq_refl eq_refl eq_refl
              eq_refl eq_refl eq_refl eq_refl)
    as (v & Hrun & Hpr & Hseen & _).
  exists v. split; [exact Hrun |]. split; [exact Hpr | exact Hseen].
Defined.

(** ** Computations that raise *)

(** [c] started in [s] raises, and [post] holds of the exception and the
    state reached. *)
Definition raises {S A} (c : Py.M S A) (s : S) (post : Exn -> S -> Prop)
  : Prop :=
  exists e s', c s = (inl e, s') /\ post e s'.

Lemma raises_now {S A B} (c : Py.M S A) (k : A -> Py.M S B) s post :
  raises c s post -> raises (Py.bind c k) s post.
Proof.
  intros (e & s1 & Hc & Hp). exists e, s1. split; [| exact Hp].
  now apply bind_raised.
Qed.

Lemma raises_later {S A B} (c : Py.M S A) (k : A -> Py.M S B) s post :
  yields c s (fun a s' => raises (k a) s' post) -> raises (Py.bind c k) s post.
Proof.
  intros (a & s1 & Hc & e & s2 & Hk & Hp). exists e, s2. split; [| exact Hp].
  unfold Py.bind. rewrite Hc. exact Hk.
Qed.

Lemma raises_lift {S A} e s (post : Exn -> S -> Prop) :
  post e s -> raises (Py.lift (inl e : Exn + A)) s post.
Proof. intros Hp. exists e, s. split; [reflexivity | exact Hp]. Qed.

Lemma staged_here v r :
  resource v = Some r -> fault_free r = true ->
  staged r [] (name v) (sp_to_measure v) (p_ranges v)
         (read_termination r, write_termination r, timeout r) v.
Proof.
  intros Hr Hff. repeat split. exists r. rewrite app_nil_r. auto.
Qed.

Lemma staged_with_sp r0 evs nm sp sp' pr ls v :
  staged r0 evs nm sp pr ls v ->
  staged r0 evs nm sp' pr ls
         (mkVNA (resource v) (name v) sp' (p_ranges v)).
Proof. intros (Hnm & _ & Hpr & Hrest). repeat split; assumption. Qed.

(** ** [VNA.initialize]: the configuration protocol *)

(** X2. On an open, fault-free session and a store holding the five
    settings, [initialize()] returns after sending, in this order: the
    identification query, the preset, display off, the four parameter
    definitions (S11, S12, S21, S22), the trigger and sweep modes, then the
    point count as [str(int(num_points))] and bandwidth, start frequency,
    stop frequency and power (with the suffix [DBM]) as [str] of the
    stored values.  The controller's name is the instrument's answer to
    the identification query, both line terminators are the newline, the
    session timeout is 100000 ms, the discovered ranges are untouched and
    the enabled parameters are appended to the acquisition list. *)
Theorem initialize_protocol {V} `{PyValue V} (d : dict V) (v : VNA)
        (r : Resource) (n ifbw start stop power : V) (points : Z) :
  resource v = Some r ->
  fault_free r = true ->
  get "num_points" d = Some n ->
  py_int n = inr points ->
  get "ifbw" d = Some ifbw ->
  get "freq_start" d = Some start ->
  get "freq_stop" d = Some stop ->
  get "power" d = Some power ->
  exists v',
    VNAImpl.initialize d v = (inr tt, v') /\
    seen v' = traffic r ++ initialize_preamble
              ++ initialize_settings points ifbw start stop power /\
    name v' = instrument r (traffic r) "*IDN?" /\
    line_settings v' = Some (LF, LF, 100000%Z) /\
    p_ranges v' = p_ranges v /\
    sp_to_measure v'
    = sp_to_measure v ++ filter (enabled d) VNAImpl.s_params /\
    healthy v' = true.
Proof.
  intros Hr Hff Hn Hpoints Hb Hf1 Hf2 Hpw.
  pose proof (staged_here v r Hr Hff) as Hs.
  enough (Hy : yields (VNAImpl.initialize d) v
                 (fun _ v' =>
                    staged r (initialize_preamble
                              ++ initialize_settings points ifbw start stop
                                                     power)
                           (instrument r (traffic r) "*IDN?")
                           (sp_to_measure v
                            ++ filter (enabled d) VNAImpl.s_params)
                           (p_ranges v) (LF, LF, 100000%Z) v')).
  { destruct Hy as ([] & v' & Hrun & Hnm & Hsp & Hpr & r' & Hr' & Hff'
                    & Htr & _ & Hls).
    exists v'. unfold seen, healthy, line_settings. simpl get_resource.
    rewrite Hr', Htr, Hls. repeat split; assumption. }
  unfold VNAImpl.initialize, VNAImpl.setting, VNAImpl.display_on, lookup.
  rewrite Hn, Hb, Hf1, Hf2, Hpw.
  repeat staged_step. rewrite Hpoints. repeat staged_step.
  lazymatch goal with
  | Hnow : staged _ _ _ _ _ _ ?w |- _ =>
      exists tt; eexists; split; [apply enable_loop_run |];
      rewrite app_nil_r in Hnow;
      assert (Hsp : sp_to_measure w = sp_to_measure v) by apply Hnow;
      rewrite Hsp; exact (staged_with_sp _ _ _ _ _ _ _ _ Hnow)
  end.
Qed.

(** The example: the store of the specification's example on a session
    that answers every query. *)
Lemma initialize_protocol_example :
  exists v',
    VNAImpl.initialize example_store (mkVNA (Some talkative) "" [] [])
    = (inr tt, v') /\
    seen v' = initialize_preamble
              ++ [Sent "SENSE1:SWEEP:POINTS 3";
                  Sent "SENSE1:BANDWIDTH 1000";
                  Sent "SENSE1:FREQUENCY:START 1000000000";
                  Sent "SENSE1:FREQUENCY:STOP 2000000000";
                  Sent "SOURCE1:POWER1 0DBM"] /\
    name v' = "*IDN? ok" /\
    line_settings v' = Some (LF, LF, 100000%Z) /\
    sp_to_measure v' = ["S11"].
Proof.
  destruct (initialize_protocol (H := PyValue_int)
              example_store (mkVNA (Some talkative) "" [] [])
              talkative 3%Z 1000%Z 1000000000%Z 2000000000%Z 0%Z 3%Z
              eq_refl eq_refl eq_refl eq_refl eq_refl eq_refl eq_refl eq_refl)
    as (v' & Hrun & Hseen & Hname & Hls & _ & Hsp & _).
  exists v'. split; [exact Hrun |]. split; [exact Hseen |].
  split; [exact Hname |]. split; [exact Hls | exact Hsp].
Defined.

(** The settings [VNA.initialize] reads, in the order it reads them. *)
Definition required_settings : list string :=
  ["num_points"; "ifbw"; "freq_start"; "freq_stop"; "power"].

(** The first required setting the store lacks. *)
Definition first_missing {V} (d : dict V) : option string :=
  find (fun k => negb (contains k d)) required_settings.

(** One statement of a method of the analyzer that is going to raise. *)
Ltac raise_step :=
  lazymatch goal with
  | |- raises (Py.bind (Py.lift (inl _)) _) _ _ =>
      apply raises_now; apply raises_lift; cbv beta
  | |- raises (Py.bind (Py.bind (Py.lift (inl _)) _) _) _ _ =>
      apply raises_now
  | |- raises (Py.bind _ _) _ _ => apply raises_later
  | |- yields _ _ _ => staged_step
  end.

(** X3. When the store lacks one of the five settings, [initialize()] on a
    fault-free session raises [KeyError] naming the first missing one, in
    the order num_points, ifbw, freq_start, freq_stop, power.  By then the
    instrument has already received the identification query, the preset
    and the parameter definitions, followed by one settings command for
    each setting read before the missing one, so it is left partly
    configured; the acquisition list is unchanged and the session timeout
    has not been raised. *)
Theorem initialize_missing_setting {V} `{PyValue V} (d : dict V) (v : VNA)
        (r : Resource) (k : string) :
  resource v = Some r ->
  fault_free r = true ->
  (forall n, get "num_points" d = Some n -> exists p, py_int n = inr p) ->
  first_missing d = Some k ->
  exists v' evs,
    VNAImpl.initialize d v = (inl (KeyError k), v') /\
    seen v' = traffic r ++ initialize_preamble ++ evs /\
    nth_error required_settings (List.length evs) = Some k /\
    sp_to_measure v' = sp_to_measure v /\
    line_settings v' = Some (LF, LF, timeout r).
Proof.
  intros Hr Hff Hint Hmiss.
  pose proof (staged_here v r Hr Hff) as Hs.
  enough (Hy : raises (VNAImpl.initialize d) v
                 (fun e v' =>
                    e = KeyError k /\
                    exists evs,
                      nth_error required_settings (List.length evs)
                      = Some k /\
                      exists nm,
                        staged r (initialize_preamble ++ evs) nm
                               (sp_to_measure v) (p_ranges v)
                               (LF, LF, timeout r) v')).
  { destruct Hy as (e & v' & Hrun & -> & evs & Hlen & nm & _ & Hsp & _ & r'
                    & Hr' & _ & Htr & _ & Hls).
    exists v', evs. unfold seen, line_settings. simpl get_resource.
    rewrite Hr', Htr, Hls. repeat split; assumption. }
  unfold first_missing, contains in Hmiss.
  unfold VNAImpl.initialize, VNAImpl.setting, VNAImpl.display_on, lookup.
  cbn [find required_settings] in Hmiss.
  destruct (get "num_points" d) as [n |] eqn:Hn; cbn [negb] in Hmiss.
  2: { inversion Hmiss; subst k. repeat raise_step.
       split; [reflexivity |]. exists []. split; [reflexivity |].
       eexists. exact Hs. }
  destruct (Hint n eq_refl) as [p Hp].
  destruct (get "ifbw" d) as [b |] eqn:Hb; cbn [negb] in Hmiss.
  2: { inversion Hmiss; subst k. repeat raise_step. rewrite Hp.
       repeat raise_step.
       split; [reflexivity |]. eexists [_]. split; [reflexivity |].
       eexists. exact Hs. }
  destruct (get "freq_start" d) as [f1 |] eqn:Hf1; cbn [negb] in Hmiss.
  2: { inversion Hmiss; subst k. repeat raise_step. rewrite Hp.
       repeat raise_step.
       split; [reflexivity |]. eexists [_; _]. split; [reflexivity |].
       eexists. exact Hs. }
  destruct (get "freq_stop" d) as [f2 |] eqn:Hf2; cbn [negb] in Hmiss.
  2: { inversion Hmiss; subst k. repeat raise_step. rewrite Hp.
       repeat raise_step.
       split; [reflexivity |]. eexists [_; _; _]. split; [reflexivity |].
       eexists. exact Hs. }
  destruct (get "power" d) as [pw |] eqn:Hpw; cbn [negb] in Hmiss.
  2: { inversion Hmiss; subst k. repeat raise_step. rewrite Hp.
       repeat raise_step.
       split; [reflexivity |]. eexists [_; _; _; _]. split; [reflexivity |].
       eexists. exact Hs. }
  discriminate.
Qed.

(** A store without [power]. *)
Lemma initialize_missing_power_example :
  exists v' evs,
    VNAImpl.initialize
      [("num_points", 3%Z); ("ifbw", 1000%Z); ("freq_start", 1000000000%Z);
       ("freq_stop", 2000000000%Z); ("S11", 1%Z)] new_vna
    = (inl (KeyError "power"), v') /\
    seen v' = initialize_preamble ++ evs /\
    List.length evs = 4%nat /\
    sp_to_measure v' = [].
Proof.
  destruct (initialize_missing_setting (H := PyValue_int)
              [("num_points", 3%Z); ("ifbw", 1000%Z);
               ("freq_start", 1000000000%Z); ("freq_stop", 2000000000%Z);
               ("S11", 1%Z)] new_vna bench "power" eq_refl eq_refl
              (fun n _ => ex_intro _ n eq_refl) eq_refl)
    as (v' & evs & Hrun & Hseen & Hnth & Hsp & _).
  exists v', evs. split; [exact Hrun |]. split; [exact Hseen |].
  split; [| exact Hsp].
  destruct evs as [| e1 [| e2 [| e3 [| e4 [| e5 rest]]]]];
    try discriminate Hnth; [reflexivity |].
  simpl in Hnth. destruct rest; discriminate Hnth.
Defined.

(** X4. Whatever the session does and whatever the store holds, an
    [initialize()] that raises leaves the acquisition list as it was: the
    list is only extended once every command has gone through. *)
Theorem initialize_failure_keeps_acquisition_list {V} `{PyValue V}
        (d : dict V) (v v' : VNA) (e : Exn) :
  VNAImpl.initialize d v = (inl e, v') ->
  sp_to_measure v' = sp_to_measure v.
Proof.
  intros Hrun. pose proof (initialize_sp_effect d v) as Heff.
  rewrite Hrun in Heff. exact Heff.
Qed.

(** A session that was closed before the controller uses it. *)
Definition closed_bench : Resource :=
  mkResource [] false "" "" 2000 [] (fun _ _ => "").

Lemma initialize_on_closed_session_example :
  fst (VNAImpl.initialize example_store
         (mkVNA (Some closed_bench) "" ["S21"] [])) = inl InvalidSession /\
  sp_to_measure (snd (VNAImpl.initialize example_store
                        (mkVNA (Some closed_bench) "" ["S21"] [])))
  = ["S21"].
Proof.
  split; [vm_compute; reflexivity |].
  apply (initialize_failure_keeps_acquisition_list (H := PyValue_int)
           example_store (mkVNA (Some closed_bench) "" ["S21"] []) _
           InvalidSession).
  vm_compute. reflexivity.
Defined.

(** ** [VNA.fire]: the sweep *)

Lemma add_key_members ks s x :
  In x (add_key ks s) <-> In x ks \/ x = s.
Proof.
  unfold add_key. destruct (existsb (String.eqb s) ks) eqn:He.
  - apply existsb_exists in He. destruct He as (y & Hy & Hsy).
    apply String.eqb_eq in Hsy. subst y. split; [tauto |].
    intros [Hin | ->]; assumption.
  - rewrite in_app_iff. simpl. intuition congruence.
Qed.

Lemma add_key_NoDup ks s : NoDup ks -> NoDup (add_key ks s).
Proof.
  intros Hnd. unfold add_key.
  destruct (existsb (String.eqb s) ks) eqn:He; [exact Hnd |].
  apply NoDup_app; [exact Hnd | repeat constructor; simpl; tauto |].
  intros x Hx [Heq | []]. subst x.
  assert (Hex : existsb (String.eqb s) ks = true).
  { apply existsb_exists. exists s. split; [exact Hx | apply String.eqb_refl]. }
  congruence.
Qed.

Lemma add_keys_members xs :
  forall ks x, In x (fold_left add_key xs ks) <-> In x ks \/ In x xs.
Proof.
  induction xs as [| s xs IH]; intros ks x; simpl; [tauto |].
  rewrite IH, add_key_members. intuition.
Qed.

Lemma add_keys_NoDup xs :
  forall ks, NoDup ks -> NoDup (fold_left add_key xs ks).
Proof.
  induction xs as [| s xs IH]; intros ks Hnd; simpl; [exact Hnd |].
  apply IH. now apply add_key_NoDup.
Qed.

Lemma collect_loop_staged xs :
  forall r0 evs nm sp pr ls v acc (post : dict string -> VNA -> Prop),
    staged r0 evs nm sp pr ls v ->
    (forall out v',
        staged r0 (evs ++ flat_map select_and_read xs) nm sp pr ls v' ->
        keys out = fold_left add_key xs (keys acc) ->
        post out v') ->
    yields (Py.for_each xs VNAImpl.collect acc) v post.
Proof.
  induction xs as [| x xs IH]; intros r0 evs nm sp pr ls v acc post Hs Hpost.
  - simpl. apply yields_ret. apply Hpost; [| reflexivity].
    simpl. now rewrite app_nil_r.
  - simpl Py.for_each. apply yields_bind. unfold VNAImpl.collect at 1.
    repeat staged_step.
    eapply IH; [exact Hs |]. intros out vfin Hfin Hkeys. apply Hpost.
    + simpl. repeat rewrite <- app_assoc in Hfin. exact Hfin.
    + rewrite Hkeys, keys_set. reflexivity.
Qed.

(** X5. On an open, fault-free session [fire()] returns, whatever the
    acquisition list holds (empty, or with repeated names): the instrument
    sees the trigger, the operation-complete query and then one
    select/data-query pair per entry of the list, repeated entries
    included; the result has each listed name exactly once as a key and no
    other key; the controller's name, acquisition list and ranges are left
    as they were and the session stays usable. *)
Theorem fire_on_any_acquisition_list (v : VNA) (r : Resource) :
  resource v = Some r ->
  fault_free r = true ->
  exists out v',
    VNAImpl.fire v = (inr out, v') /\
    seen v' = traffic r ++ sweep_traffic (sp_to_measure v) /\
    NoDup (keys out) /\
    (forall s, In s (keys out) <-> In s (sp_to_measure v)) /\
    name v' = name v /\
    sp_to_measure v' = sp_to_measure v /\
    p_ranges v' = p_ranges v /\
    line_settings v' = line_settings v /\
    healthy v' = true.
Proof.
  intros Hr Hff. pose proof (staged_here v r Hr Hff) as Hs.
  enough (Hy : yields VNAImpl.fire v
                 (fun out v' =>
                    keys out = fold_left add_key (sp_to_measure v) [] /\
                    staged r (sweep_traffic (sp_to_measure v)) (name v)
                           (sp_to_measure v) (p_ranges v)
                           (read_termination r, write_termination r,
                            timeout r) v')).
  { destruct Hy as (out & v' & Hrun & Hkeys & Hnm & Hsp & Hpr & r' & Hr'
                    & Hff' & Htr & _ & Hls).
    exists out, v'. unfold seen, healthy, line_settings. simpl get_resource.
    rewrite Hr', Hr, Htr, Hls, Hkeys. repeat split; try assumption.
    - apply add_keys_NoDup. constructor.
    - intros Hin. apply add_keys_members in Hin. destruct Hin as [[] | Hin].
      exact Hin.
    - intros Hin. apply add_keys_members. now right. }
  unfold VNAImpl.fire. repeat staged_step.
  lazymatch goal with
  | Hnow : staged _ _ _ _ _ _ ?w |- _ =>
      replace (sp_to_measure w) with (sp_to_measure v)
        by (symmetry; apply Hnow);
      eapply collect_loop_staged; [exact Hnow |]
  end.
  intros out vfin Hfin Hkeys. split; [exact Hkeys |].
  unfold sweep_traffic. repeat rewrite <- app_assoc in Hfin. exact Hfin.
Qed.

(** After two [initialize()] calls the list is [S11, S11]: [fire()] asks
    for [S11] twice and returns it once. *)
Lemma fire_on_repeated_names_example :
  exists out v',
    VNAImpl.fire (mkVNA (Some talkative) "" ["S11"; "S11"] [])
    = (inr out, v') /\
    seen v' = [Sent "INIT:IMM"; Asked "*OPC?";
               Sent (select_command "S11"); Asked data_query;
               Sent (select_command "S11"); Asked data_query] /\
    keys out = ["S11"].
Proof.
  destruct (fire_on_any_acquisition_list
              (mkVNA (Some talkative) "" ["S11"; "S11"] []) talkative
              eq_refl eq_refl)
    as (out & v' & Hrun & Hseen & _).
  exists out, v'. split; [exact Hrun |]. split; [exact Hseen |].
  assert (Hout : fst (VNAImpl.fire
                        (mkVNA (Some talkative) "" ["S11"; "S11"] []))
                 = inr out) by now rewrite Hrun.
  vm_compute in Hout. inversion Hout. reflexivity.
Defined.

Lemma fire_staged r0 evs nm sp pr ls v (post : dict string -> VNA -> Prop) :
  staged r0 evs nm sp pr ls v ->
  (forall out v',
      keys out = fold_left add_key sp [] ->
      staged r0 (evs ++ sweep_traffic sp) nm sp pr ls v' ->
      post out v') ->
  yields VNAImpl.fire v post.
Proof.
  intros Hs Hpost. unfold VNAImpl.fire. repeat staged_step.
  lazymatch goal with
  | Hnow : staged _ _ _ _ _ _ ?w |- _ =>
      replace (sp_to_measure w) with sp by (symmetry; apply Hnow);
      eapply collect_loop_staged; [exact Hnow |]
  end.
  intros out vfin Hfin Hkeys. apply Hpost; [exact Hkeys |].
  unfold sweep_traffic. repeat rewrite <- app_assoc in Hfin. exact Hfin.
Qed.

(** X6. [fire()] can be called again right after it returned: on a
    fault-free session two calls in a row both return, the instrument sees
    the same sweep traffic twice, and both results have the same keys. *)
Theorem fire_twice_repeats_the_sweep (v : VNA) (r : Resource) :
  resource v = Some r ->
  fault_free r = true ->
  exists out1 v1 out2 v2,
    VNAImpl.fire v = (inr out1, v1) /\
    VNAImpl.fire v1 = (inr out2, v2) /\
    seen v2 = traffic r ++ sweep_traffic (sp_to_measure v)
              ++ sweep_traffic (sp_to_measure v) /\
    keys out2 = keys out1 /\
    sp_to_measure v2 = sp_to_measure v.
Proof.
  intros Hr Hff. pose proof (staged_here v r Hr Hff) as Hs.
  destruct (fire_staged _ _ _ _ _ _ _
              (fun out v' =>
                 keys out = fold_left add_key (sp_to_measure v) [] /\
                 staged r ([] ++ sweep_traffic (sp_to_measure v)) (name v)
                        (sp_to_measure v) (p_ranges v)
                        (read_termination r, write_termination r, timeout r)
                        v') Hs)
    as (out1 & v1 & Hrun1 & Hk1 & Hs1); [auto |].
  destruct (fire_staged _ _ _ _ _ _ _
              (fun out v' =>
                 keys out = fold_left add_key (sp_to_measure v) [] /\
                 staged r (([] ++ sweep_traffic (sp_to_measure v))
                           ++ sweep_traffic (sp_to_measure v)) (name v)
                        (sp_to_measure v) (p_ranges v)
                        (read_termination r, write_termination r, timeout r)
                        v') Hs1)
    as (out2 & v2 & Hrun2 & Hk2 & Hs2); [auto |].
  exists out1, v1, out2, v2.
  destruct Hs2 as (_ & Hsp & _ & r2 & Hr2 & _ & Htr & _).
  unfold seen. simpl get_resource. rewrite Hr2, Htr, <- app_assoc.
  repeat split; try assumption. congruence.
Qed.

Lemma fire_twice_example :
  exists out1 v1 out2 v2,
    VNAImpl.fire (mkVNA (Some talkative) "" ["S21"] []) = (inr out1, v1) /\
    VNAImpl.fire v1 = (inr out2, v2) /\
    seen v2 = sweep_traffic ["S21"] ++ sweep_traffic ["S21"] /\
    keys out2 = keys out1.
Proof.
  destruct (fire_twice_repeats_the_sweep
              (mkVNA (Some talkative) "" ["S21"] []) talkative
              eq_refl eq_refl)
    as (out1 & v1 & out2 & v2 & H1 & H2 & Hseen & Hkeys & _).
  exists out1, v1, out2, v2. repeat split; assumption.
Defined.

(** What one transport call adds to the traffic, however it ends. *)
Lemma call_adds_at_most_its_event {A} ev (answer : Resource -> A) (v : VNA) :
  sp_to_measure (snd (on_resource (Session.transport ev answer) v))
  = sp_to_measure v /\
  match fst (on_resource (Session.transport ev answer) v) with
  | inr _ => seen (snd (on_resource (Session.transport ev answer) v))
             = seen v ++ [ev]
  | inl _ => seen (snd (on_resource (Session.transport ev answer) v))
             = seen v
  end.
Proof.
  unfold on_resource, seen, Session.transport. simpl get_resource.
  destruct (resource v) as [r |] eqn:Hr; simpl; rewrite ?Hr; [| auto].
  destruct (session_open r); [| simpl; auto].
  destruct (next_fault r); simpl; auto.
Qed.

Lemma prefix_of_nil {A} (l : list A) : prefix_of [] l.
Proof. now exists l. Qed.

Lemma prefix_of_refl {A} (l : list A) : prefix_of l l.
Proof. exists []. now rewrite app_nil_r. Qed.

Lemma prefix_of_app {A} (l pre whole : list A) :
  prefix_of pre whole -> prefix_of (l ++ pre) (l ++ whole).
Proof. intros [rest ->]. exists rest. now rewrite app_assoc. Qed.

(** One turn of the loop of [fire], on any session. *)
Lemma collect_outcome x acc v res v' :
  VNAImpl.collect x acc v = (res, v') ->
  sp_to_measure v' = sp_to_measure v /\
  match res with
  | inr _ => seen v' = seen v ++ select_and_read x
  | inl _ => exists pre,
      prefix_of pre (select_and_read x) /\ seen v' = seen v ++ pre
  end.
Proof.
  unfold VNAImpl.collect, Py.bind, VNAImpl.write, VNAImpl.query.
  unfold Session.write, Session.query. fold (select_command x). fold data_query.
  pose proof (call_adds_at_most_its_event
                (Sent (select_command x)) (fun _ => tt) v) as H1.
  destruct (on_resource (Session.transport (Sent (select_command x))
                                           (fun _ => tt)) v)
    as [[e | []] v1]; simpl in H1; destruct H1 as [Hsp1 Hseen1].
  { intros Heq. inversion Heq; subst. split; [exact Hsp1 |].
    exists []. rewrite app_nil_r. split; [apply prefix_of_nil | exact Hseen1]. }
  pose proof (call_adds_at_most_its_event
                (Asked data_query)
                (fun r => instrument r (traffic r) data_query) v1) as H2.
  destruct (on_resource
              (Session.transport (Asked data_query)
                 (fun r => instrument r (traffic r) data_query)) v1)
    as [[e | data] v2]; simpl in H2; destruct H2 as [Hsp2 Hseen2].
  { intros Heq. inversion Heq; subst. split; [congruence |].
    exists [Sent (select_command x)]. split; [| congruence].
    now exists [Asked data_query]. }
  unfold Py.ret. intros Heq. inversion Heq; subst. split; [congruence |].
  rewrite Hseen2, Hseen1. unfold select_and_read. now rewrite <- app_assoc.
Qed.

(** The loop of [fire], on any session. *)
Lemma collect_loop_prefix xs :
  forall acc v res v',
    Py.for_each xs VNAImpl.collect acc v = (res, v') ->
    sp_to_measure v' = sp_to_measure v /\
    exists pre,
      prefix_of pre (flat_map select_and_read xs) /\
      seen v' = seen v ++ pre /\
      (forall out, res = inr out -> pre = flat_map select_and_read xs).
Proof.
  induction xs as [| x xs IH]; intros acc v res v' Hrun.
  - simpl in Hrun. inversion Hrun; subst. split; [reflexivity |].
    exists []. rewrite app_nil_r. repeat split. apply prefix_of_nil.
  - change (Py.for_each (x :: xs) VNAImpl.collect acc v)
      with (Py.bind (VNAImpl.collect x acc)
                    (fun a => Py.for_each xs VNAImpl.collect a) v) in Hrun.
    unfold Py.bind in Hrun.
    destruct (VNAImpl.collect x acc v) as [[e | a] v1] eqn:Hone;
      destruct (collect_outcome _ _ _ _ _ Hone) as [Hsp1 Hseen1].
    + inversion Hrun; subst. split; [exact Hsp1 |].
      destruct Hseen1 as (pre & [rest Hpre] & Hseen1).
      exists pre. repeat split; [| exact Hseen1 | discriminate].
      exists (rest ++ flat_map select_and_read xs).
      change (flat_map select_and_read (x :: xs))
        with (select_and_read x ++ flat_map select_and_read xs).
      rewrite Hpre. now rewrite <- app_assoc.
    + destruct (IH _ _ _ _ Hrun) as (Hsp2 & pre & Hpre & Hseen2 & Hall).
      split; [congruence |].
      exists (select_and_read x ++ pre). repeat split.
      * change (flat_map select_and_read (x :: xs))
          with (select_and_read x ++ flat_map select_and_read xs).
        now apply prefix_of_app.
      * rewrite Hseen2, Hseen1. now rewrite <- app_assoc.
      * intros out Hout. now rewrite (Hall out Hout).
Qed.

(** X7. On any session, open or closed, with or without faults, [fire()]
    sends nothing out of order and never retries: what the instrument has
    seen after the call is what it had seen before followed by a prefix of
    the sweep traffic, the whole of it when [fire()] returns; the
    acquisition list is unchanged, however the call ends. *)
Theorem fire_sends_a_prefix_of_the_sweep (v : VNA) :
  sp_to_measure (snd (VNAImpl.fire v)) = sp_to_measure v /\
  exists pre,
    prefix_of pre (sweep_traffic (sp_to_measure v)) /\
    seen (snd (VNAImpl.fire v)) = seen v ++ pre /\
    (forall out, fst (VNAImpl.fire v) = inr out ->
                 pre = sweep_traffic (sp_to_measure v)).
Proof.
  unfold VNAImpl.fire, sweep_traffic.
  unfold Py.bind, VNAImpl.write, VNAImpl.query, Session.write, Session.query.
  pose proof (call_adds_at_most_its_event (Sent "INIT:IMM") (fun _ => tt) v)
    as H1.
  destruct (on_resource (Session.transport (Sent "INIT:IMM") (fun _ => tt)) v)
    as [[e | []] v1]; simpl in H1; destruct H1 as [Hsp1 Hseen1]; simpl.
  { split; [exact Hsp1 |]. exists []. rewrite app_nil_r.
    repeat split; [apply prefix_of_nil | exact Hseen1 | discriminate]. }
  pose proof (call_adds_at_most_its_event
                (Asked "*OPC?") (fun r => instrument r (traffic r) "*OPC?") v1)
    as H2.
  destruct (on_resource
              (Session.transport (Asked "*OPC?")
                 (fun r => instrument r (traffic r) "*OPC?")) v1)
    as [[e | done] v2]; simpl in H2; destruct H2 as [Hsp2 Hseen2]; simpl.
  { split; [congruence |]. exists [Sent "INIT:IMM"].
    repeat split; [| congruence | discriminate].
    now exists (Asked "*OPC?" :: flat_map select_and_read (sp_to_measure v)). }
  unfold Py.gets.
  assert (Hsame : sp_to_measure v2 = sp_to_measure v) by congruence.
  rewrite Hsame.
  destruct (Py.for_each (sp_to_measure v) VNAImpl.collect [] v2)
    as [res v3] eqn:Hloop.
  destruct (collect_loop_prefix _ _ _ _ _ Hloop)
    as (Hsp3 & pre & Hpre & Hseen3 & Hall).
  simpl. split; [congruence |].
  exists ([Sent "INIT:IMM"; Asked "*OPC?"] ++ pre).
  repeat split.
  - now apply (prefix_of_app [Sent "INIT:IMM"; Asked "*OPC?"]).
  - rewrite Hseen3, Hseen2, Hseen1. now rewrite <- !app_assoc.
  - intros out Hout. now rewrite (Hall out Hout).
Qed.

(** ** Closing and teardown *)

Lemma vna_write_delivers cmd v r :
  resource v = Some r -> fault_free r = true ->
  VNAImpl.write cmd v = (inr tt, put_resource (deliver (Sent cmd) r) v).
Proof.
  intros Hr Hff. unfold VNAImpl.write, Session.write, on_resource.
  simpl get_resource. rewrite Hr, (transport_delivers _ _ _ Hff). reflexivity.
Qed.

(** X8. On an open, fault-free session the analyzer's [close()] sends the
    reset command and then closes the session, while the switch
    controller's [close()] closes the session without sending anything;
    each destructor does exactly what the [close()] of its class does.
    Afterwards the session is closed and the controller's other
    attributes are as before. *)
Theorem close_resets_analyzer_only (v : VNA) (sw : Switches) (r : Resource) :
  resource v = Some r ->
  sw_resource sw = Some r ->
  fault_free r = true ->
  VNAImpl.close v
  = (inr tt, put_resource (shut (deliver (Sent "*RST") r)) v) /\
  VNAImpl.__del__ v = VNAImpl.close v /\
  seen (snd (VNAImpl.close v)) = traffic r ++ [Sent "*RST"; Closed] /\
  SwitchesImpl.close sw = (inr tt, put_resource (shut r) sw) /\
  SwitchesImpl.__del__ sw = SwitchesImpl.close sw /\
  seen (snd (SwitchesImpl.close sw)) = traffic r ++ [Closed] /\
  healthy (snd (VNAImpl.close v)) = false /\
  healthy (snd (SwitchesImpl.close sw)) = false.
Proof.
  intros Hr Hsw Hff.
  assert (Hclose : VNAImpl.close v
                   = (inr tt, put_resource (shut (deliver (Sent "*RST") r)) v)).
  { unfold VNAImpl.close, Py.bind.
    rewrite (vna_write_delivers _ _ _ Hr Hff).
    unfold on_resource.
    cbn [get_resource put_resource VNA_Controller resource].
    rewrite close_shuts; [reflexivity | |].
    - apply fault_free_open. now apply fault_free_deliver.
    - apply fault_free_next. now apply fault_free_deliver. }
  assert (Hswc : SwitchesImpl.close sw = (inr tt, put_resource (shut r) sw)).
  { unfold SwitchesImpl.close, on_resource. simpl get_resource.
    rewrite Hsw, close_shuts; [reflexivity | |].
    - now apply fault_free_open.
    - now apply fault_free_next. }
  split; [exact Hclose |]. split.
  { unfold VNAImpl.__del__, Py.try_except_pass. rewrite Hr.
    change (VNAImpl.write "*RST";; on_resource Session.close)
      with VNAImpl.close.
    now rewrite Hclose. }
  split.
  { rewrite Hclose. unfold seen. simpl. now rewrite <- app_assoc. }
  split; [exact Hswc |]. split.
  { unfold SwitchesImpl.__del__, Py.try_except_pass. rewrite Hsw.
    change (on_resource Session.close sw) with (SwitchesImpl.close sw).
    now rewrite Hswc. }
  rewrite Hclose, Hswc. repeat split.
Qed.

Lemma close_example :
  seen (snd (VNAImpl.close new_vna)) = [Sent "*RST"; Closed] /\
  seen (snd (SwitchesImpl.close new_switches)) = [Closed] /\
  VNAImpl.__del__ new_vna = VNAImpl.close new_vna.
Proof.
  destruct (close_resets_analyzer_only new_vna new_switches bench
              eq_refl eq_refl eq_refl)
    as (_ & Hdel & Hseen & _ & _ & Hsw & _).
  split; [exact Hseen |]. split; [exact Hsw | exact Hdel].
Defined.

(** X9. When the reset command of the analyzer's [close()] or [__del__]
    fails, the closing call is not attempted: either method leaves the
    controller exactly as the failed [write('*RST')] alone leaves it, and
    the session is still open.  [close()] raises the failure, whatever it
    is; the destructor returns when it is a [VisaIOError] or an
    [InvalidSession] and raises it when it is anything else. *)
Theorem failed_reset_leaves_session_open (v : VNA) (r : Resource) (e : Exn) :
  resource v = Some r ->
  session_open r = true ->
  next_fault r = Some e ->
  fst (VNAImpl.close v) = inl e /\
  ((exists code, e = VisaIOError code) \/ e = InvalidSession ->
   fst (VNAImpl.__del__ v) = inr tt) /\
  ((forall code, e <> VisaIOError code) -> e <> InvalidSession ->
   fst (VNAImpl.__del__ v) = inl e) /\
  snd (VNAImpl.close v) = snd (VNAImpl.write "*RST" v) /\
  snd (VNAImpl.__del__ v) = snd (VNAImpl.write "*RST" v) /\
  exists r',
    resource (snd (VNAImpl.write "*RST" v)) = Some r' /\
    session_open r' = true.
Proof.
  intros Hr Ho Hn.
  assert (Hw : VNAImpl.write "*RST" v
               = (inl e, put_resource (step_plan r) v)).
  { apply (vna_call_raises _ _ _ _ _ Hr Ho Hn). }
  assert (Hclose : VNAImpl.close v = (inl e, put_resource (step_plan r) v)).
  { unfold VNAImpl.close. now apply bind_raised. }
  assert (Hdel : VNAImpl.__del__ v
                 = (if is_transport_fault e then inr tt else inl e,
                    put_resource (step_plan r) v)).
  { unfold VNAImpl.__del__, Py.try_except_pass. rewrite Hr.
    change (VNAImpl.write "*RST";; on_resource Session.close)
      with VNAImpl.close.
    rewrite Hclose. now destruct (is_transport_fault e). }
  rewrite Hclose, Hdel, Hw. cbn [fst snd].
  split; [reflexivity |]. split; [| split; [| split; [| split]]].
  - intros Hcase. apply transport_fault_cases in Hcase. now rewrite Hcase.
  - intros Hvisa Hinv. now rewrite (other_failure_cases e Hvisa Hinv).
  - reflexivity.
  - reflexivity.
  - exists (step_plan r). split; [reflexivity | exact Ho].
Qed.

(** A reset that meets a timeout, an invalidated session, and a failure of
    another kind. *)
Lemma failed_reset_example :
  (fst (VNAImpl.__del__
          (mkVNA (Some (failing (VisaIOError (-1073807339)))) "" [] []))
   = inr tt /\
   fst (VNAImpl.close
          (mkVNA (Some (failing (VisaIOError (-1073807339)))) "" [] []))
   = inl (VisaIOError (-1073807339))) /\
  (fst (VNAImpl.__del__ (mkVNA (Some (failing InvalidSession)) "" [] []))
   = inr tt /\
   fst (VNAImpl.close (mkVNA (Some (failing InvalidSession)) "" [] []))
   = inl InvalidSession) /\
  (fst (VNAImpl.__del__ (mkVNA (Some (failing (OtherError "bus"))) "" [] []))
   = inl (OtherError "bus") /\
   fst (VNAImpl.close (mkVNA (Some (failing (OtherError "bus"))) "" [] []))
   = inl (OtherError "bus") /\
   healthy (snd (VNAImpl.__del__
                   (mkVNA (Some (failing (OtherError "bus"))) "" [] [])))
   = true).
Proof.
  split; [| split].
  - destruct (failed_reset_leaves_session_open
                (mkVNA (Some (failing (VisaIOError (-1073807339)))) "" [] [])
                (failing (VisaIOError (-1073807339)))
                (VisaIOError (-1073807339)) eq_refl eq_refl eq_refl)
      as (Hclose & Hcaught & _).
    split; [| exact Hclose].
    exact (Hcaught (or_introl (ex_intro _ (-1073807339) eq_refl))).
  - destruct (failed_reset_leaves_session_open
                (mkVNA (Some (failing InvalidSession)) "" [] [])
                (failing InvalidSession) InvalidSession
                eq_refl eq_refl eq_refl)
      as (Hclose & Hcaught & _).
    split; [| exact Hclose]. exact (Hcaught (or_intror eq_refl)).
  - destruct (failed_reset_leaves_session_open
                (mkVNA (Some (failing (OtherError "bus"))) "" [] [])
                (failing (OtherError "bus")) (OtherError "bus")
                eq_refl eq_refl eq_refl)
      as (Hclose & _ & Hother & _ & Hstate & _).
    split; [| split; [exact Hclose |]].
    + apply Hother; [intros code Heq | intros Heq]; discriminate Heq.
    + rewrite Hstate. reflexivity.
Defined.

(** X10. A controller without a session ([resource] is [None]): both
    destructors return without doing anything, whereas every other method
    of either controller raises [AttributeError] and changes nothing; in
    particular a port change does not sleep. *)
Theorem methods_without_session {V} `{PyValue V} (d : dict V)
        (v : VNA) (sw : Switches) (cmd : string) (port : Z) :
  resource v = None ->
  sw_resource sw = None ->
  (1 <= port <= 24)%Z ->
  VNAImpl.__del__ v = (inr tt, v) /\
  SwitchesImpl.__del__ sw = (inr tt, sw) /\
  VNAImpl.close v = (inl AttributeError, v) /\
  VNAImpl.write cmd v = (inl AttributeError, v) /\
  VNAImpl.query cmd v = (inl AttributeError, v) /\
  VNAImpl.fire v = (inl AttributeError, v) /\
  VNAImpl.initialize d v = (inl AttributeError, v) /\
  SwitchesImpl.close sw = (inl AttributeError, sw) /\
  SwitchesImpl.initialize sw = (inl AttributeError, sw) /\
  SwitchesImpl.set_tran port sw = (inl AttributeError, sw) /\
  SwitchesImpl.set_refl port sw = (inl AttributeError, sw).
Proof.
  intros Hr Hsw Hport.
  assert (Hcall : forall A (call : Py.M Resource A),
             on_resource call v = (inl AttributeError, v)).
  { intros A call. unfold on_resource. simpl get_resource. now rewrite Hr. }
  assert (Hswcall : forall A (call : Py.M Resource A),
             on_resource call sw = (inl AttributeError, sw)).
  { intros A call. unfold on_resource. simpl get_resource. now rewrite Hsw. }
  assert (Hin : ((port <? SwitchesImpl.PORT_MIN)
                 || (port >? SwitchesImpl.PORT_MAX))%Z = false).
  { unfold SwitchesImpl.PORT_MIN, SwitchesImpl.PORT_MAX.
    apply orb_false_iff. rewrite Z.ltb_ge, Z.gtb_ltb, Z.ltb_ge. lia. }
  unfold VNAImpl.__del__, SwitchesImpl.__del__. rewrite Hr, Hsw.
  unfold VNAImpl.close, VNAImpl.fire, VNAImpl.initialize.
  unfold SwitchesImpl.set_tran, SwitchesImpl.set_refl. rewrite Hin.
  unfold SwitchesImpl.close, SwitchesImpl.initialize, SwitchesImpl.write.
  unfold VNAImpl.configure, VNAImpl.write, VNAImpl.query, Py.bind.
  rewrite !Hcall, !Hswcall. repeat split.
Qed.

Lemma methods_without_session_example :
  VNAImpl.__del__ (mkVNA None "" [] []) = (inr tt, mkVNA None "" [] []) /\
  VNAImpl.fire (mkVNA None "" [] [])
  = (inl AttributeError, mkVNA None "" [] []) /\
  SwitchesImpl.set_tran 5 (mkSwitches None [])
  = (inl AttributeError, mkSwitches None []).
Proof.
  assert (H5 : (1 <= 5 <= 24)%Z) by lia.
  destruct (methods_without_session (H := PyValue_int) example_store
              (mkVNA None "" [] []) (mkSwitches None []) "*IDN?" 5
              eq_refl eq_refl H5)
    as (Hdel & _ & _ & _ & _ & Hfire & _ & _ & _ & Htran & _).
  split; [exact Hdel |]. split; [exact Hfire | exact Htran].
Defined.

(** ** The switch matrix: sequences and failures *)

Lemma valid_port_passes (p : Z) :
  (1 <= p <= 24)%Z ->
  ((p <? SwitchesImpl.PORT_MIN) || (p >? SwitchesImpl.PORT_MAX))%Z = false.
Proof.
  intros Hp. unfold SwitchesImpl.PORT_MIN, SwitchesImpl.PORT_MAX.
  apply orb_false_iff. rewrite Z.ltb_ge, Z.gtb_ltb, Z.ltb_ge. lia.
Qed.

(** X11. On an open, fault-free session, [set_tran(p)] followed by
    [set_refl(q)] with valid ports both return; the switch sees the
    transmit command and then the reflect command, in that order and
    nothing else, and the controller has slept the debounce time once
    after each command. *)
Theorem transmit_then_reflect (p q : Z) (sw : Switches) (r : Resource) :
  (1 <= p <= 24)%Z ->
  (1 <= q <= 24)%Z ->
  sw_resource sw = Some r ->
  fault_free r = true ->
  fst (SwitchesImpl.set_tran p sw) = inr tt /\
  fst (SwitchesImpl.set_refl q (snd (SwitchesImpl.set_tran p sw))) = inr tt /\
  seen (snd (SwitchesImpl.set_refl q (snd (SwitchesImpl.set_tran p sw))))
  = traffic r
    ++ [Sent ("tran_" +++ SwitchesImpl.pad_port_number p +++ ";");
        Sent ("refl_" +++ SwitchesImpl.pad_port_number q)] /\
  slept (snd (SwitchesImpl.set_refl q (snd (SwitchesImpl.set_tran p sw))))
  = slept sw ++ [SwitchesImpl.debounce_time; SwitchesImpl.debounce_time].
Proof.
  intros Hp Hq Hr Hff.
  assert (Htran : SwitchesImpl.set_tran p sw
    = (inr tt,
       mkSwitches
         (Some (deliver
                  (Sent ("tran_" +++ SwitchesImpl.pad_port_number p +++ ";"))
                  r))
         (slept sw ++ [SwitchesImpl.debounce_time]))).
  { unfold SwitchesImpl.set_tran. rewrite (valid_port_passes p Hp).
    unfold Py.bind. rewrite (switch_write_delivers _ sw r Hr Hff).
    reflexivity. }
  rewrite Htran. cbn [fst snd].
  unfold SwitchesImpl.set_refl. rewrite (valid_port_passes q Hq).
  unfold Py.bind.
  erewrite switch_write_delivers;
    [| reflexivity | now apply fault_free_deliver].
  unfold seen. cbn. rewrite <- !app_assoc. repeat split.
Qed.

(** The specification's scenario: [set_tran(1)] then [set_refl(2)]. *)
Lemma transmit_then_reflect_example :
  seen (snd (SwitchesImpl.set_refl 2
               (snd (SwitchesImpl.set_tran 1 new_switches))))
  = [Sent "tran_01;"; Sent "refl_02"] /\
  slept (snd (SwitchesImpl.set_refl 2
                (snd (SwitchesImpl.set_tran 1 new_switches))))
  = [3 # 100; 3 # 100].
Proof.
  assert (H1 : (1 <= 1 <= 24)%Z) by lia.
  assert (H2 : (1 <= 2 <= 24)%Z) by lia.
  destruct (transmit_then_reflect 1 2 new_switches bench H1 H2
              eq_refl eq_refl) as (_ & _ & Hseen & Hslept).
  split; [exact Hseen | exact Hslept].
Defined.

(** X12. When the write of a port change fails, the controller does not
    sleep: for a valid port on an open session whose next transport call
    raises [e], [set_tran] and [set_refl] raise [e], the switch receives
    nothing and no debounce delay is spent; on a closed session they raise
    [InvalidSession] and leave the controller as it was. *)
Theorem failed_port_change_skips_debounce
        (p : Z) (sw : Switches) (r : Resource) (e : Exn) :
  (1 <= p <= 24)%Z ->
  sw_resource sw = Some r ->
  (session_open r = true -> next_fault r = Some e ->
   SwitchesImpl.set_tran p sw
   = (inl e, mkSwitches (Some (step_plan r)) (slept sw)) /\
   SwitchesImpl.set_refl p sw
   = (inl e, mkSwitches (Some (step_plan r)) (slept sw)) /\
   seen (snd (SwitchesImpl.set_tran p sw)) = traffic r /\
   seen (snd (SwitchesImpl.set_refl p sw)) = traffic r) /\
  (session_open r = false ->
   SwitchesImpl.set_tran p sw
   = (inl InvalidSession, mkSwitches (Some r) (slept sw)) /\
   SwitchesImpl.set_refl p sw
   = (inl InvalidSession, mkSwitches (Some r) (slept sw))).
Proof.
  intros Hp Hr.
  unfold SwitchesImpl.set_tran, SwitchesImpl.set_refl.
  rewrite (valid_port_passes p Hp).
  unfold Py.bind, SwitchesImpl.write, on_resource, Session.write.
  simpl get_resource. rewrite Hr. split.
  - intros Ho Hn. rewrite !(transport_raises _ _ _ _ Ho Hn).
    repeat split.
  - intros Ho. rewrite !(transport_closed _ _ _ Ho). repeat split.
Qed.

Lemma failed_port_change_example :
  SwitchesImpl.set_tran 7 (mkSwitches (Some (failing (OtherError "bus"))) [])
  = (inl (OtherError "bus"),
     mkSwitches (Some (step_plan (failing (OtherError "bus")))) []).
Proof.
  assert (H7 : (1 <= 7 <= 24)%Z) by lia.
  destruct (failed_port_change_skips_debounce 7
              (mkSwitches (Some (failing (OtherError "bus"))) [])
              (failing (OtherError "bus")) (OtherError "bus") H7 eq_refl)
    as [Hfault _].
  destruct (Hfault eq_refl eq_refl) as (Htran & _).
  exact Htran.
Defined.

(** [int(str(z))] is [z] on every integer. *)
Lemma py_int_of_str_int (z : Z) : py_int_of_str (py_str_int z) = Some z.
Proof.
  unfold py_int_of_str, py_str_int.
  rewrite NilZero.isi.
  - simpl. now rewrite DecimalZ.of_to.
  - destruct z; simpl; try discriminate.
    intros Heq. inversion Heq as [Hnil].
    now apply Unsigned.to_uint_nonnil in Hnil.
  - destruct z; simpl; try discriminate.
    intros Heq. inversion Heq as [Hnil].
    now apply Unsigned.to_uint_nonnil in Hnil.
Qed.

(** X13. [pad_port_number] outside the port range: for every port number
    [p >= 0] the padded text reads back as [p] ([int(pad_port_number(p))
    == p]), and it has exactly two characters whenever [0 <= p <= 99]; for
    a negative [p] the zero is put in front of the minus sign and the
    result is not the text of an integer. *)
Theorem pad_port_number_reads_back (p : Z) :
  (0 <= p -> py_int_of_str (SwitchesImpl.pad_port_number p) = Some p)%Z /\
  (0 <= p <= 99 -> String.length (SwitchesImpl.pad_port_number p) = 2%nat)%Z /\
  (p < 0 -> py_int_of_str (SwitchesImpl.pad_port_number p) = None)%Z.
Proof.
  split; [| split].
  - intros Hp. unfold SwitchesImpl.pad_port_number.
    destruct (p <=? 9)%Z eqn:Hsmall; [| apply py_int_of_str_int].
    apply Z.leb_le in Hsmall.
    assert (Hcases : In p (map Z.of_nat (seq 0 10))).
    { apply in_map_iff. exists (Z.to_nat p). split; [lia |].
      apply in_seq. lia. }
    simpl in Hcases.
    repeat (destruct Hcases as [<- | Hcases]; [reflexivity |]).
    contradiction.
  - intros Hp.
    assert (Hcases : In p (map Z.of_nat (seq 0 100))).
    { apply in_map_iff. exists (Z.to_nat p). split; [lia |].
      apply in_seq. lia. }
    cbv [seq map Z.of_nat Pos.of_succ_nat Pos.succ] in Hcases.
    repeat (destruct Hcases as [<- | Hcases]; [reflexivity |]).
    contradiction.
  - intros Hp. destruct p as [| q | q]; try lia.
    unfold SwitchesImpl.pad_port_number, py_str_int, py_int_of_str.
    simpl. destruct (NilEmpty.uint_of_string _); reflexivity.
Qed.

(** ** The frequency list: missing keys and spacing *)

(** X14. [freq_list] reads [freq_stop], then [freq_start], then
    [num_points]: in any arithmetic, a store lacking one of them makes it
    raise [KeyError] naming the first missing key in that order, before
    any arithmetic is done. *)
Theorem freq_list_missing_key {V} `{PyArith V} (d : dict V) (k : string) :
  find (fun key => negb (contains key d))
       ["freq_stop"; "freq_start"; "num_points"] = Some k ->
  VNAImpl.freq_list d = inl (KeyError k).
Proof.
  unfold VNAImpl.freq_list, lookup, contains. cbn [find].
  destruct (get "freq_stop" d); cbn [negb];
    [| intros Heq; inversion Heq; reflexivity].
  destruct (get "freq_start" d); cbn [negb];
    [| intros Heq; inversion Heq; reflexivity].
  destruct (get "num_points" d); cbn [negb];
    [discriminate | intros Heq; inversion Heq; reflexivity].
Qed.

(** A store with the stop frequency only: the start frequency is missed
    first, in exact and in binary64 arithmetic. *)
Lemma freq_list_missing_key_example :
  VNAImpl.freq_list [("freq_stop", inject_Z 2000000000)]
  = inl (KeyError "freq_start") /\
  VNAImpl.freq_list [("freq_stop", 2e9%float)] = inl (KeyError "freq_start").
Proof.
  split.
  - exact (freq_list_missing_key (H := PyArith_exact)
             [("freq_stop", inject_Z 2000000000)] "freq_start" eq_refl).
  - exact (freq_list_missing_key (H := PyArith_float)
             [("freq_stop", 2e9%float)] "freq_start" eq_refl).
Defined.

Section ExactSpacing.

Local Open Scope Q_scope.

Variables (a b : Q) (n : Z).
Hypothesis Hn : (2 <= n)%Z.

Lemma full_span : inject_Z (n - 1) * linear_step a b n == b - a.
Proof.
  unfold linear_step. rewrite <- (divisor_eq n). field.
  rewrite divisor_eq. intros Heq. change 0 with (inject_Z 0) in Heq.
  apply (proj1 (inject_Z_injective _ _)) in Heq. lia.
Qed.

Lemma index_bounds k :
  (k < Z.to_nat n)%nat ->
  0 <= inject_Z (Z.of_nat k) /\ inject_Z (Z.of_nat k) <= inject_Z (n - 1).
Proof.
  intros Hk. change 0 with (inject_Z 0). rewrite <- !Zle_Qle. lia.
Qed.

Lemma point_between_up k :
  (k < Z.to_nat n)%nat -> a <= b ->
  a <= linear_point a b n k /\ linear_point a b n k <= b.
Proof.
  intros Hk Hab. destruct (index_bounds k Hk) as [H0 H1].
  pose proof full_span as Hspan. unfold linear_point.
  set (t := inject_Z (Z.of_nat k)) in *.
  set (m := inject_Z (n - 1)) in *.
  set (s := linear_step a b n) in *.
  assert (Hm : 0 < m).
  { subst m. change 0 with (inject_Z 0). rewrite <- Zlt_Qlt. lia. }
  assert (Hs : 0 <= s) by nra.
  split; nra.
Qed.

Lemma point_between_down k :
  (k < Z.to_nat n)%nat -> b <= a ->
  b <= linear_point a b n k /\ linear_point a b n k <= a.
Proof.
  intros Hk Hab. destruct (index_bounds k Hk) as [H0 H1].
  pose proof full_span as Hspan. unfold linear_point.
  set (t := inject_Z (Z.of_nat k)) in *.
  set (m := inject_Z (n - 1)) in *.
  set (s := linear_step a b n) in *.
  assert (Hm : 0 < m).
  { subst m. change 0 with (inject_Z 0). rewrite <- Zlt_Qlt. lia. }
  assert (Hs : s <= 0) by nra.
  split; nra.
Qed.

Lemma step_negative : b < a -> linear_step a b n < 0.
Proof.
  intros Hab. pose proof full_span as Hspan.
  set (m := inject_Z (n - 1)) in *.
  set (s := linear_step a b n) in *.
  assert (Hm : 0 < m).
  { subst m. change 0 with (inject_Z 0). rewrite <- Zlt_Qlt. lia. }
  nra.
Qed.

End ExactSpacing.

(** X15. In exact arithmetic, for an integer [num_points >= 2] the list
    of [freq_list] is evenly spaced: each entry exceeds the one before by
    the same step [(freq_stop - freq_start) / (num_points - 1)]; it is
    strictly decreasing when [freq_stop < freq_start]; and no entry leaves
    the interval between the two bounds. *)
Theorem freq_list_is_evenly_spaced (d : dict Q) (a b : Q) (n : Z) :
  get "freq_start" d = Some a ->
  get "freq_stop" d = Some b ->
  get "num_points" d = Some (inject_Z n) ->
  (2 <= n)%Z ->
  exists li,
    VNAImpl.freq_list d = inr li /\
    chain (fun x y => y - x == linear_step a b n)%Q li /\
    (b < a -> chain (fun x y => y < x) li)%Q /\
    (a <= b -> Forall (fun x => a <= x /\ x <= b) li)%Q /\
    (b <= a -> Forall (fun x => b <= x /\ x <= a) li)%Q.
Proof.
  intros Hstart Hstop Hpoints Hn.
  exists (map (linear_point a b n) (seq 0 (Z.to_nat n))).
  split; [apply freq_list_exact_run; (assumption || lia) |].
  split; [| split; [| split]].
  - apply chain_map_seq. intros k. rewrite freq_succ. ring.
  - intros Hab. apply chain_map_seq. intros k. rewrite freq_succ.
    pose proof (step_negative a b n Hn Hab). lra.
  - intros Hab. apply Forall_forall. intros x Hx.
    apply in_map_iff in Hx. destruct Hx as (k & <- & Hk).
    apply in_seq in Hk. apply point_between_up; [exact Hn | lia | exact Hab].
  - intros Hab. apply Forall_forall. intros x Hx.
    apply in_map_iff in Hx. destruct Hx as (k & <- & Hk).
    apply in_seq in Hk. apply point_between_down; [exact Hn | lia | exact Hab].
Qed.

(** A downward sweep from [2e9] to [1e9] in three points. *)
Lemma freq_list_downward_example :
  exists li,
    VNAImpl.freq_list
      [("freq_start", inject_Z 2000000000); ("freq_stop", inject_Z 1000000000);
       ("num_points", inject_Z 3)] = inr li /\
    chain (fun x y => y < x)%Q li /\
    Forall (fun x => inject_Z 1000000000 <= x /\ x <= inject_Z 2000000000)%Q
           li.
Proof.
  assert (H3 : (2 <= 3)%Z) by lia.
  destruct (freq_list_is_evenly_spaced
              [("freq_start", inject_Z 2000000000);
               ("freq_stop", inject_Z 1000000000); ("num_points", inject_Z 3)]
              (inject_Z 2000000000) (inject_Z 1000000000) 3
              eq_refl eq_refl eq_refl H3)
    as (li & Hrun & _ & Hdown & _ & Hbetween).
  exists li. split; [exact Hrun |]. split.
  - apply Hdown. reflexivity.
  - apply Hbetween. discriminate.
Defined.

(** [int(q)] for a rational [q]: truncation towards zero. *)
Definition truncate (q : Q) : Z := Z.quot (Qnum q) (Zpos (Qden q)).

Section FractionalPoints.

Local Open Scope Q_scope.

Variables (a b q : Q).
Variable d : dict Q.
Hypothesis Hstart : get "freq_start" d = Some a.
Hypothesis Hstop : get "freq_stop" d = Some b.
Hypothesis Hpoints : get "num_points" d = Some q.
Hypothesis Hq : ~ q == 1.

Lemma freq_list_fractional_run :
  VNAImpl.freq_list d
  = inr (map (fun k => a + inject_Z (Z.of_nat k) * ((b - a) / (q - 1)))
             (seq 0 (Z.to_nat (truncate q)))).
Proof.
  unfold VNAImpl.freq_list, lookup.
  rewrite Hstop, Hstart, Hpoints. simpl py_truediv. simpl py_sub.
  simpl py_of_int.
  assert (Hdiv : Qeq_bool (q - inject_Z 1) (inject_Z 0) = false).
  { destruct (Qeq_bool (q - inject_Z 1) (inject_Z 0)) eqn:E; [| reflexivity].
    apply Qeq_bool_eq in E. exfalso. apply Hq.
    change (inject_Z 1) with 1 in E. change (inject_Z 0) with 0 in E. lra. }
  rewrite Hdiv. simpl py_to_int. fold (truncate q). cbv beta iota.
  rewrite fold_append_map. simpl app. unfold VNAImpl.range.
  rewrite map_map. reflexivity.
Qed.

Lemma fractional_last_misses :
  (1 <= truncate q)%Z -> ~ a == b -> ~ q == inject_Z (truncate q) ->
  ~ a + inject_Z (truncate q - 1) * ((b - a) / (q - 1)) == b.
Proof.
  intros Ht Hab Hfrac Hlast.
  assert (Hq1 : ~ q - 1 == 0) by (intros E; apply Hq; lra).
  assert (Hspan : (b - a) / (q - 1) * (q - 1) == b - a) by (now field).
  set (s := (b - a) / (q - 1)) in *.
  assert (Ht1 : inject_Z (truncate q - 1) == inject_Z (truncate q) - 1).
  { unfold Zminus. rewrite inject_Z_plus, inject_Z_opp. reflexivity. }
  rewrite Ht1 in Hlast.
  set (t := inject_Z (truncate q)) in *.
  assert (Hprod : s * (t - q) == 0) by nra.
  apply Qmult_integral in Hprod. destruct Hprod as [Hs | Htq].
  - apply Hab. rewrite Hs in Hspan. lra.
  - apply Hfrac. lra.
Qed.

End FractionalPoints.

(** X16. [freq_list] divides by [num_points - 1] as stored but loops
    [int(num_points)] times.  In exact arithmetic, for every stored
    [num_points] other than 1 it returns exactly [int(num_points)] entries
    (none when [num_points < 1]); and when [num_points] is not an integer
    and the bounds differ, the last entry is not [freq_stop]: the list
    stops short of the stop frequency. *)
Theorem freq_list_truncates_point_count (d : dict Q) (a b q : Q) :
  get "freq_start" d = Some a ->
  get "freq_stop" d = Some b ->
  get "num_points" d = Some q ->
  ~ (q == 1)%Q ->
  exists li,
    VNAImpl.freq_list d = inr li /\
    List.length li = Z.to_nat (truncate q) /\
    ((q < 1)%Q -> li = []) /\
    ((1 <= truncate q)%Z -> ~ (a == b)%Q ->
     ~ (q == inject_Z (truncate q))%Q -> ~ (last li 0 == b)%Q).
Proof.
  intros Hstart Hstop Hpoints Hq.
  eexists. split; [apply (freq_list_fractional_run a b q d); assumption |].
  split; [now rewrite length_map, length_seq |]. split.
  - intros Hlt. replace (Z.to_nat (truncate q)) with 0%nat; [reflexivity |].
    assert (Hle : (truncate q <= 0)%Z); [| lia].
    unfold truncate. destruct q as [num den]. unfold Qlt in Hlt. simpl in *.
    destruct (Z_le_gt_dec num 0) as [Hneg | Hpos].
    + apply Z.quot_le_upper_bound; lia || (rewrite Z.mul_0_r; exact Hneg).
    + rewrite Z.quot_small; lia.
  - intros Ht Hab Hfrac.
    destruct (Z.to_nat (truncate q)) as [| m] eqn:Hm; [lia |].
    rewrite last_map_seq.
    replace (Z.of_nat m) with (truncate q - 1)%Z by lia.
    now apply fractional_last_misses.
Qed.

(** Two and a half points between [1e9] and [2e9]: two entries, the second
    short of [2e9]. *)
Lemma freq_list_fractional_example :
  exists li,
    VNAImpl.freq_list
      [("freq_start", inject_Z 1000000000); ("freq_stop", inject_Z 2000000000);
       ("num_points", 5 # 2)] = inr li /\
    List.length li = 2%nat /\
    ~ (last li 0 == inject_Z 2000000000)%Q.
Proof.
  assert (Hq : ~ (5 # 2 == 1)%Q) by discriminate.
  destruct (freq_list_truncates_point_count
              [("freq_start", inject_Z 1000000000);
               ("freq_stop", inject_Z 2000000000); ("num_points", 5 # 2)]
              (inject_Z 1000000000) (inject_Z 2000000000) (5 # 2)
              eq_refl eq_refl eq_refl Hq)
    as (li & Hrun & Hlen & _ & Hlast).
  exists li. split; [exact Hrun |]. split; [exact Hlen |].
  apply Hlast; [vm_compute; discriminate | discriminate | discriminate].
Defined.

(** ** Construction of the analyzer: an answer that does not parse *)

(** X17. Range discovery has no handler for a limit that does not parse:
    when [int()] accepts the answer to the first MIN query and rejects the
    answer to the MAX query with [e], constructing the analyzer raises
    [e].  The instrument has by then been preset and asked the two
    queries, and no range has been recorded: a setting's range is stored
    only once both of its limits are parsed. *)
Theorem construction_rejects_unparsed_limit
        (parse_int : string -> Exn + Z) (parse_float : string -> Exn + float)
        (r : Resource) (lo : Z) (e : Exn) :
  fault_free r = true ->
  parse_int (discovery_answer r 0) = inr lo ->
  parse_int (discovery_answer r 1) = inl e ->
  exists v,
    VNAImpl.__init__ parse_int parse_float (Some r) = (inl e, v) /\
    seen v = traffic r ++ discovery_setup
             ++ [Asked "SENSE1:SWEEP:POINTS? MIN";
                 Asked "SENSE1:SWEEP:POINTS? MAX"] /\
    p_ranges v = [] /\
    healthy v = true.
Proof.
  intros Hff Hlo Hhi.
  pose proof (staged_start r "" [] [] Hff) as Hs.
  enough (Hy : raises (VNAImpl._set_parameter_ranges parse_int parse_float)
                 (mkVNA (Some r) "" [] [])
                 (fun e' v =>
                    e' = e /\
                    staged r (discovery_setup
                              ++ [Asked "SENSE1:SWEEP:POINTS? MIN";
                                  Asked "SENSE1:SWEEP:POINTS? MAX"])
                           "" [] [] (LF, LF, timeout r) v)).
  { destruct Hy as (e' & v & Hrun & -> & _ & _ & Hpr & r' & Hr' & Hff'
                    & Htr & _).
    exists v. unfold VNAImpl.__init__, seen, healthy. simpl get_resource.
    rewrite Hrun, Hr', Htr. repeat split; assumption. }
  unfold VNAImpl._set_parameter_ranges.
  do 9 (apply raises_later; staged_step).
  apply raises_now. unfold VNAImpl.int_range.
  apply raises_later; staged_step.
  match goal with
  | |- raises (Py.bind (Py.lift (parse_int ?s)) _) _ _ =>
      change s with (discovery_answer r 0)
  end.
  rewrite Hlo. apply raises_later; staged_step.
  apply raises_later; staged_step.
  match goal with
  | |- raises (Py.bind (Py.lift (parse_int ?s)) _) _ _ =>
      change s with (discovery_answer r 1)
  end.
  rewrite Hhi. apply raises_now. apply raises_lift.
  split; [reflexivity | exact Hs].
Qed.

Lemma construction_rejects_example :
  exists v,
    VNAImpl.__init__
      (fun s => if String.eqb s "SENSE1:SWEEP:POINTS? MIN ok"
                then inr 1%Z else inl ValueError)
      (fun _ => inr 0%float) (Some talkative) = (inl ValueError, v) /\
    p_ranges v = [].
Proof.
  destruct (construction_rejects_unparsed_limit
              (fun s => if String.eqb s "SENSE1:SWEEP:POINTS? MIN ok"
                        then inr 1%Z else inl ValueError)
              (fun _ => inr 0%float) talkative 1%Z ValueError
              eq_refl eq_refl eq_refl)
    as (v & Hrun & _ & Hpr & _).
  exists v. split; [exact Hrun | exact Hpr].
Defined.
